(** * rocksdb-cli transform scripts: a shallow embedding

    The four callback scripts under [scripts/transform/] are embedded as
    Rocq functions over a model of the Python values they manipulate.
    Python [str] is a list of Unicode code points, exceptions are an error
    monad, and the [json] module ([json.loads], [json.dumps] with their
    default arguments, as implemented by CPython's [_json] accelerator) is
    modelled as executable functions.  Interpreter resource limits
    (recursion depth, the integer digit limit) and exception messages are
    not modelled.  The pipeline engine that runs the callbacks is not among
    the sources; it is modelled from its specification. *)

From Stdlib Require Import List ZArith NArith Bool String Ascii Lia.
From Stdlib Require Import Floats.SpecFloat.
From Stdlib Require DecimalFacts DecimalPos DecimalN.
Import ListNotations.
Local Open Scope Z_scope.

(** ** Python strings *)

(** A [str] is a sequence of code points. *)
Definition codepoint := N.
Definition pystr := list codepoint.

Definition cp (a : ascii) : codepoint := N_of_ascii a.

(** [str "abc"] is the Python literal ['abc']. *)
Definition str (s : string) : pystr := map cp (list_ascii_of_string s).

Fixpoint str_eqb (a b : pystr) : bool :=
  match a, b with
  | [], [] => true
  | x :: a', y :: b' => N.eqb x y && str_eqb a' b'
  | _, _ => false
  end.

(** [s.startswith(p)] *)
Fixpoint startswith (s p : pystr) {struct p} : bool :=
  match p, s with
  | [], _ => true
  | x :: p', y :: s' => N.eqb x y && startswith s' p'
  | _ :: _, [] => false
  end.

(** [s.endswith(p)] *)
Definition endswith (s p : pystr) : bool := startswith (rev s) (rev p).

(** [p in s] for two strings: substring search. *)
Fixpoint str_contains (s p : pystr) : bool :=
  startswith s p ||
  match s with
  | [] => false
  | _ :: s' => str_contains s' p
  end.

(** [js "{'a': 1}"] is the text [{"a": 1}]: in these literals an
    apostrophe stands for the double quote. *)
Definition js (s : string) : pystr :=
  map (fun c => if N.eqb c 39 then 34%N else c) (str s).

(** ** Exceptions *)

Inductive exn : Type :=
| JSONDecodeError
| TypeError
| AttributeError
| KeyError
| RecursionError.

Inductive result (A : Type) : Type :=
| Ok (a : A)
| Raise (e : exn).
Arguments Ok {A} a.
Arguments Raise {A} e.

Definition bind {A B : Type} (m : result A) (k : A -> result B) : result B :=
  match m with
  | Ok a => k a
  | Raise e => Raise e
  end.

Notation "x <- m ;; k" := (bind m (fun x => k))
  (at level 61, m at next level, right associativity).

(** [try: body / except: handler] with a bare [except], which catches
    every exception. *)
Definition try_except {A : Type} (body : result A) (handler : result A) : result A :=
  match body with
  | Ok a => Ok a
  | Raise _ => handler
  end.

(** ** Python values produced by [json.loads] *)

#[local] Unset Elimination Schemes.
Inductive pyval : Type :=
| PNone
| PBool (b : bool)
| PInt (z : Z)
| PFloat (f : spec_float)
| PStr (s : pystr)
| PList (l : list pyval)
| PDict (d : list (pystr * pyval)).
#[local] Set Elimination Schemes.

(** A [dict] is kept as an association list in insertion order, with at
    most one entry per key. *)
Definition pydict := list (pystr * pyval).

Fixpoint dict_lookup (d : pydict) (k : pystr) : option pyval :=
  match d with
  | [] => None
  | (k', v) :: d' => if str_eqb k' k then Some v else dict_lookup d' k
  end.

Definition dict_mem (d : pydict) (k : pystr) : bool :=
  match dict_lookup d k with Some _ => true | None => false end.

(** [d[k] = v]: an existing key keeps its position, a new key goes last. *)
Fixpoint dict_set (d : pydict) (k : pystr) (v : pyval) : pydict :=
  match d with
  | [] => [(k, v)]
  | (k', v') :: d' =>
      if str_eqb k' k then (k', v) :: d' else (k', v') :: dict_set d' k v
  end.

Definition dict_keys (d : pydict) : list pystr := map fst d.

(** ** Numbers *)

(** Decimal digits, through the standard library's [Decimal.uint]. *)
Definition is_digit (c : codepoint) : bool := (N.leb 48 c && N.leb c 57)%N.

Definition digit_of_cp (c : codepoint) (k : Decimal.uint) : Decimal.uint :=
  match c with
  | 48%N => Decimal.D0 k | 49%N => Decimal.D1 k | 50%N => Decimal.D2 k
  | 51%N => Decimal.D3 k | 52%N => Decimal.D4 k | 53%N => Decimal.D5 k
  | 54%N => Decimal.D6 k | 55%N => Decimal.D7 k | 56%N => Decimal.D8 k
  | _ => Decimal.D9 k
  end.

Fixpoint uint_of_digits (ds : pystr) : Decimal.uint :=
  match ds with
  | [] => Decimal.Nil
  | c :: ds' => digit_of_cp c (uint_of_digits ds')
  end.

Fixpoint digits_of_uint (u : Decimal.uint) : pystr :=
  match u with
  | Decimal.Nil => []
  | Decimal.D0 k => 48%N :: digits_of_uint k
  | Decimal.D1 k => 49%N :: digits_of_uint k
  | Decimal.D2 k => 50%N :: digits_of_uint k
  | Decimal.D3 k => 51%N :: digits_of_uint k
  | Decimal.D4 k => 52%N :: digits_of_uint k
  | Decimal.D5 k => 53%N :: digits_of_uint k
  | Decimal.D6 k => 54%N :: digits_of_uint k
  | Decimal.D7 k => 55%N :: digits_of_uint k
  | Decimal.D8 k => 56%N :: digits_of_uint k
  | Decimal.D9 k => 57%N :: digits_of_uint k
  end.

(** [int(ds)] for a non-empty string of ASCII digits. *)
Definition nat_of_digits (ds : pystr) : Z := Z.of_N (N.of_uint (uint_of_digits ds)).

(** [str(n)] for [n >= 0]. *)
Definition digits_of_nat (n : Z) : pystr := digits_of_uint (N.to_uint (Z.to_N n)).

(** [str(z)] for any integer. *)
Definition int_str (z : Z) : pystr :=
  if z <? 0 then 45%N :: digits_of_nat (- z) else digits_of_nat z.

(** Python floats are IEEE 754 binary64 values. *)
Definition prec : Z := 53.
Definition emax : Z := 1024.

Definition num_digits (p : positive) : Z :=
  Z.of_nat (Decimal.nb_digits (Pos.to_uint p)).

(** The binary64 value nearest to [m * 10^e] (ties to even), as computed by
    [float()] on a decimal literal.  Magnitudes beyond the binary64 range
    are settled without computing the power. *)
Definition float_of_decimal (neg : bool) (m : Z) (e : Z) : spec_float :=
  match m with
  | Zpos p =>
      let nd := num_digits p in
      if 310 <? e + nd then S754_infinity neg
      else if e + nd <? -330 then S754_zero neg
      else if 0 <=? e then binary_round prec emax neg (Z.to_pos (Zpos p * 10 ^ e)) 0
      else
        let d := 10 ^ (- e) in
        let k := Z.max 0 (Z.log2 d + 56 - Z.log2 (Zpos p)) in
        let n := Zpos p * 2 ^ k in
        let q := n / d in
        let r := n mod d in
        let loc := if r =? 0 then loc_Exact else loc_Inexact (Z.compare (2 * r) d) in
        binary_round_aux prec emax neg q (- k) loc
  | _ => S754_zero neg
  end.

(** Exact comparison of a float with an integer, as Python's [<] and [>]
    do between [float] and [int]; [None] for NaN, which is unordered. *)
Definition float_compare_Z (f : spec_float) (z : Z) : option comparison :=
  match f with
  | S754_nan => None
  | S754_infinity s => Some (if s then Lt else Gt)
  | S754_zero _ => Some (Z.compare 0 z)
  | S754_finite s m e =>
      let v := if s then Zneg m else Zpos m in
      Some (if 0 <=? e then Z.compare (v * 2 ^ e) z
            else Z.compare v (z * 2 ^ (- e)))
  end.

Definition spec_float_eqb (a b : spec_float) : bool :=
  match a, b with
  | S754_zero s, S754_zero s' => Bool.eqb s s'
  | S754_infinity s, S754_infinity s' => Bool.eqb s s'
  | S754_nan, S754_nan => true
  | S754_finite s m e, S754_finite s' m' e' =>
      Bool.eqb s s' && Pos.eqb m m' && Z.eqb e e'
  | _, _ => false
  end.

(** *** [repr] of a float: the shortest decimal string that converts back
    to the same float *)

(** [decimal_point num den] is the [k] with [10^(k-1) <= num/den < 10^k]. *)
Definition decimal_point (num den : positive) : Z :=
  let j := num_digits num - num_digits den in
  let ge := if 0 <=? j then Zpos den * 10 ^ j <=? Zpos num
            else Zpos den <=? Zpos num * 10 ^ (- j) in
  if ge then j + 1 else j.

(** The candidates with [p] significant digits around [num/den]: the
    decimal just below and the one just above, the nearer one first. *)
Definition repr_candidates (num den : positive) (k p : Z) : list (Z * Z) :=
  let s := p - k in
  let n := if 0 <=? s then Zpos num * 10 ^ s else Zpos num in
  let d := if 0 <=? s then Zpos den else Zpos den * 10 ^ (- s) in
  let lo := n / d in
  let r := n mod d in
  match Z.compare (2 * r) d with
  | Lt => [(lo, - s); (lo + 1, - s)]
  | Gt => [(lo + 1, - s); (lo, - s)]
  | Eq => if Z.even lo then [(lo, - s); (lo + 1, - s)] else [(lo + 1, - s); (lo, - s)]
  end.

Fixpoint find_repr (x : spec_float) (cands : list (Z * Z)) : option (Z * Z) :=
  match cands with
  | [] => None
  | (c, e) :: rest =>
      if spec_float_eqb (float_of_decimal false c e) x then Some (c, e)
      else find_repr x rest
  end.

(** Search the precisions [p, p+1, ...] ([fuel] of them). *)
Fixpoint shortest_digits (x : spec_float) (num den : positive) (k p : Z)
    (fuel : nat) : option (Z * Z) :=
  match fuel with
  | O => None
  | S fuel' =>
      match find_repr x (repr_candidates num den k p) with
      | Some r => Some r
      | None => shortest_digits x num den k (p + 1) fuel'
      end
  end.

Fixpoint strip_trailing_zeros_rev (r : pystr) : pystr :=
  match r with
  | 48%N :: r' => strip_trailing_zeros_rev r'
  | _ => r
  end.

Definition zeros (n : Z) : pystr := repeat 48%N (Z.to_nat n).

(** [repr] of the positive finite float [m * 2^e], in CPython's ['r']
    format: exponent notation when the decimal point falls at or below
    [-4] or beyond [16], fixed notation (with a fractional part) otherwise. *)
Definition float_repr_pos (m : positive) (e : Z) : pystr :=
  let x := S754_finite false m e in
  let num := if 0 <=? e then Z.to_pos (Zpos m * 2 ^ e) else m in
  let den := if 0 <=? e then 1%positive else Z.to_pos (2 ^ (- e)) in
  let k := decimal_point num den in
  let '(c, ex) :=
    match shortest_digits x num den k 1 17 with
    | Some r => r
    | None => hd (0, 0) (repr_candidates num den k 17)
    end in
  let all := digits_of_nat c in
  let ds := rev (strip_trailing_zeros_rev (rev all)) in
  let decpt := ex + Z.of_nat (List.length all) in
  let nd := Z.of_nat (List.length ds) in
  if (decpt <=? -4) || (16 <? decpt) then
    let ex10 := decpt - 1 in
    let mant := match ds with
                | d :: (_ :: _) as rest => d :: 46%N :: rest
                | _ => ds
                end in
    let ed := digits_of_nat (Z.abs ex10) in
    mant ++ [101%N; if ex10 <? 0 then 45%N else 43%N]
         ++ (if Nat.ltb (List.length ed) 2 then 48%N :: ed else ed)
  else if decpt <=? 0 then str "0." ++ zeros (- decpt) ++ ds
  else if decpt <? nd then
    firstn (Z.to_nat decpt) ds ++ 46%N :: skipn (Z.to_nat decpt) ds
  else ds ++ zeros (decpt - nd) ++ str ".0".

(** The text [json.dumps] writes for a float ([allow_nan] is on by
    default). *)
Definition float_repr (f : spec_float) : pystr :=
  match f with
  | S754_nan => str "NaN"
  | S754_infinity false => str "Infinity"
  | S754_infinity true => str "-Infinity"
  | S754_zero false => str "0.0"
  | S754_zero true => str "-0.0"
  | S754_finite s m e =>
      if s then 45%N :: float_repr_pos m e else float_repr_pos m e
  end.

(** ** [json.loads] *)

(** [is_char c "x"]: the code point [c] is the ASCII character [x]. *)
Definition is_char (c : codepoint) (a : ascii) : bool := N.eqb c (cp a).

Definition is_ws (c : codepoint) : bool :=
  is_char c " " || N.eqb c 9 || N.eqb c 10 || N.eqb c 13.

Fixpoint skip_ws (s : pystr) : pystr :=
  match s with
  | c :: s' => if is_ws c then skip_ws s' else s
  | [] => []
  end.

Definition hex_digit (c : codepoint) : option N :=
  if is_digit c then Some (c - 48)%N
  else if (N.leb 97 c && N.leb c 102)%N then Some (c - 87)%N
  else if (N.leb 65 c && N.leb c 70)%N then Some (c - 55)%N
  else None.

Definition hex4 (a b c d : codepoint) : option N :=
  match hex_digit a, hex_digit b, hex_digit c, hex_digit d with
  | Some x, Some y, Some z, Some w => Some (((x * 16 + y) * 16 + z) * 16 + w)%N
  | _, _, _, _ => None
  end.

Definition is_high_surrogate (c : codepoint) : bool := (N.leb 55296 c && N.leb c 56319)%N.
Definition is_low_surrogate (c : codepoint) : bool := (N.leb 56320 c && N.leb c 57343)%N.

Definition join_surrogates (hi lo : codepoint) : codepoint :=
  (65536 + ((hi - 55296) * 1024 + (lo - 56320)))%N.

(** The character a one-letter backslash escape stands for. *)
Definition backslash (c : codepoint) : option codepoint :=
  if N.eqb c 34 then Some 34%N
  else if is_char c "\" then Some (cp "\")
  else if is_char c "/" then Some (cp "/")
  else if is_char c "b" then Some 8%N
  else if is_char c "f" then Some 12%N
  else if is_char c "n" then Some 10%N
  else if is_char c "r" then Some 13%N
  else if is_char c "t" then Some 9%N
  else None.

(** [scanstring]: the body of a string literal after its opening quote
    (strict mode).  [acc] holds the decoded characters, last first.  A
    [\uXXXX] escape of a high surrogate directly followed by a [\uXXXX]
    escape of a low surrogate decodes to one character. *)
Fixpoint scanstring (s : pystr) (acc : pystr) : result (pystr * pystr) :=
  match s with
  | [] => Raise JSONDecodeError
  | c :: s1 =>
      if N.eqb c 34 then Ok (rev acc, s1)
      else if is_char c "\" then
        match s1 with
        | [] => Raise JSONDecodeError
        | e :: s2 =>
            if is_char e "u" then
              match s2 with
              | h1 :: h2 :: h3 :: h4 :: s3 =>
                  match hex4 h1 h2 h3 h4 with
                  | None => Raise JSONDecodeError
                  | Some u1 =>
                      match s3 with
                      | b :: u :: l1 :: l2 :: l3 :: l4 :: s4 =>
                          if is_high_surrogate u1 && is_char b "\" && is_char u "u" then
                            match hex4 l1 l2 l3 l4 with
                            | None => Raise JSONDecodeError
                            | Some u2 =>
                                if is_low_surrogate u2
                                then scanstring s4 (join_surrogates u1 u2 :: acc)
                                else scanstring s3 (u1 :: acc)
                            end
                          else scanstring s3 (u1 :: acc)
                      | _ => scanstring s3 (u1 :: acc)
                      end
                  end
              | _ => Raise JSONDecodeError
              end
            else
              match backslash e with
              | Some x => scanstring s2 (x :: acc)
              | None => Raise JSONDecodeError
              end
        end
      else if N.leb c 31 then Raise JSONDecodeError
      else scanstring s1 (c :: acc)
  end.

(** The longest prefix of ASCII digits, and what follows it. *)
Fixpoint span_digits (s : pystr) : pystr * pystr :=
  match s with
  | c :: s' =>
      if is_digit c then let '(ds, r) := span_digits s' in (c :: ds, r)
      else ([], s)
  | [] => ([], [])
  end.

(** The integer part of a number: ["0"], or a non-zero digit and any
    digits. *)
Definition match_integer (s : pystr) : option (pystr * pystr) :=
  match s with
  | c :: r =>
      if is_char c "0" then Some ([c], r)
      else if is_digit c then let '(ds, r') := span_digits r in Some (c :: ds, r')
      else None
  | [] => None
  end.

(** The optional fraction: a dot and at least one digit. *)
Definition match_frac (s : pystr) : pystr * pystr :=
  match s with
  | d :: c :: _ =>
      if is_char d "." && is_digit c then span_digits (tl s) else ([], s)
  | _ => ([], s)
  end.

(** The optional exponent: [e] or [E], an optional sign and at least one
    digit; without a digit nothing is consumed. *)
Definition match_exp (s : pystr) : option Z * pystr :=
  match s with
  | e :: r =>
      if is_char e "e" || is_char e "E" then
        let '(neg, r1) :=
          match r with
          | sg :: r' =>
              if is_char sg "-" then (true, r')
              else if is_char sg "+" then (false, r')
              else (false, r)
          | [] => (false, r)
          end in
        match span_digits r1 with
        | ([], _) => (None, s)
        | (ds, r2) => (Some (if neg then - nat_of_digits ds else nat_of_digits ds), r2)
        end
      else (None, s)
  | [] => (None, s)
  end.

(** [_match_number]: an [int] when the literal has neither fraction nor
    exponent, a [float] otherwise. *)
Definition match_number (s : pystr) : option (pyval * pystr) :=
  let '(neg, s1) :=
    match s with
    | c :: r => if is_char c "-" then (true, r) else (false, s)
    | [] => (false, s)
    end in
  match match_integer s1 with
  | None => None
  | Some (ip, s2) =>
      let '(fp, s3) := match_frac s2 in
      let '(ex, s4) := match_exp s3 in
      match fp, ex with
      | [], None =>
          Some (PInt (if neg then - nat_of_digits ip else nat_of_digits ip), s4)
      | _, _ =>
          let e := match ex with Some x => x | None => 0 end in
          Some (PFloat (float_of_decimal neg (nat_of_digits (ip ++ fp))
                          (e - Z.of_nat (List.length fp))), s4)
      end
  end.

(** [scan_once] with the object and array parsers it calls.  [fuel] bounds
    the number of nested calls; [json_loads] below supplies more than a
    text of its length can use, so that [RecursionError] never shows. *)
Fixpoint scan_once (fuel : nat) (s : pystr) {struct fuel} : result (pyval * pystr) :=
  match fuel with
  | O => Raise RecursionError
  | S f =>
      match s with
      | [] => Raise JSONDecodeError
      | c :: s' =>
          if N.eqb c 34 then
            r <- scanstring s' [] ;; Ok (PStr (fst r), snd r)
          else if is_char c "{" then
            match skip_ws s' with
            | c1 :: r1 =>
                if is_char c1 "}" then Ok (PDict [], r1)
                else parse_object f [] (c1 :: r1)
            | [] => Raise JSONDecodeError
            end
          else if is_char c "[" then
            match skip_ws s' with
            | c1 :: r1 =>
                if is_char c1 "]" then Ok (PList [], r1)
                else parse_array f [] (c1 :: r1)
            | [] => Raise JSONDecodeError
            end
          else if startswith s (str "null") then Ok (PNone, skipn 4 s)
          else if startswith s (str "true") then Ok (PBool true, skipn 4 s)
          else if startswith s (str "false") then Ok (PBool false, skipn 5 s)
          else if startswith s (str "NaN") then Ok (PFloat S754_nan, skipn 3 s)
          else if startswith s (str "Infinity") then
            Ok (PFloat (S754_infinity false), skipn 8 s)
          else if startswith s (str "-Infinity") then
            Ok (PFloat (S754_infinity true), skipn 9 s)
          else
            match match_number s with
            | Some r => Ok r
            | None => Raise JSONDecodeError
            end
      end
  end

(** The members of an object, from the quote that opens a key; [acc] is the
    [dict] built so far, a repeated key overwriting its earlier value. *)
with parse_object (fuel : nat) (acc : pydict) (s : pystr) {struct fuel}
    : result (pyval * pystr) :=
  match fuel with
  | O => Raise RecursionError
  | S f =>
      match s with
      | q :: s1 =>
          if N.eqb q 34 then
            k <- scanstring s1 [] ;;
            match skip_ws (snd k) with
            | c :: s2 =>
                if is_char c ":" then
                  v <- scan_once f (skip_ws s2) ;;
                  let acc' := dict_set acc (fst k) (fst v) in
                  match skip_ws (snd v) with
                  | c' :: s3 =>
                      if is_char c' "}" then Ok (PDict acc', s3)
                      else if is_char c' "," then parse_object f acc' (skip_ws s3)
                      else Raise JSONDecodeError
                  | [] => Raise JSONDecodeError
                  end
                else Raise JSONDecodeError
            | [] => Raise JSONDecodeError
            end
          else Raise JSONDecodeError
      | [] => Raise JSONDecodeError
      end
  end

(** The items of an array; [acc] holds them last first. *)
with parse_array (fuel : nat) (acc : list pyval) (s : pystr) {struct fuel}
    : result (pyval * pystr) :=
  match fuel with
  | O => Raise RecursionError
  | S f =>
      v <- scan_once f s ;;
      match skip_ws (snd v) with
      | c :: s1 =>
          if is_char c "]" then Ok (PList (rev (fst v :: acc)), s1)
          else if is_char c "," then parse_array f (fst v :: acc) (skip_ws s1)
          else Raise JSONDecodeError
      | [] => Raise JSONDecodeError
      end
  end.

(** [json.loads(s)]: one value, surrounded by optional white space and
    nothing else; a leading byte order mark is refused.  The fuel is more
    than the nesting of a text of this length can use. *)
Definition json_loads (s : pystr) : result pyval :=
  if startswith s [65279%N] then Raise JSONDecodeError
  else
    r <- scan_once (S (2 * List.length s)) (skip_ws s) ;;
    match skip_ws (snd r) with
    | [] => Ok (fst r)
    | _ :: _ => Raise JSONDecodeError
    end.

(** ** [json.dumps] *)

Definition hex_char (n : N) : codepoint :=
  if (n <? 10)%N then (48 + n)%N else (87 + n)%N.

(** [\uXXXX] with lower-case hexadecimal digits. *)
Definition u_escape (c : N) : pystr :=
  [cp "\"; cp "u"; hex_char (c / 4096 mod 16); hex_char (c / 256 mod 16);
   hex_char (c / 16 mod 16); hex_char (c mod 16)]%N.

(** [ensure_ascii] escaping of one character: printable ASCII stays, the
    usual short escapes, [\uXXXX] for the rest, as a surrogate pair beyond
    the basic plane. *)
Definition escape_char (c : codepoint) : pystr :=
  if N.eqb c 34 then [cp "\"; 34%N]
  else if is_char c "\" then [cp "\"; cp "\"]
  else if N.eqb c 10 then [cp "\"; cp "n"]
  else if N.eqb c 13 then [cp "\"; cp "r"]
  else if N.eqb c 9 then [cp "\"; cp "t"]
  else if N.eqb c 8 then [cp "\"; cp "b"]
  else if N.eqb c 12 then [cp "\"; cp "f"]
  else if (N.leb 32 c && N.leb c 126)%N then [c]
  else if (N.leb 65536 c)%N then
    u_escape (55296 - 64 + c / 1024) ++ u_escape (56320 + c mod 1024)
  else u_escape c.

Definition encode_string (s : pystr) : pystr :=
  34%N :: flat_map escape_char s ++ [34%N].

(** [', '.join(items)] *)
Fixpoint join_comma (items : list pystr) : pystr :=
  match items with
  | [] => []
  | [x] => x
  | x :: rest => x ++ cp "," :: cp " " :: join_comma rest
  end.

(** [json.dumps(v)] with the default separators and key order as stored. *)
Fixpoint json_dumps (v : pyval) : pystr :=
  match v with
  | PNone => str "null"
  | PBool true => str "true"
  | PBool false => str "false"
  | PInt z => int_str z
  | PFloat f => float_repr f
  | PStr s => encode_string s
  | PList l => cp "[" :: join_comma (map json_dumps l) ++ [cp "]"]
  | PDict d =>
      cp "{" :: join_comma
                  (map (fun kv => encode_string (fst kv) ++ cp ":" :: cp " "
                                   :: json_dumps (snd kv)) d)
             ++ [cp "}"]
  end.

(** ** [str.upper] *)

(** The full upper-case mapping of every code point that has one (Unicode
    14.0.0, as shipped with CPython 3.11); a code point that is not listed maps
    to itself.  The mapping is applied to each character on its own. *)
Definition upper_table : list (codepoint * pystr) :=
  [
   (97, [65]); (98, [66]); (99, [67]); (100, [68]); (101, [69]);
   (102, [70]); (103, [71]); (104, [72]); (105, [73]); (106, [74]);
   (107, [75]); (108, [76]); (109, [77]); (110, [78]); (111, [79]);
   (112, [80]); (113, [81]); (114, [82]); (115, [83]); (116, [84]);
   (117, [85]); (118, [86]); (119, [87]); (120, [88]); (121, [89]);
   (122, [90]); (181, [924]); (223, [83; 83]); (224, [192]); (225, [193]);
   (226, [194]); (227, [195]); (228, [196]); (229, [197]); (230, [198]);
   (231, [199]); (232, [200]); (233, [201]); (234, [202]); (235, [203]);
   (236, [204]); (237, [205]); (238, [206]); (239, [207]); (240, [208]);
   (241, [209]); (242, [210]); (243, [211]); (244, [212]); (245, [213]);
   (246, [214]); (248, [216]); (249, [217]); (250, [218]); (251, [219]);
   (252, [220]); (253, [221]); (254, [222]); (255, [376]); (257, [256]);
   (259, [258]); (261, [260]); (263, [262]); (265, [264]); (267, [266]);
   (269, [268]); (271, [270]); (273, [272]); (275, [274]); (277, [276]);
   (279, [278]); (281, [280]); (283, [282]); (285, [284]); (287, [286]);
   (289, [288]); (291, [290]); (293, [292]); (295, [294]); (297, [296]);
   (299, [298]); (301, [300]); (303, [302]); (305, [73]); (307, [306]);
   (309, [308]); (311, [310]); (314, [313]); (316, [315]); (318, [317]);
   (320, [319]); (322, [321]); (324, [323]); (326, [325]); (328, [327]);
   (329, [700; 78]); (331, [330]); (333, [332]); (335, [334]); (337, [336]);
   (339, [338]); (341, [340]); (343, [342]); (345, [344]); (347, [346]);
   (349, [348]); (351, [350]); (353, [352]); (355, [354]); (357, [356]);
   (359, [358]); (361, [360]); (363, [362]); (365, [364]); (367, [366]);
   (369, [368]); (371, [370]); (373, [372]); (375, [374]); (378, [377]);
   (380, [379]); (382, [381]); (383, [83]); (384, [579]); (387, [386]);
   (389, [388]); (392, [391]); (396, [395]); (402, [401]); (405, [502]);
   (409, [408]); (410, [573]); (414, [544]); (417, [416]); (419, [418]);
   (421, [420]); (424, [423]); (429, [428]); (432, [431]); (436, [435]);
   (438, [437]); (441, [440]); (445, [444]); (447, [503]); (453, [452]);
   (454, [452]); (456, [455]); (457, [455]); (459, [458]); (460, [458]);
   (462, [461]); (464, [463]); (466, [465]); (468, [467]); (470, [469]);
   (472, [471]); (474, [473]); (476, [475]); (477, [398]); (479, [478]);
   (481, [480]); (483, [482]); (485, [484]); (487, [486]); (489, [488]);
   (491, [490]); (493, [492]); (495, [494]); (496, [74; 780]); (498, [497]);
   (499, [497]); (501, [500]); (505, [504]); (507, [506]); (509, [508]);
   (511, [510]); (513, [512]); (515, [514]); (517, [516]); (519, [518]);
   (521, [520]); (523, [522]); (525, [524]); (527, [526]); (529, [528]);
   (531, [530]); (533, [532]); (535, [534]); (537, [536]); (539, [538]);
   (541, [540]); (543, [542]); (547, [546]); (549, [548]); (551, [550]);
   (553, [552]); (555, [554]); (557, [556]); (559, [558]); (561, [560]);
   (563, [562]); (572, [571]); (575, [11390]); (576, [11391]); (578, [577]);
   (583, [582]); (585, [584]); (587, [586]); (589, [588]); (591, [590]);
   (592, [11375]); (593, [11373]); (594, [11376]); (595, [385]); (596, [390]);
   (598, [393]); (599, [394]); (601, [399]); (603, [400]); (604, [42923]);
   (608, [403]); (609, [42924]); (611, [404]); (613, [42893]); (614, [42922]);
   (616, [407]); (617, [406]); (618, [42926]); (619, [11362]); (620, [42925]);
   (623, [412]); (625, [11374]); (626, [413]); (629, [415]); (637, [11364]);
   (640, [422]); (642, [42949]); (643, [425]); (647, [42929]); (648, [430]);
   (649, [580]); (650, [433]); (651, [434]); (652, [581]); (658, [439]);
   (669, [42930]); (670, [42928]); (837, [921]); (881, [880]); (883, [882]);
   (887, [886]); (891, [1021]); (892, [1022]); (893, [1023]); (912, [921; 776; 769]);
   (940, [902]); (941, [904]); (942, [905]); (943, [906]); (944, [933; 776; 769]);
   (945, [913]); (946, [914]); (947, [915]); (948, [916]); (949, [917]);
   (950, [918]); (951, [919]); (952, [920]); (953, [921]); (954, [922]);
   (955, [923]); (956, [924]); (957, [925]); (958, [926]); (959, [927]);
   (960, [928]); (961, [929]); (962, [931]); (963, [931]); (964, [932]);
   (965, [933]); (966, [934]); (967, [935]); (968, [936]); (969, [937]);
   (970, [938]); (971, [939]); (972, [908]); (973, [910]); (974, [911]);
   (976, [914]); (977, [920]); (981, [934]); (982, [928]); (983, [975]);
   (985, [984]); (987, [986]); (989, [988]); (991, [990]); (993, [992]);
   (995, [994]); (997, [996]); (999, [998]); (1001, [1000]); (1003, [1002]);
   (1005, [1004]); (1007, [1006]); (1008, [922]); (1009, [929]); (1010, [1017]);
   (1011, [895]); (1013, [917]); (1016, [1015]); (1019, [1018]); (1072, [1040]);
   (1073, [1041]); (1074, [1042]); (1075, [1043]); (1076, [1044]); (1077, [1045]);
   (1078, [1046]); (1079, [1047]); (1080, [1048]); (1081, [1049]); (1082, [1050]);
   (1083, [1051]); (1084, [1052]); (1085, [1053]); (1086, [1054]); (1087, [1055]);
   (1088, [1056]); (1089, [1057]); (1090, [1058]); (1091, [1059]); (1092, [1060]);
   (1093, [1061]); (1094, [1062]); (1095, [1063]); (1096, [1064]); (1097, [1065]);
   (1098, [1066]); (1099, [1067]); (1100, [1068]); (1101, [1069]); (1102, [1070]);
   (1103, [1071]); (1104, [1024]); (1105, [1025]); (1106, [1026]); (1107, [1027]);
   (1108, [1028]); (1109, [1029]); (1110, [1030]); (1111, [1031]); (1112, [1032]);
   (1113, [1033]); (1114, [1034]); (1115, [1035]); (1116, [1036]); (1117, [1037]);
   (1118, [1038]); (1119, [1039]); (1121, [1120]); (1123, [1122]); (1125, [1124]);
   (1127, [1126]); (1129, [1128]); (1131, [1130]); (1133, [1132]); (1135, [1134]);
   (1137, [1136]); (1139, [1138]); (1141, [1140]); (1143, [1142]); (1145, [1144]);
   (1147, [1146]); (1149, [1148]); (1151, [1150]); (1153, [1152]); (1163, [1162]);
   (1165, [1164]); (1167, [1166]); (1169, [1168]); (1171, [1170]); (1173, [1172]);
   (1175, [1174]); (1177, [1176]); (1179, [1178]); (1181, [1180]); (1183, [1182]);
   (1185, [1184]); (1187, [1186]); (1189, [1188]); (1191, [1190]); (1193, [1192]);
   (1195, [1194]); (1197, [1196]); (1199, [1198]); (1201, [1200]); (1203, [1202]);
   (1205, [1204]); (1207, [1206]); (1209, [1208]); (1211, [1210]); (1213, [1212]);
   (1215, [1214]); (1218, [1217]); (1220, [1219]); (1222, [1221]); (1224, [1223]);
   (1226, [1225]); (1228, [1227]); (1230, [1229]); (1231, [1216]); (1233, [1232]);
   (1235, [1234]); (1237, [1236]); (1239, [1238]); (1241, [1240]); (1243, [1242]);
   (1245, [1244]); (1247, [1246]); (1249, [1248]); (1251, [1250]); (1253, [1252]);
   (1255, [1254]); (1257, [1256]); (1259, [1258]); (1261, [1260]); (1263, [1262]);
   (1265, [1264]); (1267, [1266]); (1269, [1268]); (1271, [1270]); (1273, [1272]);
   (1275, [1274]); (1277, [1276]); (1279, [1278]); (1281, [1280]); (1283, [1282]);
   (1285, [1284]); (1287, [1286]); (1289, [1288]); (1291, [1290]); (1293, [1292]);
   (1295, [1294]); (1297, [1296]); (1299, [1298]); (1301, [1300]); (1303, [1302]);
   (1305, [1304]); (1307, [1306]); (1309, [1308]); (1311, [1310]); (1313, [1312]);
   (1315, [1314]); (1317, [1316]); (1319, [1318]); (1321, [1320]); (1323, [1322]);
   (1325, [1324]); (1327, [1326]); (1377, [1329]); (1378, [1330]); (1379, [1331]);
   (1380, [1332]); (1381, [1333]); (1382, [1334]); (1383, [1335]); (1384, [1336]);
   (1385, [1337]); (1386, [1338]); (1387, [1339]); (1388, [1340]); (1389, [1341]);
   (1390, [1342]); (1391, [1343]); (1392, [1344]); (1393, [1345]); (1394, [1346]);
   (1395, [1347]); (1396, [1348]); (1397, [1349]); (1398, [1350]); (1399, [1351]);
   (1400, [1352]); (1401, [1353]); (1402, [1354]); (1403, [1355]); (1404, [1356]);
   (1405, [1357]); (1406, [1358]); (1407, [1359]); (1408, [1360]); (1409, [1361]);
   (1410, [1362]); (1411, [1363]); (1412, [1364]); (1413, [1365]); (1414, [1366]);
   (1415, [1333; 1362]); (4304, [7312]); (4305, [7313]); (4306, [7314]); (4307, [7315]);
   (4308, [7316]); (4309, [7317]); (4310, [7318]); (4311, [7319]); (4312, [7320]);
   (4313, [7321]); (4314, [7322]); (4315, [7323]); (4316, [7324]); (4317, [7325]);
   (4318, [7326]); (4319, [7327]); (4320, [7328]); (4321, [7329]); (4322, [7330]);
   (4323, [7331]); (4324, [7332]); (4325, [7333]); (4326, [7334]); (4327, [7335]);
   (4328, [7336]); (4329, [7337]); (4330, [7338]); (4331, [7339]); (4332, [7340]);
   (4333, [7341]); (4334, [7342]); (4335, [7343]); (4336, [7344]); (4337, [7345]);
   (4338, [7346]); (4339, [7347]); (4340, [7348]); (4341, [7349]); (4342, [7350]);
   (4343, [7351]); (4344, [7352]); (4345, [7353]); (4346, [7354]); (4349, [7357]);
   (4350, [7358]); (4351, [7359]); (5112, [5104]); (5113, [5105]); (5114, [5106]);
   (5115, [5107]); (5116, [5108]); (5117, [5109]); (7296, [1042]); (7297, [1044]);
   (7298, [1054]); (7299, [1057]); (7300, [1058]); (7301, [1058]); (7302, [1066]);
   (7303, [1122]); (7304, [42570]); (7545, [42877]); (7549, [11363]); (7566, [42950]);
   (7681, [7680]); (7683, [7682]); (7685, [7684]); (7687, [7686]); (7689, [7688]);
   (7691, [7690]); (7693, [7692]); (7695, [7694]); (7697, [7696]); (7699, [7698]);
   (7701, [7700]); (7703, [7702]); (7705, [7704]); (7707, [7706]); (7709, [7708]);
   (7711, [7710]); (7713, [7712]); (7715, [7714]); (7717, [7716]); (7719, [7718]);
   (7721, [7720]); (7723, [7722]); (7725, [7724]); (7727, [7726]); (7729, [7728]);
   (7731, [7730]); (7733, [7732]); (7735, [7734]); (7737, [7736]); (7739, [7738]);
   (7741, [7740]); (7743, [7742]); (7745, [7744]); (7747, [7746]); (7749, [7748]);
   (7751, [7750]); (7753, [7752]); (7755, [7754]); (7757, [7756]); (7759, [7758]);
   (7761, [7760]); (7763, [7762]); (7765, [7764]); (7767, [7766]); (7769, [7768]);
   (7771, [7770]); (7773, [7772]); (7775, [7774]); (7777, [7776]); (7779, [7778]);
   (7781, [7780]); (7783, [7782]); (7785, [7784]); (7787, [7786]); (7789, [7788]);
   (7791, [7790]); (7793, [7792]); (7795, [7794]); (7797, [7796]); (7799, [7798]);
   (7801, [7800]); (7803, [7802]); (7805, [7804]); (7807, [7806]); (7809, [7808]);
   (7811, [7810]); (7813, [7812]); (7815, [7814]); (7817, [7816]); (7819, [7818]);
   (7821, [7820]); (7823, [7822]); (7825, [7824]); (7827, [7826]); (7829, [7828]);
   (7830, [72; 817]); (7831, [84; 776]); (7832, [87; 778]); (7833, [89; 778]); (7834, [65; 702]);
   (7835, [7776]); (7841, [7840]); (7843, [7842]); (7845, [7844]); (7847, [7846]);
   (7849, [7848]); (7851, [7850]); (7853, [7852]); (7855, [7854]); (7857, [7856]);
   (7859, [7858]); (7861, [7860]); (7863, [7862]); (7865, [7864]); (7867, [7866]);
   (7869, [7868]); (7871, [7870]); (7873, [7872]); (7875, [7874]); (7877, [7876]);
   (7879, [7878]); (7881, [7880]); (7883, [7882]); (7885, [7884]); (7887, [7886]);
   (7889, [7888]); (7891, [7890]); (7893, [7892]); (7895, [7894]); (7897, [7896]);
   (7899, [7898]); (7901, [7900]); (7903, [7902]); (7905, [7904]); (7907, [7906]);
   (7909, [7908]); (7911, [7910]); (7913, [7912]); (7915, [7914]); (7917, [7916]);
   (7919, [7918]); (7921, [7920]); (7923, [7922]); (7925, [7924]); (7927, [7926]);
   (7929, [7928]); (7931, [7930]); (7933, [7932]); (7935, [7934]); (7936, [7944]);
   (7937, [7945]); (7938, [7946]); (7939, [7947]); (7940, [7948]); (7941, [7949]);
   (7942, [7950]); (7943, [7951]); (7952, [7960]); (7953, [7961]); (7954, [7962]);
   (7955, [7963]); (7956, [7964]); (7957, [7965]); (7968, [7976]); (7969, [7977]);
   (7970, [7978]); (7971, [7979]); (7972, [7980]); (7973, [7981]); (7974, [7982]);
   (7975, [7983]); (7984, [7992]); (7985, [7993]); (7986, [7994]); (7987, [7995]);
   (7988, [7996]); (7989, [7997]); (7990, [7998]); (7991, [7999]); (8000, [8008]);
   (8001, [8009]); (8002, [8010]); (8003, [8011]); (8004, [8012]); (8005, [8013]);
   (8016, [933; 787]); (8017, [8025]); (8018, [933; 787; 768]); (8019, [8027]); (8020, [933; 787; 769]);
   (8021, [8029]); (8022, [933; 787; 834]); (8023, [8031]); (8032, [8040]); (8033, [8041]);
   (8034, [8042]); (8035, [8043]); (8036, [8044]); (8037, [8045]); (8038, [8046]);
   (8039, [8047]); (8048, [8122]); (8049, [8123]); (8050, [8136]); (8051, [8137]);
   (8052, [8138]); (8053, [8139]); (8054, [8154]); (8055, [8155]); (8056, [8184]);
   (8057, [8185]); (8058, [8170]); (8059, [8171]); (8060, [8186]); (8061, [8187]);
   (8064, [7944; 921]); (8065, [7945; 921]); (8066, [7946; 921]); (8067, [7947; 921]); (8068, [7948; 921]);
   (8069, [7949; 921]); (8070, [7950; 921]); (8071, [7951; 921]); (8072, [7944; 921]); (8073, [7945; 921]);
   (8074, [7946; 921]); (8075, [7947; 921]); (8076, [7948; 921]); (8077, [7949; 921]); (8078, [7950; 921]);
   (8079, [7951; 921]); (8080, [7976; 921]); (8081, [7977; 921]); (8082, [7978; 921]); (8083, [7979; 921]);
   (8084, [7980; 921]); (8085, [7981; 921]); (8086, [7982; 921]); (8087, [7983; 921]); (8088, [7976; 921]);
   (8089, [7977; 921]); (8090, [7978; 921]); (8091, [7979; 921]); (8092, [7980; 921]); (8093, [7981; 921]);
   (8094, [7982; 921]); (8095, [7983; 921]); (8096, [8040; 921]); (8097, [8041; 921]); (8098, [8042; 921]);
   (8099, [8043; 921]); (8100, [8044; 921]); (8101, [8045; 921]); (8102, [8046; 921]); (8103, [8047; 921]);
   (8104, [8040; 921]); (8105, [8041; 921]); (8106, [8042; 921]); (8107, [8043; 921]); (8108, [8044; 921]);
   (8109, [8045; 921]); (8110, [8046; 921]); (8111, [8047; 921]); (8112, [8120]); (8113, [8121]);
   (8114, [8122; 921]); (8115, [913; 921]); (8116, [902; 921]); (8118, [913; 834]); (8119, [913; 834; 921]);
   (8124, [913; 921]); (8126, [921]); (8130, [8138; 921]); (8131, [919; 921]); (8132, [905; 921]);
   (8134, [919; 834]); (8135, [919; 834; 921]); (8140, [919; 921]); (8144, [8152]); (8145, [8153]);
   (8146, [921; 776; 768]); (8147, [921; 776; 769]); (8150, [921; 834]); (8151, [921; 776; 834]); (8160, [8168]);
   (8161, [8169]); (8162, [933; 776; 768]); (8163, [933; 776; 769]); (8164, [929; 787]); (8165, [8172]);
   (8166, [933; 834]); (8167, [933; 776; 834]); (8178, [8186; 921]); (8179, [937; 921]); (8180, [911; 921]);
   (8182, [937; 834]); (8183, [937; 834; 921]); (8188, [937; 921]); (8526, [8498]); (8560, [8544]);
   (8561, [8545]); (8562, [8546]); (8563, [8547]); (8564, [8548]); (8565, [8549]);
   (8566, [8550]); (8567, [8551]); (8568, [8552]); (8569, [8553]); (8570, [8554]);
   (8571, [8555]); (8572, [8556]); (8573, [8557]); (8574, [8558]); (8575, [8559]);
   (8580, [8579]); (9424, [9398]); (9425, [9399]); (9426, [9400]); (9427, [9401]);
   (9428, [9402]); (9429, [9403]); (9430, [9404]); (9431, [9405]); (9432, [9406]);
   (9433, [9407]); (9434, [9408]); (9435, [9409]); (9436, [9410]); (9437, [9411]);
   (9438, [9412]); (9439, [9413]); (9440, [9414]); (9441, [9415]); (9442, [9416]);
   (9443, [9417]); (9444, [9418]); (9445, [9419]); (9446, [9420]); (9447, [9421]);
   (9448, [9422]); (9449, [9423]); (11312, [11264]); (11313, [11265]); (11314, [11266]);
   (11315, [11267]); (11316, [11268]); (11317, [11269]); (11318, [11270]); (11319, [11271]);
   (11320, [11272]); (11321, [11273]); (11322, [11274]); (11323, [11275]); (11324, [11276]);
   (11325, [11277]); (11326, [11278]); (11327, [11279]); (11328, [11280]); (11329, [11281]);
   (11330, [11282]); (11331, [11283]); (11332, [11284]); (11333, [11285]); (11334, [11286]);
   (11335, [11287]); (11336, [11288]); (11337, [11289]); (11338, [11290]); (11339, [11291]);
   (11340, [11292]); (11341, [11293]); (11342, [11294]); (11343, [11295]); (11344, [11296]);
   (11345, [11297]); (11346, [11298]); (11347, [11299]); (11348, [11300]); (11349, [11301]);
   (11350, [11302]); (11351, [11303]); (11352, [11304]); (11353, [11305]); (11354, [11306]);
   (11355, [11307]); (11356, [11308]); (11357, [11309]); (11358, [11310]); (11359, [11311]);
   (11361, [11360]); (11365, [570]); (11366, [574]); (11368, [11367]); (11370, [11369]);
   (11372, [11371]); (11379, [11378]); (11382, [11381]); (11393, [11392]); (11395, [11394]);
   (11397, [11396]); (11399, [11398]); (11401, [11400]); (11403, [11402]); (11405, [11404]);
   (11407, [11406]); (11409, [11408]); (11411, [11410]); (11413, [11412]); (11415, [11414]);
   (11417, [11416]); (11419, [11418]); (11421, [11420]); (11423, [11422]); (11425, [11424]);
   (11427, [11426]); (11429, [11428]); (11431, [11430]); (11433, [11432]); (11435, [11434]);
   (11437, [11436]); (11439, [11438]); (11441, [11440]); (11443, [11442]); (11445, [11444]);
   (11447, [11446]); (11449, [11448]); (11451, [11450]); (11453, [11452]); (11455, [11454]);
   (11457, [11456]); (11459, [11458]); (11461, [11460]); (11463, [11462]); (11465, [11464]);
   (11467, [11466]); (11469, [11468]); (11471, [11470]); (11473, [11472]); (11475, [11474]);
   (11477, [11476]); (11479, [11478]); (11481, [11480]); (11483, [11482]); (11485, [11484]);
   (11487, [11486]); (11489, [11488]); (11491, [11490]); (11500, [11499]); (11502, [11501]);
   (11507, [11506]); (11520, [4256]); (11521, [4257]); (11522, [4258]); (11523, [4259]);
   (11524, [4260]); (11525, [4261]); (11526, [4262]); (11527, [4263]); (11528, [4264]);
   (11529, [4265]); (11530, [4266]); (11531, [4267]); (11532, [4268]); (11533, [4269]);
   (11534, [4270]); (11535, [4271]); (11536, [4272]); (11537, [4273]); (11538, [4274]);
   (11539, [4275]); (11540, [4276]); (11541, [4277]); (11542, [4278]); (11543, [4279]);
   (11544, [4280]); (11545, [4281]); (11546, [4282]); (11547, [4283]); (11548, [4284]);
   (11549, [4285]); (11550, [4286]); (11551, [4287]); (11552, [4288]); (11553, [4289]);
   (11554, [4290]); (11555, [4291]); (11556, [4292]); (11557, [4293]); (11559, [4295]);
   (11565, [4301]); (42561, [42560]); (42563, [42562]); (42565, [42564]); (42567, [42566]);
   (42569, [42568]); (42571, [42570]); (42573, [42572]); (42575, [42574]); (42577, [42576]);
   (42579, [42578]); (42581, [42580]); (42583, [42582]); (42585, [42584]); (42587, [42586]);
   (42589, [42588]); (42591, [42590]); (42593, [42592]); (42595, [42594]); (42597, [42596]);
   (42599, [42598]); (42601, [42600]); (42603, [42602]); (42605, [42604]); (42625, [42624]);
   (42627, [42626]); (42629, [42628]); (42631, [42630]); (42633, [42632]); (42635, [42634]);
   (42637, [42636]); (42639, [42638]); (42641, [42640]); (42643, [42642]); (42645, [42644]);
   (42647, [42646]); (42649, [42648]); (42651, [42650]); (42787, [42786]); (42789, [42788]);
   (42791, [42790]); (42793, [42792]); (42795, [42794]); (42797, [42796]); (42799, [42798]);
   (42803, [42802]); (42805, [42804]); (42807, [42806]); (42809, [42808]); (42811, [42810]);
   (42813, [42812]); (42815, [42814]); (42817, [42816]); (42819, [42818]); (42821, [42820]);
   (42823, [42822]); (42825, [42824]); (42827, [42826]); (42829, [42828]); (42831, [42830]);
   (42833, [42832]); (42835, [42834]); (42837, [42836]); (42839, [42838]); (42841, [42840]);
   (42843, [42842]); (42845, [42844]); (42847, [42846]); (42849, [42848]); (42851, [42850]);
   (42853, [42852]); (42855, [42854]); (42857, [42856]); (42859, [42858]); (42861, [42860]);
   (42863, [42862]); (42874, [42873]); (42876, [42875]); (42879, [42878]); (42881, [42880]);
   (42883, [42882]); (42885, [42884]); (42887, [42886]); (42892, [42891]); (42897, [42896]);
   (42899, [42898]); (42900, [42948]); (42903, [42902]); (42905, [42904]); (42907, [42906]);
   (42909, [42908]); (42911, [42910]); (42913, [42912]); (42915, [42914]); (42917, [42916]);
   (42919, [42918]); (42921, [42920]); (42933, [42932]); (42935, [42934]); (42937, [42936]);
   (42939, [42938]); (42941, [42940]); (42943, [42942]); (42945, [42944]); (42947, [42946]);
   (42952, [42951]); (42954, [42953]); (42961, [42960]); (42967, [42966]); (42969, [42968]);
   (42998, [42997]); (43859, [42931]); (43888, [5024]); (43889, [5025]); (43890, [5026]);
   (43891, [5027]); (43892, [5028]); (43893, [5029]); (43894, [5030]); (43895, [5031]);
   (43896, [5032]); (43897, [5033]); (43898, [5034]); (43899, [5035]); (43900, [5036]);
   (43901, [5037]); (43902, [5038]); (43903, [5039]); (43904, [5040]); (43905, [5041]);
   (43906, [5042]); (43907, [5043]); (43908, [5044]); (43909, [5045]); (43910, [5046]);
   (43911, [5047]); (43912, [5048]); (43913, [5049]); (43914, [5050]); (43915, [5051]);
   (43916, [5052]); (43917, [5053]); (43918, [5054]); (43919, [5055]); (43920, [5056]);
   (43921, [5057]); (43922, [5058]); (43923, [5059]); (43924, [5060]); (43925, [5061]);
   (43926, [5062]); (43927, [5063]); (43928, [5064]); (43929, [5065]); (43930, [5066]);
   (43931, [5067]); (43932, [5068]); (43933, [5069]); (43934, [5070]); (43935, [5071]);
   (43936, [5072]); (43937, [5073]); (43938, [5074]); (43939, [5075]); (43940, [5076]);
   (43941, [5077]); (43942, [5078]); (43943, [5079]); (43944, [5080]); (43945, [5081]);
   (43946, [5082]); (43947, [5083]); (43948, [5084]); (43949, [5085]); (43950, [5086]);
   (43951, [5087]); (43952, [5088]); (43953, [5089]); (43954, [5090]); (43955, [5091]);
   (43956, [5092]); (43957, [5093]); (43958, [5094]); (43959, [5095]); (43960, [5096]);
   (43961, [5097]); (43962, [5098]); (43963, [5099]); (43964, [5100]); (43965, [5101]);
   (43966, [5102]); (43967, [5103]); (64256, [70; 70]); (64257, [70; 73]); (64258, [70; 76]);
   (64259, [70; 70; 73]); (64260, [70; 70; 76]); (64261, [83; 84]); (64262, [83; 84]); (64275, [1348; 1350]);
   (64276, [1348; 1333]); (64277, [1348; 1339]); (64278, [1358; 1350]); (64279, [1348; 1341]); (65345, [65313]);
   (65346, [65314]); (65347, [65315]); (65348, [65316]); (65349, [65317]); (65350, [65318]);
   (65351, [65319]); (65352, [65320]); (65353, [65321]); (65354, [65322]); (65355, [65323]);
   (65356, [65324]); (65357, [65325]); (65358, [65326]); (65359, [65327]); (65360, [65328]);
   (65361, [65329]); (65362, [65330]); (65363, [65331]); (65364, [65332]); (65365, [65333]);
   (65366, [65334]); (65367, [65335]); (65368, [65336]); (65369, [65337]); (65370, [65338]);
   (66600, [66560]); (66601, [66561]); (66602, [66562]); (66603, [66563]); (66604, [66564]);
   (66605, [66565]); (66606, [66566]); (66607, [66567]); (66608, [66568]); (66609, [66569]);
   (66610, [66570]); (66611, [66571]); (66612, [66572]); (66613, [66573]); (66614, [66574]);
   (66615, [66575]); (66616, [66576]); (66617, [66577]); (66618, [66578]); (66619, [66579]);
   (66620, [66580]); (66621, [66581]); (66622, [66582]); (66623, [66583]); (66624, [66584]);
   (66625, [66585]); (66626, [66586]); (66627, [66587]); (66628, [66588]); (66629, [66589]);
   (66630, [66590]); (66631, [66591]); (66632, [66592]); (66633, [66593]); (66634, [66594]);
   (66635, [66595]); (66636, [66596]); (66637, [66597]); (66638, [66598]); (66639, [66599]);
   (66776, [66736]); (66777, [66737]); (66778, [66738]); (66779, [66739]); (66780, [66740]);
   (66781, [66741]); (66782, [66742]); (66783, [66743]); (66784, [66744]); (66785, [66745]);
   (66786, [66746]); (66787, [66747]); (66788, [66748]); (66789, [66749]); (66790, [66750]);
   (66791, [66751]); (66792, [66752]); (66793, [66753]); (66794, [66754]); (66795, [66755]);
   (66796, [66756]); (66797, [66757]); (66798, [66758]); (66799, [66759]); (66800, [66760]);
   (66801, [66761]); (66802, [66762]); (66803, [66763]); (66804, [66764]); (66805, [66765]);
   (66806, [66766]); (66807, [66767]); (66808, [66768]); (66809, [66769]); (66810, [66770]);
   (66811, [66771]); (66967, [66928]); (66968, [66929]); (66969, [66930]); (66970, [66931]);
   (66971, [66932]); (66972, [66933]); (66973, [66934]); (66974, [66935]); (66975, [66936]);
   (66976, [66937]); (66977, [66938]); (66979, [66940]); (66980, [66941]); (66981, [66942]);
   (66982, [66943]); (66983, [66944]); (66984, [66945]); (66985, [66946]); (66986, [66947]);
   (66987, [66948]); (66988, [66949]); (66989, [66950]); (66990, [66951]); (66991, [66952]);
   (66992, [66953]); (66993, [66954]); (66995, [66956]); (66996, [66957]); (66997, [66958]);
   (66998, [66959]); (66999, [66960]); (67000, [66961]); (67001, [66962]); (67003, [66964]);
   (67004, [66965]); (68800, [68736]); (68801, [68737]); (68802, [68738]); (68803, [68739]);
   (68804, [68740]); (68805, [68741]); (68806, [68742]); (68807, [68743]); (68808, [68744]);
   (68809, [68745]); (68810, [68746]); (68811, [68747]); (68812, [68748]); (68813, [68749]);
   (68814, [68750]); (68815, [68751]); (68816, [68752]); (68817, [68753]); (68818, [68754]);
   (68819, [68755]); (68820, [68756]); (68821, [68757]); (68822, [68758]); (68823, [68759]);
   (68824, [68760]); (68825, [68761]); (68826, [68762]); (68827, [68763]); (68828, [68764]);
   (68829, [68765]); (68830, [68766]); (68831, [68767]); (68832, [68768]); (68833, [68769]);
   (68834, [68770]); (68835, [68771]); (68836, [68772]); (68837, [68773]); (68838, [68774]);
   (68839, [68775]); (68840, [68776]); (68841, [68777]); (68842, [68778]); (68843, [68779]);
   (68844, [68780]); (68845, [68781]); (68846, [68782]); (68847, [68783]); (68848, [68784]);
   (68849, [68785]); (68850, [68786]); (71872, [71840]); (71873, [71841]); (71874, [71842]);
   (71875, [71843]); (71876, [71844]); (71877, [71845]); (71878, [71846]); (71879, [71847]);
   (71880, [71848]); (71881, [71849]); (71882, [71850]); (71883, [71851]); (71884, [71852]);
   (71885, [71853]); (71886, [71854]); (71887, [71855]); (71888, [71856]); (71889, [71857]);
   (71890, [71858]); (71891, [71859]); (71892, [71860]); (71893, [71861]); (71894, [71862]);
   (71895, [71863]); (71896, [71864]); (71897, [71865]); (71898, [71866]); (71899, [71867]);
   (71900, [71868]); (71901, [71869]); (71902, [71870]); (71903, [71871]); (93792, [93760]);
   (93793, [93761]); (93794, [93762]); (93795, [93763]); (93796, [93764]); (93797, [93765]);
   (93798, [93766]); (93799, [93767]); (93800, [93768]); (93801, [93769]); (93802, [93770]);
   (93803, [93771]); (93804, [93772]); (93805, [93773]); (93806, [93774]); (93807, [93775]);
   (93808, [93776]); (93809, [93777]); (93810, [93778]); (93811, [93779]); (93812, [93780]);
   (93813, [93781]); (93814, [93782]); (93815, [93783]); (93816, [93784]); (93817, [93785]);
   (93818, [93786]); (93819, [93787]); (93820, [93788]); (93821, [93789]); (93822, [93790]);
   (93823, [93791]); (125218, [125184]); (125219, [125185]); (125220, [125186]); (125221, [125187]);
   (125222, [125188]); (125223, [125189]); (125224, [125190]); (125225, [125191]); (125226, [125192]);
   (125227, [125193]); (125228, [125194]); (125229, [125195]); (125230, [125196]); (125231, [125197]);
   (125232, [125198]); (125233, [125199]); (125234, [125200]); (125235, [125201]); (125236, [125202]);
   (125237, [125203]); (125238, [125204]); (125239, [125205]); (125240, [125206]); (125241, [125207]);
   (125242, [125208]); (125243, [125209]); (125244, [125210]); (125245, [125211]); (125246, [125212]);
   (125247, [125213]); (125248, [125214]); (125249, [125215]); (125250, [125216]); (125251, [125217])
  ]%N.

Definition upper_cp (c : codepoint) : pystr :=
  match find (fun e => N.eqb (fst e) c) upper_table with
  | Some e => snd e
  | None => [c]
  end.

(** [s.upper()] *)
Definition str_upper (s : pystr) : pystr := flat_map upper_cp s.

(** ** Python operators on the values of a parsed document *)

(** [k in data] for a string [k]: key membership in a [dict], element
    membership in a [list], substring search in a [str]; the other JSON
    types are not containers. *)
Definition py_in (k : pystr) (data : pyval) : result bool :=
  match data with
  | PDict d => Ok (dict_mem d k)
  | PList l =>
      Ok (existsb (fun x => match x with PStr s => str_eqb s k | _ => false end) l)
  | PStr s => Ok (str_contains s k)
  | _ => Raise TypeError
  end.

(** [data[k]] for a string [k]: only a [dict] can be indexed by a string. *)
Definition py_getitem (data : pyval) (k : pystr) : result pyval :=
  match data with
  | PDict d =>
      match dict_lookup d k with
      | Some v => Ok v
      | None => Raise KeyError
      end
  | _ => Raise TypeError
  end.

(** [data[k] = v] for a string [k]. *)
Definition py_setitem (data : pyval) (k : pystr) (v : pyval) : result pyval :=
  match data with
  | PDict d => Ok (PDict (dict_set d k v))
  | _ => Raise TypeError
  end.

(** [data.get(k, default)]: a method of [dict] only. *)
Definition py_get (data : pyval) (k : pystr) (default : pyval) : result pyval :=
  match data with
  | PDict d =>
      match dict_lookup d k with
      | Some v => Ok v
      | None => Ok default
      end
  | _ => Raise AttributeError
  end.

(** [list(data.items())] and [data.values()]: methods of [dict] only. *)
Definition py_items (data : pyval) : result (list (pystr * pyval)) :=
  match data with
  | PDict d => Ok d
  | _ => Raise AttributeError
  end.

Definition py_values (data : pyval) : result (list pyval) :=
  match data with
  | PDict d => Ok (map snd d)
  | _ => Raise AttributeError
  end.

(** [v > n] and [v < n] against an integer literal: defined for numbers
    ([bool] counts as [int]), a [TypeError] for everything else; any
    comparison with NaN is false. *)
Definition py_gt_int (v : pyval) (n : Z) : result bool :=
  match v with
  | PBool b => Ok (n <? (if b then 1 else 0))
  | PInt z => Ok (n <? z)
  | PFloat f =>
      Ok (match float_compare_Z f n with Some Gt => true | _ => false end)
  | _ => Raise TypeError
  end.

Definition py_lt_int (v : pyval) (n : Z) : result bool :=
  match v with
  | PBool b => Ok ((if b then 1 else 0) <? n)
  | PInt z => Ok (z <? n)
  | PFloat f =>
      Ok (match float_compare_Z f n with Some Lt => true | _ => false end)
  | _ => Raise TypeError
  end.

(** [v.upper()]: a method of [str]. *)
Definition py_upper (v : pyval) : result pyval :=
  match v with
  | PStr s => Ok (PStr (str_upper s))
  | _ => Raise AttributeError
  end.

(** ** The clock read by [datetime.utcnow()] *)

Record datetime : Type := {
  year : Z; month : Z; day : Z;
  hour : Z; minute : Z; second : Z; microsecond : Z
}.

(** [n] in decimal, zero-padded to [width] digits. *)
Definition pad (width : nat) (n : Z) : pystr :=
  let ds := digits_of_nat n in
  repeat 48%N (width - List.length ds) ++ ds.

(** [dt.isoformat()]: [YYYY-MM-DDTHH:MM:SS], followed by [.ffffff] when the
    microsecond is not zero. *)
Definition isoformat (dt : datetime) : pystr :=
  pad 4 (year dt) ++ cp "-" :: pad 2 (month dt) ++ cp "-" :: pad 2 (day dt)
  ++ cp "T" :: pad 2 (hour dt) ++ cp ":" :: pad 2 (minute dt)
  ++ cp ":" :: pad 2 (second dt)
  ++ (if microsecond dt =? 0 then [] else cp "." :: pad 6 (microsecond dt)).

(** ** scripts/transform/add_timestamp.py *)

Module add_timestamp.

(** [transform_value(key, value)].  [now] is what [datetime.utcnow()]
    returns when the call reads the clock. *)
Definition transform_value (now : datetime) (key value : pystr) : result pystr :=
  try_except
    (data <- json_loads value ;;
     data <- py_setitem data (str "processed_at")
               (PStr (isoformat now ++ str "Z")) ;;
     data <- py_setitem data (str "transform_version") (PStr (str "1.0")) ;;
     Ok (json_dumps data))
    (Ok value).

End add_timestamp.

(** ** scripts/transform/filter_by_age.py *)

Module filter_by_age.

(** [should_process(key, value)]; the result is the value of the [and]
    expression. *)
Definition should_process (key value : pystr) : result pyval :=
  try_except
    (data <- json_loads value ;;
     has_age <- py_in (str "age") data ;;
     if has_age then
       age <- py_getitem data (str "age") ;;
       older <- py_gt_int age 30 ;;
       Ok (PBool older)
     else Ok (PBool false))
    (Ok (PBool false)).

Definition transform_value (key value : pystr) : result pystr :=
  try_except
    (data <- json_loads value ;;
     age <- py_get data (str "age") (PInt 0) ;;
     lt25 <- py_lt_int age 25 ;;
     data <- (if lt25 then py_setitem data (str "age_group") (PStr (str "young"))
              else
                lt35 <- py_lt_int age 35 ;;
                if lt35 then py_setitem data (str "age_group") (PStr (str "middle"))
                else py_setitem data (str "age_group") (PStr (str "senior"))) ;;
     Ok (json_dumps data))
    (Ok value).

End filter_by_age.

(** ** scripts/transform/flatten_nested_json.py *)

Module flatten_nested_json.

(** The test on a string field: it looks like a JSON object or array. *)
Definition looks_like_json (s : pystr) : bool :=
  (startswith s (str "{") && endswith s (str "}"))
  || (startswith s (str "[") && endswith s (str "]")).

(** The [for] loop over the snapshot [list(data.items())], updating
    [data]. *)
Fixpoint flatten_fields (items : list (pystr * pyval)) (data : pyval)
    : result pyval :=
  match items with
  | [] => Ok data
  | (field, field_value) :: rest =>
      data <- match field_value with
              | PStr s =>
                  if looks_like_json s then
                    try_except
                      (parsed <- json_loads s ;; py_setitem data field parsed)
                      (Ok data)
                  else Ok data
              | _ => Ok data
              end ;;
      flatten_fields rest data
  end.

Definition transform_value (key value : pystr) : result pystr :=
  try_except
    (data <- json_loads value ;;
     items <- py_items data ;;
     data <- flatten_fields items data ;;
     Ok (json_dumps data))
    (Ok value).

(** The [for] loop of [should_process], returning at the first hit. *)
Fixpoint any_nested (vals : list pyval) : bool :=
  match vals with
  | [] => false
  | PStr s :: rest =>
      if startswith s (str "{") || startswith s (str "[") then true
      else any_nested rest
  | _ :: rest => any_nested rest
  end.

Definition should_process (key value : pystr) : result pyval :=
  try_except
    (data <- json_loads value ;;
     vals <- py_values data ;;
     Ok (PBool (any_nested vals)))
    (Ok (PBool false)).

End flatten_nested_json.

(** ** scripts/transform/transform_uppercase_name.py *)

Module transform_uppercase_name.

Definition transform_value (key value : pystr) : result pystr :=
  try_except
    (data <- json_loads value ;;
     has_name <- py_in (str "name") data ;;
     data <- (if has_name then
                name <- py_getitem data (str "name") ;;
                upper <- py_upper name ;;
                py_setitem data (str "name") upper
              else Ok data) ;;
     Ok (json_dumps data))
    (Ok value).

Definition should_process (key value : pystr) : result pyval :=
  try_except
    (data <- json_loads value ;;
     has_name <- py_in (str "name") data ;;
     Ok (PBool has_name))
    (Ok (PBool false)).

End transform_uppercase_name.

(** ** The transform pipeline engine *)

(** Modelled from the spec: [bool(v)], as the callback host of section 6
    reads the result of a predicate. *)
Definition py_truthy (v : pyval) : bool :=
  match v with
  | PNone => false
  | PBool b => b
  | PInt z => negb (z =? 0)
  | PFloat (S754_zero _) => false
  | PFloat _ => true
  | PStr s => negb (Nat.eqb (List.length s) 0)
  | PList l => negb (Nat.eqb (List.length l) 0)
  | PDict d => negb (Nat.eqb (List.length d) 0)
  end.

Module pipeline.

(** Modelled from the spec: the data model of section 3.  The engine's
    code is not part of the sources; records carry text, as exchanged
    with the callback host. *)
Inductive Decision : Type := Skipped | Transformed | Failed | Unchanged.

(** Modelled from the spec: a Record of section 3, a key and its value. *)
Definition Record : Type := (pystr * pystr)%type.

(** Modelled from the spec: the store of section 6, its records in key
    order. *)
Definition Store : Type := list Record.

(** Modelled from the spec: the JobReport of sections 3 and 6, with the
    [unchanged] count that section 8 relates to the other counters, and
    the completion mark of section 4.4. *)
Record JobReport : Type := {
  scanned : nat; skipped : nat; transformed : nat; failed : nat;
  unchanged : nat; written : nat;
  failures : list (pystr * exn);
  complete : bool
}.

(** Modelled from the spec: the callback host capability of section 6, an
    optional predicate and a transform. *)
Record Callbacks : Type := {
  predicate : option (pystr -> pystr -> result bool);
  transform : pystr -> pystr -> result pystr
}.

(** Modelled from the spec: the job configuration of section 6.  The
    column family and key range are represented by [inRange], the test a
    key passes to belong to the scan. *)
Record Config : Type := {
  inRange : pystr -> bool;
  dryRun : bool;
  batchSize : nat;
  maxErrorsRecorded : option nat
}.

(** Modelled from the spec: the store capability's [commitBatch] of
    section 6, which applies a batch atomically or fails. *)
Definition CommitBatch : Type := Store -> list Record -> option Store.

(** Modelled from the spec: the state a job owns (section 9), its report,
    the per-key decisions in visiting order, the BatchCommitter's buffer,
    the DryRunReporter's entries and the store. *)
Record State : Type := {
  report : JobReport;
  decisions : list (pystr * Decision);
  buffer : list Record;
  preview : list (pystr * pystr * pystr);
  store : Store
}.

(** Modelled from the spec: how a job ends (sections 4.4 and 7), by
    exhausting the scan, by cancellation or by a fatal commit error. *)
Inductive Status : Type := Done | Cancelled | Aborted.

(** Modelled from the spec: RangeScanner of section 4.1, the records of
    the range in the order of the snapshot taken at open. *)
Definition openScan (cfg : Config) (s : Store) : list Record :=
  filter (fun r => inRange cfg (fst r)) s.

(** Modelled from the spec: rules 1 and 2 of section 4.4.  The decision
    for one record, with the new value when there is one and the error
    when the decision is [Failed]. *)
Definition decide (cb : Callbacks) (key value : pystr)
    : Decision * option pystr * option exn :=
  let accepted :=
    match predicate cb with
    | None => Ok true
    | Some p => p key value
    end in
  match accepted with
  | Raise e => (Failed, None, Some e)
  | Ok false => (Skipped, None, None)
  | Ok true =>
      match transform cb key value with
      | Raise e => (Failed, None, Some e)
      | Ok new =>
          if str_eqb new value then (Unchanged, None, None)
          else (Transformed, Some new, None)
      end
  end.

(** Modelled from the spec: ErrorCollector of section 4.7; beyond the cap
    the list is truncated. *)
Definition record_failure (cfg : Config) (fs : list (pystr * exn))
    (key : pystr) (e : exn) : list (pystr * exn) :=
  match maxErrorsRecorded cfg with
  | Some cap => if Nat.ltb (List.length fs) cap then fs ++ [(key, e)] else fs
  | None => fs ++ [(key, e)]
  end.

(** Modelled from the spec: the counters of section 3, after one more
    record received decision [d]. *)
Definition count (cfg : Config) (r : JobReport) (key : pystr) (d : Decision)
    (err : option exn) : JobReport :=
  {| scanned := S (scanned r);
     skipped := match d with Skipped => S (skipped r) | _ => skipped r end;
     transformed := match d with Transformed => S (transformed r) | _ => transformed r end;
     failed := match d with Failed => S (failed r) | _ => failed r end;
     unchanged := match d with Unchanged => S (unchanged r) | _ => unchanged r end;
     written := written r;
     failures := match d, err with
                 | Failed, Some e => record_failure cfg (failures r) key e
                 | _, _ => failures r
                 end;
     complete := complete r |}.

(** Modelled from the spec: one write to the store; keys are unique. *)
Definition put (s : Store) (kv : Record) : Store :=
  if existsb (fun r => str_eqb (fst r) (fst kv)) s
  then map (fun r => if str_eqb (fst r) (fst kv) then kv else r) s
  else s ++ [kv].

(** Modelled from the spec: a [commitBatch] that never fails; every write
    of the batch is applied. *)
Definition applyBatch : CommitBatch :=
  fun s batch => Some (fold_left put batch s).

(** Modelled from the spec: the [written] counter after a committed batch
    of [n] writes. *)
Definition add_written (n : nat) (r : JobReport) : JobReport :=
  {| scanned := scanned r; skipped := skipped r; transformed := transformed r;
     failed := failed r; unchanged := unchanged r; written := written r + n;
     failures := failures r; complete := complete r |}.

(** Modelled from the spec: the report finalized at Done. *)
Definition mark_complete (r : JobReport) : JobReport :=
  {| scanned := scanned r; skipped := skipped r; transformed := transformed r;
     failed := failed r; unchanged := unchanged r; written := written r;
     failures := failures r; complete := true |}.

(** Modelled from the spec: BatchCommitter's flush of section 4.5.  The
    buffer is committed as one batch; [None] is a BatchCommitError. *)
Definition flush (commit : CommitBatch) (st : State) : option State :=
  match buffer st with
  | [] => Some st
  | b =>
      match commit (store st) b with
      | Some s' =>
          Some {| report := add_written (List.length b) (report st);
                  decisions := decisions st; buffer := [];
                  preview := preview st; store := s' |}
      | None => None
      end
  end.

(** Modelled from the spec: one record through Filtering, Transforming
    and Staging (section 4.4).  The boolean tells whether the job goes
    on; it is false after a failed commit. *)
Definition step (cfg : Config) (cb : Callbacks) (commit : CommitBatch)
    (st : State) (rec : Record) : State * bool :=
  let '(key, value) := rec in
  let '(d, new, err) := decide cb key value in
  let rep := count cfg (report st) key d err in
  let dec := decisions st ++ [(key, d)] in
  match new with
  | None =>
      ({| report := rep; decisions := dec; buffer := buffer st;
          preview := preview st; store := store st |}, true)
  | Some nv =>
      if dryRun cfg then
        ({| report := rep; decisions := dec; buffer := buffer st;
            preview := preview st ++ [(key, value, nv)]; store := store st |}, true)
      else
        let st' := {| report := rep; decisions := dec;
                      buffer := buffer st ++ [(key, nv)];
                      preview := preview st; store := store st |} in
        if Nat.leb (batchSize cfg) (List.length (buffer st')) then
          match flush commit st' with
          | Some st'' => (st'', true)
          | None => (st', false)
          end
        else (st', true)
  end.

(** Modelled from the spec: Draining (section 4.4), the last flush and
    the finalized report. *)
Definition drain (commit : CommitBatch) (st : State) : State * Status :=
  match flush commit st with
  | Some st' =>
      ({| report := mark_complete (report st'); decisions := decisions st';
          buffer := buffer st'; preview := preview st'; store := store st' |}, Done)
  | None => (st, Aborted)
  end.

(** Modelled from the spec: the Scanning loop of section 4.4.
    [cancel n] tells whether cancellation was requested when the record
    of index [n] is about to be visited. *)
Fixpoint run_records (cfg : Config) (cb : Callbacks) (commit : CommitBatch)
    (cancel : nat -> bool) (n : nat) (recs : list Record) (st : State)
    : State * Status :=
  match recs with
  | [] => drain commit st
  | rec :: rest =>
      if cancel n then
        match flush commit st with
        | Some st' => (st', Cancelled)
        | None => (st, Aborted)
        end
      else
        match step cfg cb commit st rec with
        | (st', true) => run_records cfg cb commit cancel (S n) rest st'
        | (st', false) => (st', Aborted)
        end
  end.

(** Modelled from the spec: the report a job starts from. *)
Definition empty_report : JobReport :=
  {| scanned := 0; skipped := 0; transformed := 0; failed := 0;
     unchanged := 0; written := 0; failures := []; complete := false |}.

(** Modelled from the spec: a job, from Idle to its final state. *)
Definition run (cfg : Config) (cb : Callbacks) (commit : CommitBatch)
    (cancel : nat -> bool) (s : Store) : State * Status :=
  run_records cfg cb commit cancel 0 (openScan cfg s)
    {| report := empty_report; decisions := []; buffer := [];
       preview := []; store := s |}.

(** Modelled from the spec: the callback host's view of a script's
    predicate, whose result it reads as a boolean. *)
Definition host_predicate (f : pystr -> pystr -> result pyval)
    : pystr -> pystr -> result bool :=
  fun key value => v <- f key value ;; Ok (py_truthy v).

End pipeline.

(** ** Properties stated by the specification, in its own words *)

(** [v] is a number strictly greater than [n] ([bool] is not a JSON
    number). *)
Definition number_gt (v : pyval) (n : Z) : Prop :=
  match v with
  | PInt z => n < z
  | PFloat f => float_compare_Z f n = Some Gt
  | _ => False
  end.

(** [v] is a number strictly less than [n]. *)
Definition number_lt (v : pyval) (n : Z) : Prop :=
  match v with
  | PInt z => z < n
  | PFloat f => float_compare_Z f n = Some Lt
  | _ => False
  end.

(** [v] is a JSON object with a field [k] holding [x]. *)
Definition has_field (v : pyval) (k : pystr) (x : pyval) : Prop :=
  exists d, v = PDict d /\ dict_lookup d k = Some x.

(** The transform callbacks of the four scripts, each as a function of the
    clock reading and its two arguments. *)
Definition transform_callbacks
    : list (datetime -> pystr -> pystr -> result pystr) :=
  [ add_timestamp.transform_value;
    (fun _ => filter_by_age.transform_value);
    (fun _ => flatten_nested_json.transform_value);
    (fun _ => transform_uppercase_name.transform_value) ].

(** A transform that is a function of [key] and [value] alone. *)
Definition deterministic (f : datetime -> pystr -> pystr -> result pystr) : Prop :=
  forall now1 now2 key value, f now1 key value = f now2 key value.

(** The number of records of a decision log that received decision [d]. *)
Definition decision_eqb (a b : pipeline.Decision) : bool :=
  match a, b with
  | pipeline.Skipped, pipeline.Skipped
  | pipeline.Transformed, pipeline.Transformed
  | pipeline.Failed, pipeline.Failed
  | pipeline.Unchanged, pipeline.Unchanged => true
  | _, _ => false
  end.

Definition count_decisions (d : pipeline.Decision)
    (log : list (pystr * pipeline.Decision)) : nat :=
  List.length (filter (fun x => decision_eqb (snd x) d) log).

(** The same job configuration in dry-run or in real mode. *)
Definition with_mode (cfg : pipeline.Config) (dry : bool) : pipeline.Config :=
  {| pipeline.inRange := pipeline.inRange cfg;
     pipeline.dryRun := dry;
     pipeline.batchSize := pipeline.batchSize cfg;
     pipeline.maxErrorsRecorded := pipeline.maxErrorsRecorded cfg |}.

(** The callbacks of filter_by_age.py, as handed to the engine. *)
Definition filter_by_age_callbacks : pipeline.Callbacks :=
  {| pipeline.predicate :=
       Some (pipeline.host_predicate filter_by_age.should_process);
     pipeline.transform := filter_by_age.transform_value |}.

(** The counters of a job's report agree with its decision log. *)
Definition counted (st : pipeline.State) : Prop :=
  let r := pipeline.report st in
  pipeline.scanned r = List.length (pipeline.decisions st)
  /\ pipeline.skipped r = count_decisions pipeline.Skipped (pipeline.decisions st)
  /\ pipeline.transformed r = count_decisions pipeline.Transformed (pipeline.decisions st)
  /\ pipeline.failed r = count_decisions pipeline.Failed (pipeline.decisions st)
  /\ pipeline.unchanged r = count_decisions pipeline.Unchanged (pipeline.decisions st).

(** The callbacks of transform_uppercase_name.py, as handed to the
    engine. *)
Definition uppercase_name_callbacks : pipeline.Callbacks :=
  {| pipeline.predicate :=
       Some (pipeline.host_predicate transform_uppercase_name.should_process);
     pipeline.transform := transform_uppercase_name.transform_value |}.

(** A job over every key, committing after each staged write. *)
Definition every_key_config : pipeline.Config :=
  {| pipeline.inRange := fun _ => true;
     pipeline.dryRun := false;
     pipeline.batchSize := 1;
     pipeline.maxErrorsRecorded := None |}.

(** A store that refuses every batch, as one opened read-only does. *)
Definition refuse_batches : pipeline.CommitBatch := fun _ _ => None.

Definition never_cancelled : nat -> bool := fun _ => false.

Definition two_users : pipeline.Store :=
  [ (str "u1", js "{'name': 'ann'}"); (str "u2", js "{'name': 'bob'}") ].

(** The uppercase-name transform touches only the ['name'] field of the
    object [value] parses to. *)
Definition touches_only_name (key value : pystr) : Prop :=
  forall d, json_loads value = Ok (PDict d) ->
    exists d',
      transform_uppercase_name.transform_value key value
      = Ok (json_dumps (PDict d'))
      /\ dict_keys d' = dict_keys d
      /\ (forall k, k <> str "name" -> dict_lookup d' k = dict_lookup d k)
      /\ (forall x, dict_lookup d (str "name") = Some x ->
            exists s, x = PStr s
                      /\ dict_lookup d' (str "name") = Some (PStr (str_upper s))).

(** Two readings of the clock, a second apart. *)
Definition noon : datetime :=
  {| year := 2024; month := 5; day := 17; hour := 12; minute := 0;
     second := 0; microsecond := 0 |}.

Definition noon_and_a_second : datetime :=
  {| year := 2024; month := 5; day := 17; hour := 12; minute := 0;
     second := 1; microsecond := 0 |}.

(** Applying the uppercase-name transform to its own output changes
    nothing more. *)
Definition idempotent_on (key value : pystr) : Prop :=
  forall r,
    transform_uppercase_name.transform_value key value = Ok r ->
    transform_uppercase_name.transform_value key r = Ok r.

(** *** Well-formed text and documents *)

Definition is_surrogate (c : codepoint) : bool := (N.leb 55296 c && N.leb c 57343)%N.

Definition valid_cp (c : codepoint) : bool := (c <? 1114112)%N.

(** Text made of Unicode scalar values: code points in range, none of
    them a surrogate.  Every string decoded from UTF-8 is such a text. *)
Definition scalar_text (s : pystr) : bool :=
  forallb (fun c => valid_cp c && negb (is_surrogate c)) s.

(** No high surrogate is directly followed by a low surrogate. *)
Fixpoint no_pair (s : pystr) : bool :=
  match s with
  | a :: (b :: _) as t => negb (is_high_surrogate a && is_low_surrogate b) && no_pair t
  | _ => true
  end.

Definition str_ok (s : pystr) : bool := forallb valid_cp s && no_pair s.

Fixpoint unique_keys (ks : list pystr) : bool :=
  match ks with
  | [] => true
  | k :: rest => negb (existsb (str_eqb k) rest) && unique_keys rest
  end.

(** The strings of a document are [str_ok] and no object repeats a key. *)
Fixpoint shape_ok (v : pyval) : bool :=
  match v with
  | PStr s => str_ok s
  | PList l => forallb shape_ok l
  | PDict d =>
      unique_keys (map fst d)
      && forallb (fun kv => str_ok (fst kv) && shape_ok (snd kv)) d
  | _ => true
  end.

(** [float(repr(f)) == f], the guarantee CPython documents for [repr]. *)
Definition float_round_trips (f : spec_float) : bool :=
  match f with
  | S754_nan | S754_infinity _ => true
  | _ =>
      match match_number (float_repr f) with
      | Some (PFloat g, []) => spec_float_eqb g f
      | _ => false
      end
  end.

(** Every float of a document survives [repr]. *)
Fixpoint floats_ok (v : pyval) : bool :=
  match v with
  | PFloat f => float_round_trips f
  | PList l => forallb floats_ok l
  | PDict d => forallb (fun kv => floats_ok (snd kv)) d
  | _ => true
  end.

(** What may follow a value in the text [json.dumps] writes. *)
Definition delimited (rest : pystr) : Prop :=
  match rest with
  | [] => True
  | c :: _ => is_char c "," = true \/ is_char c "]" = true \/ is_char c "}" = true
  end.

(** A character that can continue a number literal. *)
Definition number_char (c : codepoint) : bool :=
  is_digit c || is_char c "." || is_char c "e" || is_char c "E"
  || is_char c "+" || is_char c "-".

Definition no_number_ahead (rest : pystr) : Prop :=
  match rest with
  | [] => True
  | c :: _ => number_char c = false
  end.

(** The text does not begin with the escape of a low surrogate. *)
Definition low_escape_free (t : pystr) : bool :=
  match t with
  | b :: u :: l1 :: l2 :: l3 :: l4 :: _ =>
      if is_char b "\" && is_char u "u" then
        match hex4 l1 l2 l3 l4 with
        | Some u2 => negb (is_low_surrogate u2)
        | None => false
        end
      else true
  | _ => true
  end.

(** A value whose ['name'] holds the lone high surrogate U+D801 followed
    by the escape of the low surrogate U+DCD8. *)
Definition split_pair_value : pystr :=
  js "{'name': '" ++ [55297%N] ++ js "\udcd8'}".

(** *** Notions used by the round-trip argument *)

(** The first character of a value's text. *)
Definition value_start (c : codepoint) : Prop :=
  is_ws c = false /\ N.eqb 65279 c = false
  /\ is_char c "]" = false /\ is_char c "}" = false.

(** [scan_once] reads the text of [v] back, whatever follows it. *)
Definition reads_back (v : pyval) : Prop :=
  forall (fuel : nat) (rest : pystr),
    (List.length (json_dumps v) <= fuel)%nat -> delimited rest ->
    scan_once fuel (json_dumps v ++ rest) = Ok (v, rest).

(** What the table says of each of its entries: the mapped text is
    non-empty, made of valid code points, free of surrogates and already
    in upper case; no entry is for a surrogate. *)
Definition upper_entry_ok (e : codepoint * pystr) : bool :=
  negb (is_surrogate (fst e))
  && negb (Nat.eqb (List.length (snd e)) 0)
  && forallb (fun c => valid_cp c && negb (is_surrogate c)) (snd e)
  && str_eqb (flat_map upper_cp (snd e)) (snd e).

(** What [transform_value] of transform_uppercase_name.py does between
    [json.loads] and [json.dumps]. *)
Definition upper_name (data : pyval) : result pyval :=
  has_name <- py_in (str "name") data ;;
  if has_name then
    name <- py_getitem data (str "name") ;;
    upper <- py_upper name ;;
    py_setitem data (str "name") upper
  else Ok data.

(** The character decoded last is a high surrogate. *)
Definition last_high (acc : pystr) : bool :=
  match acc with
  | a :: _ => is_high_surrogate a
  | [] => false
  end.

(** The text [json.dumps] writes for one member of an object. *)
Definition dumps_member (kv : pystr * pyval) : pystr :=
  encode_string (fst kv) ++ cp ":" :: cp " " :: json_dumps (snd kv).

(** ** Notions used by the further properties of the scripts *)

(** What the loop of flatten_nested_json.py makes of one field value: a
    string that looks like JSON and parses is replaced by what it parses
    to, everything else stays. *)
Definition flatten_field (fv : pyval) : pyval :=
  match fv with
  | PStr s =>
      if flatten_nested_json.looks_like_json s then
        match json_loads s with
        | Ok parsed => parsed
        | Raise _ => fv
        end
      else fv
  | _ => fv
  end.

(** The same on a field with its name. *)
Definition flatten_entry (kv : pystr * pyval) : pystr * pyval :=
  (fst kv, flatten_field (snd kv)).

(** The value mentions the text [name] the way [in] looks for it: as a
    key of an object, an item of a list or a part of a string. *)
Definition mentions_name (v : pyval) : Prop :=
  match v with
  | PDict d => exists x, dict_lookup d (str "name") = Some x
  | PList l => In (PStr (str "name")) l
  | PStr s => exists a b, s = a ++ str "name" ++ b
  | _ => False
  end.

(** The string fields of an object hold no surrogate code point. *)
Definition fields_scalar (d : pydict) : bool :=
  forallb (fun kv => match snd kv with
                     | PStr s => scalar_text s
                     | _ => true
                     end) d.

(** ** The text of the transform callbacks *)

(** The four [transform_value] functions as program text, to state what a
    call can depend on.  [expr] and [stmt] have the constructs the four
    functions are written with and no others; [exec] runs a statement in
    a store of local variables, with the clock reading as the one thing a
    call can reach besides its arguments. *)
Inductive expr : Type :=
| EVar (x : string)                           (* x *)
| EStr (s : pystr)                            (* 's' *)
| EInt (z : Z)                                (* 0 *)
| ELoads (a : expr)                           (* json.loads(a) *)
| EDumps (a : expr)                           (* json.dumps(a) *)
| EIn (k : pystr) (a : expr)                  (* 'k' in a *)
| EGetItem (a : expr) (k : pystr)             (* a['k'] *)
| EGet (a : expr) (k : pystr) (default : expr)  (* a.get('k', default) *)
| EUpper (a : expr)                           (* a.upper() *)
| ELt (a : expr) (n : Z)                      (* a < n *)
| EIsStr (a : expr)                           (* isinstance(a, str) *)
| EStartsWith (a : expr) (p : pystr)          (* a.startswith('p') *)
| EEndsWith (a : expr) (p : pystr)            (* a.endswith('p') *)
| EAnd (a b : expr)                           (* a and b *)
| EOr (a b : expr)                            (* a or b *)
| EUtcNowIso                                  (* datetime.utcnow().isoformat() *)
| EAddStr (a : expr) (s : pystr).             (* a + 's' *)

Inductive stmt : Type :=
| SPass                                       (* pass *)
| SAssign (x : string) (e : expr)             (* x = e *)
| SSetItem (x : string) (k e : expr)          (* x[k] = e *)
| SSeq (a b : stmt)                           (* a; b *)
| SIf (c : expr) (a b : stmt)                 (* if c: a / else: b *)
| SForItems (kx vx : string) (e : expr) (body : stmt)
                                 (* for kx, vx in list(e.items()): body *)
| STry (body handler : stmt)                  (* try: body / except: handler *)
| SReturn (e : expr).                         (* return e *)

(** What a failing evaluation raises: one of the exceptions of [exn], or
    the error of reading a local variable before it is assigned. *)
Inductive error : Type :=
| Exn (e : exn)
| UnboundLocalError.

Inductive answer (A : Type) : Type :=
| Value (a : A)
| Error (e : error).
Arguments Value {A} a.
Arguments Error {A} e.

Definition lift {A : Type} (r : result A) : answer A :=
  match r with
  | Ok a => Value a
  | Raise e => Error (Exn e)
  end.

Definition and_then {A B : Type} (m : answer A) (k : A -> answer B) : answer B :=
  match m with
  | Value a => k a
  | Error e => Error e
  end.

(** The local variables of one call. *)
Definition store : Type := list (string * pyval).

Fixpoint store_get (st : store) (x : string) : option pyval :=
  match st with
  | [] => None
  | (y, v) :: rest => if String.eqb y x then Some v else store_get rest x
  end.

Definition store_set (st : store) (x : string) (v : pyval) : store :=
  (x, v) :: st.

(** The value of an expression; [now] is what [datetime.utcnow()]
    returns. *)
Fixpoint eval (now : datetime) (st : store) (e : expr) : answer pyval :=
  match e with
  | EVar x =>
      match store_get st x with
      | Some v => Value v
      | None => Error UnboundLocalError
      end
  | EStr s => Value (PStr s)
  | EInt z => Value (PInt z)
  | ELoads a =>
      and_then (eval now st a) (fun v =>
        match v with
        | PStr s => lift (json_loads s)
        | _ => Error (Exn TypeError)
        end)
  | EDumps a => and_then (eval now st a) (fun v => Value (PStr (json_dumps v)))
  | EIn k a =>
      and_then (eval now st a) (fun v => lift (b <- py_in k v ;; Ok (PBool b)))
  | EGetItem a k => and_then (eval now st a) (fun v => lift (py_getitem v k))
  | EGet a k default =>
      and_then (eval now st a) (fun v =>
        match v with
        | PDict _ =>
            and_then (eval now st default) (fun d => lift (py_get v k d))
        | _ => Error (Exn AttributeError)
        end)
  | EUpper a => and_then (eval now st a) (fun v => lift (py_upper v))
  | ELt a n =>
      and_then (eval now st a) (fun v => lift (b <- py_lt_int v n ;; Ok (PBool b)))
  | EIsStr a =>
      and_then (eval now st a) (fun v =>
        Value (PBool match v with PStr _ => true | _ => false end))
  | EStartsWith a p =>
      and_then (eval now st a) (fun v =>
        match v with
        | PStr s => Value (PBool (startswith s p))
        | _ => Error (Exn AttributeError)
        end)
  | EEndsWith a p =>
      and_then (eval now st a) (fun v =>
        match v with
        | PStr s => Value (PBool (endswith s p))
        | _ => Error (Exn AttributeError)
        end)
  | EAnd a b =>
      and_then (eval now st a) (fun v =>
        if py_truthy v then eval now st b else Value v)
  | EOr a b =>
      and_then (eval now st a) (fun v =>
        if py_truthy v then Value v else eval now st b)
  | EUtcNowIso => Value (PStr (isoformat now))
  | EAddStr a s =>
      and_then (eval now st a) (fun v =>
        match v with
        | PStr t => Value (PStr (t ++ s))
        | _ => Error (Exn TypeError)
        end)
  end.

(** How a statement ends: it falls through to the next one, returns from
    the function, or raises; the store is the one reached at that
    point. *)
Inductive signal : Type :=
| Next (st : store)
| Returned (v : pyval)
| Raised (e : error) (st : store).

(** The iterations of a [for] loop over [items]: each runs the body on
    the store the one before left, and a [return] or an exception ends
    the loop. *)
Definition for_each (iteration : pystr * pyval -> store -> signal)
    : list (pystr * pyval) -> store -> signal :=
  fix loop (items : list (pystr * pyval)) (st : store) : signal :=
    match items with
    | [] => Next st
    | kv :: rest =>
        match iteration kv st with
        | Next st' => loop rest st'
        | other => other
        end
    end.

(** [x[k] = e] evaluates [e], then [x], then [k].  The keys of these
    scripts are strings; with any other key the statement is taken to
    raise. *)
Fixpoint exec (now : datetime) (s : stmt) (st : store) : signal :=
  match s with
  | SPass => Next st
  | SAssign x e =>
      match eval now st e with
      | Value v => Next (store_set st x v)
      | Error er => Raised er st
      end
  | SSetItem x k e =>
      match eval now st e with
      | Error er => Raised er st
      | Value v =>
          match store_get st x with
          | None => Raised UnboundLocalError st
          | Some target =>
              match eval now st k with
              | Error er => Raised er st
              | Value (PStr key) =>
                  match py_setitem target key v with
                  | Ok target' => Next (store_set st x target')
                  | Raise ex => Raised (Exn ex) st
                  end
              | Value _ => Raised (Exn TypeError) st
              end
          end
      end
  | SSeq a b =>
      match exec now a st with
      | Next st' => exec now b st'
      | other => other
      end
  | SIf c a b =>
      match eval now st c with
      | Error er => Raised er st
      | Value v => if py_truthy v then exec now a st else exec now b st
      end
  | SForItems kx vx e body =>
      match eval now st e with
      | Error er => Raised er st
      | Value v =>
          match py_items v with
          | Raise ex => Raised (Exn ex) st
          | Ok items =>
              for_each
                (fun kv st' =>
                   exec now body
                     (store_set (store_set st' kx (PStr (fst kv))) vx (snd kv)))
                items st
          end
      end
  | STry body handler =>
      match exec now body st with
      | Raised _ st' => exec now handler st'
      | other => other
      end
  | SReturn e =>
      match eval now st e with
      | Value v => Returned v
      | Error er => Raised er st
      end
  end.

(** A call [f(key, value)] of the function with the given body. *)
Definition call (now : datetime) (body : stmt) (key value : pystr)
    : answer pyval :=
  match exec now body [("key"%string, PStr key); ("value"%string, PStr value)] with
  | Next _ => Value PNone
  | Returned v => Value v
  | Raised e _ => Error e
  end.

(** What the embedded function says the call returns. *)
Definition returns (r : result pystr) : answer pyval :=
  match r with
  | Ok s => Value (PStr s)
  | Raise e => Error (Exn e)
  end.

(** The expression, or the statement, has a [datetime.utcnow()] in it. *)
Fixpoint expr_reads_clock (e : expr) : bool :=
  match e with
  | EUtcNowIso => true
  | EVar _ | EStr _ | EInt _ => false
  | ELoads a | EDumps a | EIn _ a | EGetItem a _ | EUpper a | ELt a _
  | EIsStr a | EStartsWith a _ | EEndsWith a _ | EAddStr a _ =>
      expr_reads_clock a
  | EGet a _ b | EAnd a b | EOr a b => expr_reads_clock a || expr_reads_clock b
  end.

Fixpoint reads_clock (s : stmt) : bool :=
  match s with
  | SPass => false
  | SAssign _ e | SReturn e => expr_reads_clock e
  | SSetItem _ k e => expr_reads_clock k || expr_reads_clock e
  | SSeq a b | STry a b => reads_clock a || reads_clock b
  | SIf c a b => expr_reads_clock c || reads_clock a || reads_clock b
  | SForItems _ _ e body => expr_reads_clock e || reads_clock body
  end.

Module text.

(** add_timestamp.py, lines 10-18. *)
Definition add_timestamp : stmt :=
  STry
    (SSeq (SAssign "data" (ELoads (EVar "value")))
    (SSeq (SSetItem "data" (EStr (str "processed_at"))
             (EAddStr EUtcNowIso (str "Z")))
    (SSeq (SSetItem "data" (EStr (str "transform_version")) (EStr (str "1.0")))
          (SReturn (EDumps (EVar "data"))))))
    (SReturn (EVar "value")).

(** filter_by_age.py, lines 17-32. *)
Definition filter_by_age : stmt :=
  STry
    (SSeq (SAssign "data" (ELoads (EVar "value")))
    (SSeq (SAssign "age" (EGet (EVar "data") (str "age") (EInt 0)))
    (SSeq (SIf (ELt (EVar "age") 25)
             (SSetItem "data" (EStr (str "age_group")) (EStr (str "young")))
             (SIf (ELt (EVar "age") 35)
                (SSetItem "data" (EStr (str "age_group")) (EStr (str "middle")))
                (SSetItem "data" (EStr (str "age_group")) (EStr (str "senior")))))
          (SReturn (EDumps (EVar "data"))))))
    (SReturn (EVar "value")).

(** flatten_nested_json.py, lines 21-31: the body of the loop. *)
Definition flatten_one_field : stmt :=
  SIf (EIsStr (EVar "field_value"))
    (SIf (EOr (EAnd (EStartsWith (EVar "field_value") (str "{"))
                    (EEndsWith (EVar "field_value") (str "}")))
              (EAnd (EStartsWith (EVar "field_value") (str "["))
                    (EEndsWith (EVar "field_value") (str "]"))))
       (STry
          (SSeq (SAssign "parsed" (ELoads (EVar "field_value")))
                (SSetItem "data" (EVar "field") (EVar "parsed")))
          SPass)
       SPass)
    SPass.

(** flatten_nested_json.py, lines 10-35. *)
Definition flatten_nested_json : stmt :=
  STry
    (SSeq (SAssign "data" (ELoads (EVar "value")))
    (SSeq (SForItems "field" "field_value" (EVar "data") flatten_one_field)
          (SReturn (EDumps (EVar "data")))))
    (SReturn (EVar "value")).

(** transform_uppercase_name.py, lines 10-18. *)
Definition transform_uppercase_name : stmt :=
  STry
    (SSeq (SAssign "data" (ELoads (EVar "value")))
    (SSeq (SIf (EIn (str "name") (EVar "data"))
             (SSetItem "data" (EStr (str "name"))
                (EUpper (EGetItem (EVar "data") (str "name"))))
             SPass)
          (SReturn (EDumps (EVar "data")))))
    (SReturn (EVar "value")).

End text.

(** A printable ASCII character that [json.dumps] writes as it is. *)
Definition plain_char (c : codepoint) : bool :=
  (N.leb 32 c && N.leb c 126 && negb (N.eqb c 34) && negb (N.eqb c 92))%N.

(** ** Basic facts *)

Lemma str_eqb_eq (a b : pystr) : str_eqb a b = true <-> a = b.
Proof.
  revert b; induction a as [|x a IH]; intros [|y b]; simpl; split;
    try congruence; try discriminate.
  - intros H. apply andb_prop in H as [H1 H2].
    apply N.eqb_eq in H1. apply IH in H2. congruence.
  - intros H. injection H as -> ->. rewrite N.eqb_refl. simpl. now apply IH.
Qed.

Lemma str_eqb_refl (a : pystr) : str_eqb a a = true.
Proof. now apply str_eqb_eq. Qed.

Lemma str_eqb_neq (a b : pystr) : str_eqb a b = false <-> a <> b.
Proof.
  split.
  - intros H E. apply str_eqb_eq in E. congruence.
  - intros H. destruct (str_eqb a b) eqn:E; [|reflexivity].
    apply str_eqb_eq in E. contradiction.
Qed.

Lemma try_except_ok {A : Type} (body : result A) (h : A) :
  exists a, try_except body (Ok h) = Ok a.
Proof. destruct body; simpl; eauto. Qed.

Lemma dict_mem_lookup (d : pydict) (k : pystr) :
  dict_mem d k = true <-> exists v, dict_lookup d k = Some v.
Proof.
  unfold dict_mem. destruct (dict_lookup d k); split; eauto; try discriminate.
  intros [v H]; discriminate.
Qed.

(** ** The example callbacks *)

(** C8: when [value] is not valid JSON ([json.loads] raises), each of the
    four [transform_value] functions returns [value] itself. *)
Theorem transforms_identity_on_malformed_json :
  forall (now : datetime) (key value : pystr) (e : exn),
    json_loads value = Raise e ->
    add_timestamp.transform_value now key value = Ok value
    /\ filter_by_age.transform_value key value = Ok value
    /\ flatten_nested_json.transform_value key value = Ok value
    /\ transform_uppercase_name.transform_value key value = Ok value.
Proof.
  intros now key value e H.
  unfold add_timestamp.transform_value, filter_by_age.transform_value,
    flatten_nested_json.transform_value, transform_uppercase_name.transform_value.
  rewrite H. simpl. repeat split.
Qed.

Lemma transforms_identity_on_malformed_json_witness :
  let now := {| year := 2024; month := 1; day := 2; hour := 3; minute := 4;
                second := 5; microsecond := 0 |} in
  let value := str "not json" in
  json_loads value = Raise JSONDecodeError
  /\ add_timestamp.transform_value now (str "u1") value = Ok value
  /\ filter_by_age.transform_value (str "u1") value = Ok value
  /\ flatten_nested_json.transform_value (str "u1") value = Ok value
  /\ transform_uppercase_name.transform_value (str "u1") value = Ok value.
Proof.
  intros now value.
  split; [reflexivity|].
  apply (transforms_identity_on_malformed_json now (str "u1") value JSONDecodeError).
  reflexivity.
Defined.

(** The predicate of filter_by_age.py on a parsed document. *)
Lemma filter_by_age_should_process_parsed (key value : pystr) (v : pyval) :
  json_loads value = Ok v ->
  filter_by_age.should_process key value =
    Ok (PBool match v with
              | PDict d =>
                  match dict_lookup d (str "age") with
                  | Some (PBool b) => 30 <? (if b then 1 else 0)
                  | Some (PInt z) => 30 <? z
                  | Some (PFloat f) =>
                      match float_compare_Z f 30 with Some Gt => true | _ => false end
                  | _ => false
                  end
              | _ => false
              end).
Proof.
  intros H. unfold filter_by_age.should_process. rewrite H. simpl.
  destruct v as [| b | z | f | s | l | d]; simpl; try reflexivity.
  - destruct (str_contains s (str "age")); reflexivity.
  - destruct (existsb _ l); reflexivity.
  - unfold dict_mem. destruct (dict_lookup d (str "age")) as [a|]; [|reflexivity].
    destruct a; reflexivity.
Qed.

(** The values filter_by_age.py accepts. *)
Lemma filter_by_age_accepted (key value : pystr) :
  filter_by_age.should_process key value = Ok (PBool true)
  <-> exists v age, json_loads value = Ok v
                    /\ has_field v (str "age") age /\ number_gt age 30.
Proof.
  destruct (json_loads value) as [v|e] eqn:L.
  - rewrite (filter_by_age_should_process_parsed key value v L). split.
    + intros H. injection H as H.
      destruct v as [| b | z | f | s | l | d]; try discriminate.
      destruct (dict_lookup d (str "age")) as [a|] eqn:La; [|discriminate].
      exists (PDict d), a. split; [reflexivity|]. split; [exists d; auto|].
      destruct a as [| b | z | f | s | l | d']; try discriminate; simpl.
      * destruct b; discriminate.
      * now apply Z.ltb_lt.
      * destruct (float_compare_Z f 30) as [[]|]; try discriminate; reflexivity.
    + intros (v' & age & Hv & (d & -> & Hl) & Hgt). injection Hv as ->.
      rewrite Hl. destruct age; simpl in Hgt; try contradiction.
      * apply Z.ltb_lt in Hgt. now rewrite Hgt.
      * now rewrite Hgt.
  - unfold filter_by_age.should_process. rewrite L. simpl. split.
    + discriminate.
    + intros (v & age & Hv & _). discriminate.
Qed.

(** C2: [should_process] of filter_by_age.py returns [True] exactly when
    [value] parses as a JSON object whose ['age'] field is a number
    strictly greater than 30, and returns [False] when [value] is not valid
    JSON or the parsed document has no ['age'] field. *)
Theorem filter_by_age_accepts_exactly_age_over_30 :
  forall key value : pystr,
    (filter_by_age.should_process key value = Ok (PBool true)
     <-> exists v age, json_loads value = Ok v
                       /\ has_field v (str "age") age /\ number_gt age 30)
    /\ (forall e, json_loads value = Raise e ->
          filter_by_age.should_process key value = Ok (PBool false))
    /\ (forall v, json_loads value = Ok v ->
          (forall age, ~ has_field v (str "age") age) ->
          filter_by_age.should_process key value = Ok (PBool false)).
Proof.
  intros key value. split; [|split].
  - apply filter_by_age_accepted.
  - intros e L. unfold filter_by_age.should_process. rewrite L. reflexivity.
  - intros v L Hno. rewrite (filter_by_age_should_process_parsed key value v L).
    destruct v as [| b | z | f | s | l | d]; try reflexivity.
    destruct (dict_lookup d (str "age")) as [a|] eqn:La; [|reflexivity].
    exfalso. apply (Hno a). exists d. auto.
Qed.

Lemma float_compare_Z_gt_mono (f : spec_float) (a b : Z) :
  b <= a -> float_compare_Z f a = Some Gt -> float_compare_Z f b = Some Gt.
Proof.
  intros Hab. destruct f as [s | s | | s m e]; cbn [float_compare_Z];
    try discriminate.
  - destruct a; try discriminate. destruct b; try lia. reflexivity.
  - destruct s; [discriminate | reflexivity].
  - destruct (0 <=? e) eqn:He; intros H; injection H as H; f_equal;
      apply Z.compare_gt_iff in H; apply Z.compare_gt_iff.
    + lia.
    + assert (0 < 2 ^ (- e)) by (apply Z.pow_pos_nonneg; lia). nia.
Qed.

(** What [v < n] evaluates to on a number. *)
Lemma py_lt_int_number (age : pyval) (n : Z) :
  number_gt age 30 ->
  exists b, py_lt_int age n = Ok b /\ (b = true <-> number_lt age n).
Proof.
  destruct age as [| b | z | f | s | l | d]; simpl; try contradiction; intros H.
  - exists (z <? n). split; [reflexivity|]. apply Z.ltb_lt.
  - destruct (float_compare_Z f n) as [[]|]; eexists; (split; [reflexivity|]);
      split; congruence.
Qed.

Lemma number_gt_30_not_lt_25 (age : pyval) :
  number_gt age 30 -> py_lt_int age 25 = Ok false.
Proof.
  destruct age as [| b | z | f | s | l | d]; simpl; try contradiction; intros H.
  - f_equal. apply Z.ltb_ge. lia.
  - rewrite (float_compare_Z_gt_mono f 30 25); [reflexivity | lia | exact H].
Qed.

(** C9: on a value accepted by [should_process] of filter_by_age.py,
    [transform_value] sets [age_group] to ['middle'] when the age is below
    35 and to ['senior'] otherwise, and never to ['young']. *)
Theorem filter_by_age_group_of_accepted :
  forall key value : pystr,
    filter_by_age.should_process key value = Ok (PBool true) ->
    exists d age label,
      json_loads value = Ok (PDict d)
      /\ dict_lookup d (str "age") = Some age
      /\ number_gt age 30
      /\ filter_by_age.transform_value key value
         = Ok (json_dumps (PDict (dict_set d (str "age_group") (PStr label))))
      /\ (number_lt age 35 -> label = str "middle")
      /\ (~ number_lt age 35 -> label = str "senior")
      /\ label <> str "young".
Proof.
  intros key value H.
  apply (proj1 (filter_by_age_accepted key value)) in H.
  destruct H as (v & age & L & (d & -> & Hl) & Hgt).
  destruct (py_lt_int_number age 35 Hgt) as (b & Hb & Hiff).
  exists d, age, (if b then str "middle" else str "senior").
  repeat split; auto.
  - unfold filter_by_age.transform_value. rewrite L. simpl. rewrite Hl. simpl.
    rewrite (number_gt_30_not_lt_25 age Hgt). simpl. rewrite Hb. simpl.
    destruct b; reflexivity.
  - intros Hlt. apply Hiff in Hlt. now subst b.
  - intros Hn. destruct b; [|reflexivity]. exfalso. apply Hn. now apply Hiff.
  - destruct b; discriminate.
Qed.

Lemma filter_by_age_group_of_accepted_witness :
  let value := js "{'age': 31, 'n': 'x'}" in
  filter_by_age.should_process (str "u1") value = Ok (PBool true)
  /\ filter_by_age.transform_value (str "u1") value
     = Ok (js "{'age': 31, 'n': 'x', 'age_group': 'middle'}").
Proof.
  intros value. split; [reflexivity|].
  destruct (filter_by_age_group_of_accepted (str "u1") value eq_refl)
    as (d & age & label & L & _ & _ & T & _).
  reflexivity.
Defined.

(** ** The engine's report *)

Section Engine.
Import pipeline.
Local Open Scope nat_scope.
Variables (cfg : Config) (cb : Callbacks) (commit : CommitBatch).

Lemma count_decisions_app (d : Decision) (l1 l2 : list (pystr * Decision)) :
  count_decisions d (l1 ++ l2) = count_decisions d l1 + count_decisions d l2.
Proof. unfold count_decisions. now rewrite filter_app, length_app. Qed.

Lemma count_decisions_total (log : list (pystr * Decision)) :
  List.length log =
    count_decisions Skipped log + count_decisions Transformed log
    + count_decisions Failed log + count_decisions Unchanged log.
Proof.
  unfold count_decisions. induction log as [|[k d] log IH]; [reflexivity|].
  destruct d; simpl; lia.
Qed.

Lemma counted_flush (st st' : State) :
  counted st -> flush commit st = Some st' -> counted st'.
Proof.
  unfold flush. intros H. destruct (buffer st).
  - now intros [= <-].
  - destruct (commit (store st) (r :: l)); [|discriminate].
    now intros [= <-].
Qed.

Lemma counted_step (st st' : State) (rec : Record) (ok : bool) :
  counted st -> step cfg cb commit st rec = (st', ok) -> counted st'.
Proof.
  intros H. unfold step. destruct rec as [key value].
  destruct (decide cb key value) as [[d new] err] eqn:D.
  set (rep := count cfg (report st) key d err).
  set (dec := decisions st ++ [(key, d)]).
  assert (C : forall b p s,
             counted {| report := rep; decisions := dec; buffer := b;
                        preview := p; store := s |}).
  { intros b p s. destruct H as (H1 & H2 & H3 & H4 & H5).
    unfold counted, rep, dec; cbn [report decisions].
    rewrite length_app, !count_decisions_app.
    unfold count; cbn [scanned skipped transformed failed unchanged].
    destruct d; cbn; lia. }
  destruct new as [nv|].
  - destruct (dryRun cfg).
    + intros [= <- <-]. apply C.
    + match goal with |- context [flush commit ?s] => destruct (flush commit s) eqn:F end.
      * destruct (Nat.leb _ _); intros [= <- <-];
          [eapply counted_flush; [|exact F]|]; apply C.
      * destruct (Nat.leb _ _); intros [= <- <-]; apply C.
  - intros [= <- <-]. apply C.
Qed.

Lemma counted_run_records (cancel : nat -> bool) (recs : list Record) :
  forall (n : nat) (st : State),
    counted st -> counted (fst (run_records cfg cb commit cancel n recs st)).
Proof.
  induction recs as [|rec rest IH]; intros n st H; simpl.
  - unfold drain. destruct (flush commit st) eqn:F; [|exact H].
    apply (counted_flush _ _ H) in F. exact F.
  - destruct (cancel n).
    + destruct (flush commit st) eqn:F; [|exact H].
      apply (counted_flush _ _ H F).
    + destruct (step cfg cb commit st rec) as [st' ok] eqn:S.
      pose proof (counted_step _ _ _ _ H S) as H'.
      destruct ok; [apply IH; exact H' | exact H'].
Qed.
End Engine.

(** C5 (spec-modelled engine): whatever the job, the counters of its
    report satisfy [scanned = skipped + transformed + failed + unchanged],
    and each counter is the number of scanned records that received that
    decision. *)
Theorem job_report_counters_partition :
  forall (cfg : pipeline.Config) (cb : pipeline.Callbacks)
         (commit : pipeline.CommitBatch) (cancel : nat -> bool)
         (s : pipeline.Store),
    let st := fst (pipeline.run cfg cb commit cancel s) in
    let r := pipeline.report st in
    (pipeline.scanned r
     = pipeline.skipped r + pipeline.transformed r + pipeline.failed r
       + pipeline.unchanged r)%nat
    /\ counted st.
Proof.
  intros cfg cb commit cancel s st r.
  assert (C : counted st).
  { apply counted_run_records. unfold counted; cbn. repeat split. }
  split; [|exact C].
  destruct C as (H1 & H2 & H3 & H4 & H5). subst r.
  rewrite H1, H2, H3, H4, H5. apply count_decisions_total.
Qed.

Section NoFailure.
Import pipeline.
Variables (cfg : Config) (cb : Callbacks) (commit : CommitBatch).

(** Neither callback raises. *)
Hypothesis predicate_total :
  forall p key value, predicate cb = Some p -> exists b, p key value = Ok b.
Hypothesis transform_total :
  forall key value, exists new, transform cb key value = Ok new.

Lemma decide_not_failed (key value : pystr) :
  fst (fst (decide cb key value)) <> Failed.
Proof.
  unfold decide. destruct (transform_total key value) as [new T].
  destruct (predicate cb) as [p|] eqn:P.
  - destruct (predicate_total p key value eq_refl) as [b ->].
    destruct b; [|discriminate]. rewrite T.
    destruct (str_eqb new value); discriminate.
  - rewrite T. destruct (str_eqb new value); discriminate.
Qed.

Lemma no_failure_flush (st st' : State) :
  failed (report st) = O -> flush commit st = Some st' ->
  failed (report st') = O.
Proof.
  unfold flush. intros H. destruct (buffer st).
  - now intros [= <-].
  - destruct (commit (store st) (r :: l)); [|discriminate].
    now intros [= <-].
Qed.

Lemma no_failure_step (st st' : State) (rec : Record) (ok : bool) :
  failed (report st) = O -> step cfg cb commit st rec = (st', ok) ->
  failed (report st') = O.
Proof.
  intros H. unfold step. destruct rec as [key value].
  pose proof (decide_not_failed key value) as NF.
  destruct (decide cb key value) as [[d new] err] eqn:D. cbn in NF.
  assert (C : failed (count cfg (report st) key d err) = O)
    by (destruct d; cbn; congruence).
  destruct new as [nv|].
  - destruct (dryRun cfg).
    + now intros [= <- <-].
    + match goal with |- context [flush commit ?s] => destruct (flush commit s) eqn:F end.
      * destruct (Nat.leb _ _); intros [= <- <-]; [|exact C].
        eapply no_failure_flush; [|exact F]. exact C.
      * destruct (Nat.leb _ _); intros [= <- <-]; exact C.
  - now intros [= <- <-].
Qed.

Lemma no_failure_run_records (cancel : nat -> bool) (recs : list Record) :
  forall (n : nat) (st : State),
    failed (report st) = O ->
    failed (report (fst (run_records cfg cb commit cancel n recs st))) = O.
Proof.
  induction recs as [|rec rest IH]; intros n st H; simpl.
  - unfold drain. destruct (flush commit st) eqn:F; [|exact H].
    cbn. apply (no_failure_flush _ _ H F).
  - destruct (cancel n).
    + destruct (flush commit st) eqn:F; [|exact H].
      apply (no_failure_flush _ _ H F).
    + destruct (step cfg cb commit st rec) as [st' ok] eqn:S.
      pose proof (no_failure_step _ _ _ _ H S) as H'.
      destruct ok; [apply IH; exact H' | exact H'].
Qed.
End NoFailure.

(** C3: the callbacks of filter_by_age.py never raise: [should_process]
    returns a boolean and [transform_value] a string on every input, and
    a job of the (spec-modelled) engine that runs them reports
    [failed = 0]. *)
Theorem filter_by_age_callbacks_never_raise :
  (forall key value : pystr,
      (exists b, filter_by_age.should_process key value = Ok (PBool b))
      /\ (exists s, filter_by_age.transform_value key value = Ok s))
  /\ (forall (cfg : pipeline.Config) (commit : pipeline.CommitBatch)
             (cancel : nat -> bool) (s : pipeline.Store),
        pipeline.failed
          (pipeline.report
             (fst (pipeline.run cfg filter_by_age_callbacks commit cancel s)))
        = O).
Proof.
  assert (SP : forall key value,
             exists b, filter_by_age.should_process key value = Ok (PBool b)).
  { intros key value. destruct (json_loads value) as [v|e] eqn:L.
    - rewrite (filter_by_age_should_process_parsed key value v L). eauto.
    - unfold filter_by_age.should_process. rewrite L. simpl. eauto. }
  assert (TV : forall key value,
             exists s, filter_by_age.transform_value key value = Ok s).
  { intros key value. apply try_except_ok. }
  split; [intros key value; split; auto|].
  intros cfg commit cancel s. apply no_failure_run_records; [| |reflexivity].
  - intros p key value [= <-]. unfold pipeline.host_predicate.
    destruct (SP key value) as [b ->]. simpl. eauto.
  - intros key value. apply TV.
Qed.

(** ** Dry run against real run *)

Section DryVsReal.
Import pipeline.
Variables (cfg : Config) (cb : Callbacks) (commit : CommitBatch)
          (cancel : nat -> bool).


Lemma flush_decisions (st st' : State) :
  flush commit st = Some st' -> decisions st' = decisions st.
Proof.
  unfold flush. destruct (buffer st).
  - now intros [= <-].
  - destruct (commit (store st) (r :: l)); [|discriminate]. now intros [= <-].
Qed.

Lemma flush_preview (st st' : State) :
  flush commit st = Some st' -> preview st' = preview st.
Proof.
  unfold flush. destruct (buffer st).
  - now intros [= <-].
  - destruct (commit (store st) (r :: l)); [|discriminate]. now intros [= <-].
Qed.

Lemma flush_empty (st : State) : buffer st = [] -> flush commit st = Some st.
Proof. unfold flush. now intros ->. Qed.

(** A step in either mode logs the decision of [decide]. *)
Lemma step_decisions (c : Config) (st st' : State) (key value : pystr) (ok : bool) :
  step c cb commit st (key, value) = (st', ok) ->
  decisions st' = decisions st ++ [(key, fst (fst (decide cb key value)))].
Proof.
  unfold step. destruct (decide cb key value) as [[d new] err]. cbn [fst].
  destruct new as [nv|].
  - destruct (dryRun c).
    + now intros [= <- <-].
    + match goal with |- context [flush commit ?s] => destruct (flush commit s) eqn:F end.
      * destruct (Nat.leb _ _); intros [= <- <-]; [|reflexivity].
        now rewrite (flush_decisions _ _ F).
      * destruct (Nat.leb _ _); intros [= <- <-]; reflexivity.
  - now intros [= <- <-].
Qed.

(** In dry-run mode a step never stops the job, stages nothing and
    leaves the store alone. *)
Lemma step_dry (st st' : State) (rec : Record) (ok : bool) :
  step (with_mode cfg true) cb commit st rec = (st', ok) ->
  ok = true /\ buffer st' = buffer st /\ store st' = store st.
Proof.
  unfold step. destruct rec as [key value].
  destruct (decide cb key value) as [[d new] err].
  destruct new as [nv|]; cbn [dryRun with_mode]; intros [= <- <-]; auto.
Qed.

(** In real mode nothing is recorded by the DryRunReporter. *)
Lemma step_real_preview (st st' : State) (rec : Record) (ok : bool) :
  step (with_mode cfg false) cb commit st rec = (st', ok) -> preview st' = preview st.
Proof.
  unfold step. destruct rec as [key value].
  destruct (decide cb key value) as [[d new] err].
  destruct new as [nv|]; cbn [dryRun with_mode].
  - match goal with |- context [flush commit ?s] => destruct (flush commit s) eqn:F end.
    + destruct (Nat.leb _ _); intros [= <- <-]; [|reflexivity].
      now rewrite (flush_preview _ _ F).
    + destruct (Nat.leb _ _); intros [= <- <-]; reflexivity.
  - now intros [= <- <-].
Qed.

(** A run only extends the decision log. *)
Lemma run_records_extends (c : Config) (recs : list Record) :
  forall (n : nat) (st : State),
  exists more,
    decisions (fst (run_records c cb commit cancel n recs st))
    = decisions st ++ more.
Proof.
  induction recs as [|[key value] rest IH]; intros n st; cbn [run_records].
  - exists []. rewrite app_nil_r. unfold drain.
    destruct (flush commit st) eqn:F; [|reflexivity].
    cbn. apply (flush_decisions _ _ F).
  - destruct (cancel n).
    + exists []. rewrite app_nil_r.
      destruct (flush commit st) eqn:F; [|reflexivity].
      apply (flush_decisions _ _ F).
    + destruct (step c cb commit st (key, value)) as [st' ok] eqn:St.
      pose proof (step_decisions _ _ _ _ _ _ St) as D.
      destruct ok.
      * destruct (IH (S n) st') as [more E].
        exists ((key, fst (fst (decide cb key value))) :: more).
        rewrite E, D, <- app_assoc. reflexivity.
      * cbn. rewrite D. eauto.
Qed.

Lemma dry_vs_real_records (recs : list Record) :
  forall (n : nat) (std str : State),
    decisions std = decisions str -> buffer std = [] ->
    let fd := run_records (with_mode cfg true) cb commit cancel n recs std in
    let fr := run_records (with_mode cfg false) cb commit cancel n recs str in
    (exists more, decisions (fst fd) = decisions (fst fr) ++ more)
    /\ (snd fr <> Aborted ->
        decisions (fst fd) = decisions (fst fr) /\ snd fd = snd fr)
    /\ store (fst fd) = store std
    /\ preview (fst fr) = preview str.
Proof.
  induction recs as [|[key value] rest IH]; intros n std str HD HB;
    cbn [run_records].
  - unfold drain. rewrite (flush_empty std HB). cbn.
    destruct (flush commit str) eqn:F; cbn.
    + rewrite (flush_decisions _ _ F), (flush_preview _ _ F), HD.
      repeat split; auto. exists []. now rewrite app_nil_r.
    + repeat split; auto; try congruence. exists []. now rewrite app_nil_r.
  - destruct (cancel n).
    + rewrite (flush_empty std HB). cbn.
      destruct (flush commit str) eqn:F; cbn.
      * rewrite (flush_decisions _ _ F), (flush_preview _ _ F), HD.
        repeat split; auto. exists []. now rewrite app_nil_r.
      * repeat split; auto; try congruence. exists []. now rewrite app_nil_r.
    + destruct (step (with_mode cfg true) cb commit std (key, value)) as [std' okd] eqn:Sd.
      destruct (step (with_mode cfg false) cb commit str (key, value)) as [str' okr] eqn:Sr.
      pose proof (step_decisions _ _ _ _ _ _ Sd) as Dd.
      pose proof (step_decisions _ _ _ _ _ _ Sr) as Dr.
      destruct (step_dry _ _ _ _ Sd) as (-> & Bd & Std).
      pose proof (step_real_preview _ _ _ _ Sr) as Pr.
      assert (HD' : decisions std' = decisions str') by congruence.
      assert (HB' : buffer std' = []) by congruence.
      destruct okr.
      * destruct (IH (S n) std' str' HD' HB') as (I1 & I2 & I3 & I4).
        repeat split; auto; try apply I2; congruence.
      * cbn. repeat split; auto; try congruence.
        -- rewrite <- HD'. apply run_records_extends.
        -- destruct (IH (S n) std' std' eq_refl HB') as (_ & _ & I3 & _).
           congruence.
Qed.
End DryVsReal.




(** ** transform_uppercase_name.py *)

(** The predicate of transform_uppercase_name.py on a parsed document. *)
Lemma uppercase_should_process_parsed (key value : pystr) (v : pyval) :
  json_loads value = Ok v ->
  transform_uppercase_name.should_process key value =
    Ok (PBool match v with
              | PDict d => dict_mem d (str "name")
              | PList l =>
                  existsb (fun x => match x with
                                    | PStr s => str_eqb s (str "name")
                                    | _ => false
                                    end) l
              | PStr s => str_contains s (str "name")
              | _ => false
              end).
Proof.
  intros H. unfold transform_uppercase_name.should_process. rewrite H.
  destruct v; reflexivity.
Qed.

(** C7 (the code at the failing input): a JSON string that merely contains
    the text [name] is accepted, although the parsed value is no object
    and has no ['name'] field. *)
Theorem uppercase_should_process_accepts_json_string :
  json_loads (js "'username'") = Ok (PStr (str "username"))
  /\ (forall x, ~ has_field (PStr (str "username")) (str "name") x)
  /\ transform_uppercase_name.should_process (str "u1") (js "'username'")
     = Ok (PBool true).
Proof.
  split; [reflexivity|]. split; [|reflexivity].
  intros x (d & E & _). discriminate E.
Qed.

Lemma dict_set_keys (d : pydict) (k : pystr) (v x : pyval) :
  dict_lookup d k = Some x -> dict_keys (dict_set d k v) = dict_keys d.
Proof.
  induction d as [|[k' v'] d IH]; simpl; [discriminate|].
  destruct (str_eqb k' k); [reflexivity|].
  intros H. simpl. f_equal. now apply IH.
Qed.

Lemma dict_lookup_set_same (d : pydict) (k : pystr) (v : pyval) :
  dict_lookup (dict_set d k v) k = Some v.
Proof.
  induction d as [|[k' v'] d IH]; simpl.
  - now rewrite str_eqb_refl.
  - destruct (str_eqb k' k) eqn:E; simpl; rewrite E; auto.
Qed.

Lemma dict_lookup_set_other (d : pydict) (k k' : pystr) (v : pyval) :
  k' <> k -> dict_lookup (dict_set d k v) k' = dict_lookup d k'.
Proof.
  intros N. induction d as [|[k0 v0] d IH]; simpl.
  - apply str_eqb_neq in N. assert (str_eqb k k' = false) as ->.
    { apply str_eqb_neq. apply str_eqb_neq in N. congruence. }
    reflexivity.
  - destruct (str_eqb k0 k) eqn:E; simpl.
    + apply str_eqb_eq in E. subst k0.
      assert (str_eqb k k' = false) as -> by (apply str_eqb_neq; congruence).
      reflexivity.
    + destruct (str_eqb k0 k'); auto.
Qed.

(** C10, as stated, fails: when ['name'] holds a number, [.upper()] raises
    and the value comes back as it was, its ['name'] not upper-cased. *)
Lemma uppercase_name_number_left_alone :
  transform_uppercase_name.transform_value (str "u1") (js "{'name': 5}")
  = Ok (js "{'name': 5}")
  /\ ~ touches_only_name (str "u1") (js "{'name': 5}").
Proof.
  split; [reflexivity|]. intros H.
  destruct (H [(str "name", PInt 5)] eq_refl) as (d' & _ & _ & _ & Hn).
  destruct (Hn (PInt 5) eq_refl) as (s & E & _). discriminate E.
Qed.

(** C10 (amended): for a value that parses as a JSON object,
    [transform_value] of transform_uppercase_name.py returns the object
    itself when it has no ['name']; when ['name'] holds a string it returns
    the object with the same keys in the same order, every other field
    unchanged and ['name'] upper-cased; when ['name'] holds anything else it
    returns [value] unchanged. *)
Theorem uppercase_name_frame :
  forall (key value : pystr) (d : pydict),
    json_loads value = Ok (PDict d) ->
    match dict_lookup d (str "name") with
    | None =>
        transform_uppercase_name.transform_value key value
        = Ok (json_dumps (PDict d))
    | Some (PStr s) =>
        let d' := dict_set d (str "name") (PStr (str_upper s)) in
        transform_uppercase_name.transform_value key value
        = Ok (json_dumps (PDict d'))
        /\ dict_keys d' = dict_keys d
        /\ (forall k, k <> str "name" -> dict_lookup d' k = dict_lookup d k)
        /\ dict_lookup d' (str "name") = Some (PStr (str_upper s))
    | Some _ =>
        transform_uppercase_name.transform_value key value = Ok value
    end.
Proof.
  intros key value d L. unfold transform_uppercase_name.transform_value.
  rewrite L. cbn [bind py_in]. unfold dict_mem.
  destruct (dict_lookup d (str "name")) as [x|] eqn:E.
  - cbn [bind py_getitem]. rewrite E.
    destruct x as [| b | z | f | s | l | d0]; try reflexivity.
    cbn. repeat split.
    + eapply dict_set_keys; eauto.
    + intros k N. now apply dict_lookup_set_other.
    + apply dict_lookup_set_same.
  - reflexivity.
Qed.

Lemma uppercase_name_frame_witness :
  json_loads (js "{'id': 7, 'name': 'ann'}")
  = Ok (PDict [(str "id", PInt 7); (str "name", PStr (str "ann"))])
  /\ transform_uppercase_name.transform_value (str "u1")
       (js "{'id': 7, 'name': 'ann'}")
     = Ok (js "{'id': 7, 'name': 'ANN'}").
Proof.
  split; [reflexivity|].
  exact (proj1 (uppercase_name_frame (str "u1") (js "{'id': 7, 'name': 'ann'}")
                  [(str "id", PInt 7); (str "name", PStr (str "ann"))] eq_refl)).
Defined.

(** ** Determinism of the transforms *)


(** ** The fuel of [json.loads] is never exhausted *)

Lemma length_skip_ws (s : pystr) : (List.length (skip_ws s) <= List.length s)%nat.
Proof.
  induction s as [|c s IH]; [reflexivity|]. cbn [skip_ws].
  destruct (is_ws c); cbn [List.length]; lia.
Qed.

Lemma length_scanstring (n : nat) :
  forall (s acc k rest : pystr),
    (List.length s <= n)%nat ->
    scanstring s acc = Ok (k, rest) ->
    (List.length rest < List.length s)%nat.
Proof.
  induction n as [|n IH]; intros s acc k rest Len.
  - destruct s; [discriminate|cbn in Len; lia].
  - destruct s as [|c s1]; [discriminate|].
    cbn [List.length] in Len |- *. cbn [scanstring].
    destruct (N.eqb c 34); [intros [= _ <-]; lia|].
    destruct (is_char c "\").
    2:{ destruct (N.leb c 31); [discriminate|].
        intros H. apply IH in H; [lia|lia]. }
    destruct s1 as [|e s2]; [discriminate|]. cbn [List.length] in Len |- *.
    destruct (is_char e "u").
    2:{ destruct (backslash e); [|discriminate].
        intros H. apply IH in H; [lia|lia]. }
    destruct s2 as [|h1 [|h2 [|h3 [|h4 s3]]]]; try discriminate.
    cbn [List.length] in Len |- *.
    destruct (hex4 h1 h2 h3 h4) as [u1|]; [|discriminate].
    assert (Plain : scanstring s3 (u1 :: acc) = Ok (k, rest) ->
                    (List.length rest < S (S (S (S (S (S (List.length s3)))))))%nat).
    { intros H. apply IH in H; [lia|lia]. }
    destruct s3 as [|b [|u [|l1 [|l2 [|l3 [|l4 s4]]]]]]; try exact Plain.
    destruct (is_high_surrogate u1 && is_char b "\" && is_char u "u");
      [|exact Plain].
    destruct (hex4 l1 l2 l3 l4) as [u2|]; [|discriminate].
    destruct (is_low_surrogate u2); [|exact Plain].
    cbn [List.length] in Len |- *.
    intros H. apply IH in H; [lia|lia].
Qed.

Lemma length_span_digits (s : pystr) :
  (List.length (snd (span_digits s)) <= List.length s)%nat.
Proof.
  induction s as [|c s IH]; [reflexivity|]. cbn [span_digits].
  destruct (is_digit c); [|reflexivity].
  destruct (span_digits s). cbn [snd List.length] in *. lia.
Qed.

Lemma length_match_number (s : pystr) (v : pyval) (rest : pystr) :
  match_number s = Some (v, rest) -> (List.length rest < List.length s)%nat.
Proof.
  unfold match_number.
  set (p := match s with
            | c :: r => if is_char c "-" then (true, r) else (false, s)
            | [] => (false, s)
            end).
  assert (L1 : (List.length (snd p) <= List.length s)%nat).
  { subst p. destruct s as [|c r]; [reflexivity|].
    destruct (is_char c "-"); cbn [snd List.length]; lia. }
  destruct p as [neg s1]. cbn [snd] in L1.
  assert (L2 : forall ip s2, match_integer s1 = Some (ip, s2) ->
                 (List.length s2 < List.length s1)%nat).
  { intros ip s2. destruct s1 as [|c r]; [discriminate|]. cbn [match_integer].
    destruct (is_char c "0"); [intros [= _ <-]; cbn; lia|].
    destruct (is_digit c); [|discriminate].
    pose proof (length_span_digits r) as D.
    destruct (span_digits r). intros [= _ <-]. cbn [snd List.length] in *. lia. }
  destruct (match_integer s1) as [[ip s2]|]; [|discriminate].
  specialize (L2 ip s2 eq_refl).
  assert (L3 : (List.length (snd (match_frac s2)) <= List.length s2)%nat).
  { unfold match_frac. destruct s2 as [|d [|c r]]; try reflexivity.
    destruct (is_char d "." && is_digit c); [|reflexivity].
    cbn [tl]. pose proof (length_span_digits (c :: r)). cbn [List.length] in *. lia. }
  destruct (match_frac s2) as [fp s3]. cbn [snd] in L3.
  assert (L4 : (List.length (snd (match_exp s3)) <= List.length s3)%nat).
  { unfold match_exp. destruct s3 as [|e r]; [reflexivity|].
    destruct (is_char e "e" || is_char e "E"); [|reflexivity].
    set (q := match r with
              | sg :: r' =>
                  if is_char sg "-" then (true, r')
                  else if is_char sg "+" then (false, r') else (false, r)
              | [] => (false, r)
              end).
    assert (Lq : (List.length (snd q) <= List.length r)%nat).
    { subst q. destruct r as [|sg r']; [reflexivity|].
      destruct (is_char sg "-"); [cbn; lia|].
      destruct (is_char sg "+"); cbn; lia. }
    destruct q as [ng r1]. cbn [snd] in Lq.
    pose proof (length_span_digits r1) as D.
    destruct (span_digits r1) as [[|x ds] r2]; cbn [snd List.length] in *; lia. }
  destruct (match_exp s3) as [ex s4]. cbn [snd] in L4.
  destruct fp, ex; intros [= _ <-]; lia.
Qed.

(** Every parser consumes at least one character. *)
Lemma scan_once_consumes (fuel : nat) :
  (forall s v rest,
      scan_once fuel s = Ok (v, rest) -> (List.length rest < List.length s)%nat)
  /\ (forall s acc v rest,
        parse_object fuel acc s = Ok (v, rest) ->
        (List.length rest < List.length s)%nat)
  /\ (forall s acc v rest,
        parse_array fuel acc s = Ok (v, rest) ->
        (List.length rest < List.length s)%nat).
Proof.
  induction fuel as [|f (IHv & IHo & IHa)]; [repeat split; discriminate|].
  split; [|split].
  - intros s v rest. cbn [scan_once]. destruct s as [|c s']; [discriminate|].
    pose proof (length_skip_ws s') as Lk. cbn [List.length].
    destruct (N.eqb c 34).
    { destruct (scanstring s' []) as [[k r]|] eqn:SS; cbn [bind fst snd];
        [|discriminate].
      intros [= _ <-]. apply (length_scanstring _ _ _ _ _ (le_n _)) in SS. lia. }
    destruct (is_char c "{").
    { destruct (skip_ws s') as [|c1 r1]; [discriminate|].
      cbn [List.length] in Lk.
      destruct (is_char c1 "}"); [intros [= _ <-]; lia|].
      intros H. apply IHo in H. cbn [List.length] in H. lia. }
    destruct (is_char c "[").
    { destruct (skip_ws s') as [|c1 r1]; [discriminate|].
      cbn [List.length] in Lk.
      destruct (is_char c1 "]"); [intros [= _ <-]; lia|].
      intros H. apply IHa in H. cbn [List.length] in H. lia. }
    repeat (match goal with
            | |- context [if startswith ?a ?b then _ else _] =>
                destruct (startswith a b) eqn:?;
                [intros [= _ <-]; cbn [skipn];
                 repeat (match goal with
                         | |- context [match ?l with [] => _ | _ :: _ => _ end] =>
                             destruct l; cbn [List.length]; try lia
                         end); cbn [List.length]; lia|]
            end).
    destruct (match_number (c :: s')) as [[v' r']|] eqn:M; [|discriminate].
    intros [= _ <-]. apply length_match_number in M. cbn [List.length] in M. lia.
  - intros s acc v rest. cbn [parse_object].
    destruct s as [|q s1]; [discriminate|]. cbn [List.length].
    destruct (N.eqb q 34); [|discriminate].
    destruct (scanstring s1 []) as [[k r]|] eqn:SS; cbn [bind fst snd];
      [|discriminate].
    apply (length_scanstring _ _ _ _ _ (le_n _)) in SS.
    pose proof (length_skip_ws r) as Lk.
    destruct (skip_ws r) as [|c s2]; [discriminate|]. cbn [List.length] in Lk.
    destruct (is_char c ":"); [|discriminate].
    pose proof (length_skip_ws s2) as Lk2.
    destruct (scan_once f (skip_ws s2)) as [[x r2]|] eqn:SV; cbn [bind fst snd];
      [|discriminate].
    apply IHv in SV.
    pose proof (length_skip_ws r2) as Lk3.
    destruct (skip_ws r2) as [|c' s3]; [discriminate|]. cbn [List.length] in Lk3.
    destruct (is_char c' "}"); [intros [= _ <-]; lia|].
    destruct (is_char c' ","); [|discriminate].
    pose proof (length_skip_ws s3) as Lk4.
    intros H. apply IHo in H. lia.
  - intros s acc v rest. cbn [parse_array].
    destruct (scan_once f s) as [[x r]|] eqn:SV; cbn [bind fst snd];
      [|discriminate].
    apply IHv in SV.
    pose proof (length_skip_ws r) as Lk.
    destruct (skip_ws r) as [|c s1]; [discriminate|]. cbn [List.length] in Lk.
    destruct (is_char c "]"); [intros [= _ <-]; lia|].
    destruct (is_char c ","); [|discriminate].
    pose proof (length_skip_ws s1) as Lk2.
    intros H. apply IHa in H. lia.
Qed.

Lemma scanstring_decode_error (n : nat) :
  forall (s acc : pystr) (e : exn),
    (List.length s <= n)%nat -> scanstring s acc = Raise e ->
    e = JSONDecodeError.
Proof.
  induction n as [|n IH]; intros s acc x Len.
  - destruct s; [now intros [= <-]|cbn in Len; lia].
  - destruct s as [|c s1]; [now intros [= <-]|].
    cbn [List.length] in Len. cbn [scanstring].
    destruct (N.eqb c 34); [discriminate|].
    destruct (is_char c "\").
    2:{ destruct (N.leb c 31); [now intros [= <-]|]. apply IH. lia. }
    destruct s1 as [|e s2]; [now intros [= <-]|]. cbn [List.length] in Len.
    destruct (is_char e "u").
    2:{ destruct (backslash e); [|now intros [= <-]]. apply IH. lia. }
    destruct s2 as [|h1 [|h2 [|h3 [|h4 s3]]]]; try (now intros [= <-]).
    cbn [List.length] in Len.
    destruct (hex4 h1 h2 h3 h4) as [u1|]; [|now intros [= <-]].
    assert (Plain : scanstring s3 (u1 :: acc) = Raise x -> x = JSONDecodeError)
      by (apply IH; lia).
    destruct s3 as [|b [|u [|l1 [|l2 [|l3 [|l4 s4]]]]]]; try exact Plain.
    destruct (is_high_surrogate u1 && is_char b "\" && is_char u "u");
      [|exact Plain].
    destruct (hex4 l1 l2 l3 l4) as [u2|]; [|now intros [= <-]].
    destruct (is_low_surrogate u2); [|exact Plain].
    apply IH. cbn [List.length] in Len. lia.
Qed.

(** With fuel above twice the length of the text no parser runs out of it:
    the only exception is a decode error. *)
Lemma scan_once_fuel (fuel : nat) :
  (forall s e, (2 * List.length s + 1 <= fuel)%nat ->
               scan_once fuel s = Raise e -> e = JSONDecodeError)
  /\ (forall s acc e, (2 * List.length s + 2 <= fuel)%nat ->
                      parse_object fuel acc s = Raise e -> e = JSONDecodeError)
  /\ (forall s acc e, (2 * List.length s + 2 <= fuel)%nat ->
                      parse_array fuel acc s = Raise e -> e = JSONDecodeError).
Proof.
  induction fuel as [|f (IHv & IHo & IHa)];
    [repeat split; intros; lia|].
  split; [|split].
  - intros s e Len. cbn [scan_once]. destruct s as [|c s']; [now intros [= <-]|].
    pose proof (length_skip_ws s') as Lk. cbn [List.length] in Len.
    destruct (N.eqb c 34).
    { destruct (scanstring s' []) as [[k r]|e'] eqn:SS; cbn [bind];
        [discriminate|].
      intros [= <-]. apply (scanstring_decode_error _ s' [] _ (le_n _) SS). }
    destruct (is_char c "{").
    { destruct (skip_ws s') as [|c1 r1]; [now intros [= <-]|].
      cbn [List.length] in Lk.
      destruct (is_char c1 "}"); [discriminate|].
      apply IHo. cbn [List.length]. lia. }
    destruct (is_char c "[").
    { destruct (skip_ws s') as [|c1 r1]; [now intros [= <-]|].
      cbn [List.length] in Lk.
      destruct (is_char c1 "]"); [discriminate|].
      apply IHa. cbn [List.length]. lia. }
    repeat (match goal with
            | |- context [if startswith ?a ?b then _ else _] =>
                destruct (startswith a b); [discriminate|]
            end).
    destruct (match_number (c :: s')); [discriminate|now intros [= <-]].
  - intros s acc e Len. cbn [parse_object].
    destruct s as [|q s1]; [now intros [= <-]|]. cbn [List.length] in Len.
    destruct (N.eqb q 34); [|now intros [= <-]].
    destruct (scanstring s1 []) as [[k r]|e'] eqn:SS; cbn [bind fst snd].
    2:{ intros [= <-]. apply (scanstring_decode_error _ s1 [] _ (le_n _) SS). }
    apply (length_scanstring _ _ _ _ _ (le_n _)) in SS.
    pose proof (length_skip_ws r) as Lk.
    destruct (skip_ws r) as [|c s2]; [now intros [= <-]|].
    cbn [List.length] in Lk.
    destruct (is_char c ":"); [|now intros [= <-]].
    pose proof (length_skip_ws s2) as Lk2.
    destruct (scan_once f (skip_ws s2)) as [[x r2]|e'] eqn:SV; cbn [bind fst snd].
    2:{ intros [= <-]. apply (IHv (skip_ws s2) e' ltac:(lia) SV). }
    apply (proj1 (scan_once_consumes f)) in SV.
    pose proof (length_skip_ws r2) as Lk3.
    destruct (skip_ws r2) as [|c' s3]; [now intros [= <-]|].
    cbn [List.length] in Lk3.
    destruct (is_char c' "}"); [discriminate|].
    destruct (is_char c' ","); [|now intros [= <-]].
    pose proof (length_skip_ws s3) as Lk4.
    apply IHo. lia.
  - intros s acc e Len. cbn [parse_array].
    destruct (scan_once f s) as [[x r]|e'] eqn:SV; cbn [bind fst snd].
    2:{ intros [= <-]. apply (IHv s e' ltac:(lia) SV). }
    apply (proj1 (scan_once_consumes f)) in SV.
    pose proof (length_skip_ws r) as Lk.
    destruct (skip_ws r) as [|c s1]; [now intros [= <-]|].
    cbn [List.length] in Lk.
    destruct (is_char c "]"); [discriminate|].
    destruct (is_char c ","); [|now intros [= <-]].
    pose proof (length_skip_ws s1) as Lk2.
    apply IHa. lia.
Qed.

(** [json.loads] returns a document or raises a decode error: the fuel of
    the model never runs out. *)
Lemma json_loads_total (s : pystr) :
  (exists v, json_loads s = Ok v) \/ json_loads s = Raise JSONDecodeError.
Proof.
  unfold json_loads. destruct (startswith s [65279%N]); [now right|].
  pose proof (length_skip_ws s) as Lk.
  destruct (scan_once _ _) as [[v r]|e] eqn:SV; cbn [bind fst snd].
  - destruct (skip_ws r); [left; eauto | now right].
  - right. f_equal.
    apply (proj1 (scan_once_fuel (S (2 * List.length s))) (skip_ws s) e);
      [lia | exact SV].
Qed.

(** ** Strings survive [json.dumps] and [json.loads] *)

Lemma hex_digit_hex_char (n : N) : (n < 16)%N -> hex_digit (hex_char n) = Some n.
Proof.
  intros H. destruct n as [|p]; [reflexivity|].
  do 5 (try (destruct p as [p|p|]; try reflexivity; try lia)).
Qed.

Lemma hex4_u_escape (c : N) (t : pystr) :
  (c < 65536)%N ->
  exists h1 h2 h3 h4,
    u_escape c = [92; 117; h1; h2; h3; h4]%N /\ hex4 h1 h2 h3 h4 = Some c.
Proof.
  intros H. unfold u_escape. do 4 eexists. split; [reflexivity|].
  unfold hex4.
  rewrite !hex_digit_hex_char by (apply N.mod_lt; discriminate).
  f_equal.
  replace (c / 4096)%N with (c / 16 / 16 / 16)%N by (now rewrite !N.Div0.div_div).
  replace (c / 256)%N with (c / 16 / 16)%N by (now rewrite !N.Div0.div_div).
  zify. Z.to_euclidean_division_equations. lia.
Qed.

Ltac ndiv := zify; Z.to_euclidean_division_equations; lia.

Lemma scanstring_u_escape (c : N) (t acc : pystr) :
  (c < 65536)%N ->
  (is_high_surrogate c = true -> low_escape_free t = true) ->
  scanstring (u_escape c ++ t) acc = scanstring t (c :: acc).
Proof.
  intros Hc Hfree.
  destruct (hex4_u_escape c t Hc) as (h1 & h2 & h3 & h4 & -> & Hx).
  cbn [app]. cbn [scanstring].
  change (N.eqb 92 34) with false. change (is_char 92%N "\") with true.
  change (is_char 117%N "u") with true. cbv iota. rewrite Hx.
  destruct (is_high_surrogate c) eqn:Hh.
  - specialize (Hfree eq_refl).
    destruct t as [|b [|u [|l1 [|l2 [|l3 [|l4 s4]]]]]]; try reflexivity.
    cbn [low_escape_free] in Hfree. cbn [andb].
    destruct (is_char b "\" && is_char u "u"); [|reflexivity].
    destruct (hex4 l1 l2 l3 l4) as [u2|]; [|discriminate].
    apply negb_true_iff in Hfree. now rewrite Hfree.
  - destruct t as [|b [|u [|l1 [|l2 [|l3 [|l4 s4]]]]]]; reflexivity.
Qed.

Lemma scanstring_surrogate_pair (hi lo : N) (t acc : pystr) :
  is_high_surrogate hi = true -> is_low_surrogate lo = true ->
  scanstring (u_escape hi ++ u_escape lo ++ t) acc
  = scanstring t (join_surrogates hi lo :: acc).
Proof.
  intros Hh Hl.
  assert (Bh : (hi < 65536)%N).
  { unfold is_high_surrogate in Hh. apply andb_prop in Hh as [_ Hh].
    apply N.leb_le in Hh. lia. }
  assert (Bl : (lo < 65536)%N).
  { unfold is_low_surrogate in Hl. apply andb_prop in Hl as [_ Hl].
    apply N.leb_le in Hl. lia. }
  destruct (hex4_u_escape hi t Bh) as (h1 & h2 & h3 & h4 & -> & Hx).
  destruct (hex4_u_escape lo t Bl) as (l1 & l2 & l3 & l4 & -> & Hy).
  cbn [app]. cbn [scanstring].
  change (N.eqb 92 34) with false. change (is_char 92%N "\") with true.
  change (is_char 117%N "u") with true. cbv iota. rewrite Hx, Hh.
  cbn [andb]. cbv iota. rewrite Hy, Hl. reflexivity.
Qed.

Lemma scanstring_escape_char (c : codepoint) (t acc : pystr) :
  valid_cp c = true ->
  (is_high_surrogate c = true -> low_escape_free t = true) ->
  scanstring (escape_char c ++ t) acc = scanstring t (c :: acc).
Proof.
  intros Hv Hfree. unfold valid_cp in Hv. apply N.ltb_lt in Hv.
  unfold escape_char.
  destruct (N.eqb_spec c 34) as [->|N1]; [reflexivity|].
  unfold is_char at 1. destruct (N.eqb_spec c (cp "\")) as [->|N2]; [reflexivity|].
  destruct (N.eqb_spec c 10) as [->|N3]; [reflexivity|].
  destruct (N.eqb_spec c 13) as [->|N4]; [reflexivity|].
  destruct (N.eqb_spec c 9) as [->|N5]; [reflexivity|].
  destruct (N.eqb_spec c 8) as [->|N6]; [reflexivity|].
  destruct (N.eqb_spec c 12) as [->|N7]; [reflexivity|].
  destruct ((32 <=? c)%N && (c <=? 126)%N) eqn:Hp.
  - apply andb_prop in Hp as [Hp1 Hp2]. apply N.leb_le in Hp1.
    cbn [app scanstring].
    destruct (N.eqb_spec c 34) as [|_]; [contradiction|].
    unfold is_char. destruct (N.eqb_spec c (cp "\")) as [|_]; [contradiction|].
    destruct (N.leb_spec c 31) as [L|_]; [lia|]. reflexivity.
  - destruct (N.leb_spec 65536 c) as [Hbig|Hsmall].
    + rewrite <- app_assoc. rewrite scanstring_surrogate_pair.
      * f_equal. f_equal. unfold join_surrogates. ndiv.
      * unfold is_high_surrogate. apply andb_true_intro.
        split; apply N.leb_le; ndiv.
      * unfold is_low_surrogate. apply andb_true_intro.
        split; apply N.leb_le; ndiv.
    + apply scanstring_u_escape; assumption.
Qed.

Lemma low_escape_free_encoded (s rest : pystr) :
  forallb valid_cp s = true ->
  match s with c :: _ => is_low_surrogate c = false | [] => True end ->
  low_escape_free (flat_map escape_char s ++ 34%N :: rest) = true.
Proof.
  destruct s as [|c s'].
  - intros _ _. cbn [flat_map app].
    destruct rest as [|? [|? [|? [|? [|? ?]]]]]; reflexivity.
  - cbn [forallb flat_map]. intros Hv Hl. apply andb_prop in Hv as [Hv _].
    unfold valid_cp in Hv. apply N.ltb_lt in Hv.
    rewrite <- app_assoc.
    set (t := flat_map escape_char s' ++ 34%N :: rest).
    assert (T : exists x y, t = x :: y).
    { unfold t. destruct (flat_map escape_char s'); cbn; eauto. }
    clearbody t. unfold escape_char.
    assert (Two : forall x, is_char x "u" = false ->
                    low_escape_free ([cp "\"; x] ++ t) = true).
    { intros x Hx. cbn [app].
      destruct t as [|? [|? [|? [|? ?]]]]; try reflexivity.
      cbn [low_escape_free]. rewrite Hx. now rewrite andb_false_r. }
    destruct (N.eqb_spec c 34); [now apply Two|].
    unfold is_char at 1. destruct (N.eqb_spec c (cp "\")); [now apply Two|].
    destruct (N.eqb_spec c 10); [now apply Two|].
    destruct (N.eqb_spec c 13); [now apply Two|].
    destruct (N.eqb_spec c 9); [now apply Two|].
    destruct (N.eqb_spec c 8); [now apply Two|].
    destruct (N.eqb_spec c 12); [now apply Two|].
    assert (U : forall u, (u < 65536)%N -> is_low_surrogate u = false ->
                  forall t', low_escape_free (u_escape u ++ t') = true).
    { intros u Hu Hlow t'.
      destruct (hex4_u_escape u t' Hu) as (h1 & h2 & h3 & h4 & -> & Hx).
      cbn [app low_escape_free].
      change (is_char 92%N "\" && is_char 117%N "u") with true. cbv iota.
      now rewrite Hx, Hlow. }
    destruct ((32 <=? c)%N && (c <=? 126)%N) eqn:Hp.
    + cbn [app]. destruct T as (x & y & ->).
      destruct y as [|? [|? [|? [|? ?]]]]; try reflexivity.
      cbn [low_escape_free]. unfold is_char at 1.
      destruct (N.eqb_spec c (cp "\")); [contradiction|reflexivity].
    + destruct (N.leb_spec 65536 c) as [Hbig|Hsmall].
      * rewrite <- app_assoc. apply U; [ndiv|].
        unfold is_low_surrogate. apply andb_false_iff. left.
        apply N.leb_gt. ndiv.
      * apply U; assumption.
Qed.

Lemma scanstring_encoded (s : pystr) :
  forall (rest acc : pystr),
    str_ok s = true ->
    scanstring (flat_map escape_char s ++ 34%N :: rest) acc
    = Ok (List.rev acc ++ s, rest).
Proof.
  induction s as [|c s' IH]; intros rest acc Hok.
  - cbn. now rewrite app_nil_r.
  - unfold str_ok in Hok. apply andb_prop in Hok as [Hv Hp].
    cbn [forallb] in Hv. apply andb_prop in Hv as [Hc Hv'].
    cbn [flat_map]. rewrite <- app_assoc.
    rewrite scanstring_escape_char; [| exact Hc |].
    + rewrite IH.
      * cbn [List.rev]. now rewrite <- app_assoc.
      * unfold str_ok. rewrite Hv'. destruct s'; [reflexivity|].
        cbn [no_pair] in Hp. now apply andb_prop in Hp as [_ Hp].
    + intros Hh. apply low_escape_free_encoded; [exact Hv'|].
      destruct s' as [|b s'']; [exact I|].
      cbn [no_pair] in Hp. apply andb_prop in Hp as [Hp _].
      rewrite Hh in Hp. cbn in Hp. now apply negb_true_iff in Hp.
Qed.

(** ** Numbers survive [json.dumps] and [json.loads] *)

Lemma number_char_digit (c : codepoint) :
  number_char c = false -> is_digit c = false.
Proof. unfold number_char. rewrite !orb_false_iff. tauto. Qed.

Lemma span_digits_app (s rest : pystr) :
  no_number_ahead rest ->
  span_digits (s ++ rest) = (fst (span_digits s), snd (span_digits s) ++ rest).
Proof.
  intros H. induction s as [|c s IH]; cbn [app span_digits].
  - destruct rest as [|c r]; [reflexivity|].
    cbn [span_digits]. cbn in H. now rewrite (number_char_digit c H).
  - destruct (is_digit c); [|reflexivity].
    rewrite IH. now destruct (span_digits s).
Qed.

Lemma span_digits_nil (rest : pystr) :
  no_number_ahead rest -> span_digits rest = ([], rest).
Proof.
  intros H. destruct rest as [|c r]; [reflexivity|]. cbn [span_digits].
  cbn in H. now rewrite (number_char_digit c H).
Qed.

Lemma match_integer_app (s rest : pystr) :
  no_number_ahead rest ->
  match_integer (s ++ rest)
  = match match_integer s with
    | Some (a, r) => Some (a, r ++ rest)
    | None => None
    end.
Proof.
  intros H.
  assert (R : match_integer rest = None).
  { destruct rest as [|c' r]; [reflexivity|]. cbn [match_integer].
    cbn in H. assert (D := number_char_digit c' H).
    unfold is_char. destruct (N.eqb_spec c' (cp "0")) as [->|_];
      [discriminate|]. now rewrite D. }
  destruct s as [|c s]; [exact R|]. cbn [app match_integer].
  destruct (is_char c "0"); [reflexivity|].
  destruct (is_digit c); [|reflexivity].
  rewrite (span_digits_app s rest H). now destruct (span_digits s).
Qed.

Lemma match_frac_app (s rest : pystr) :
  no_number_ahead rest ->
  match_frac (s ++ rest) = (fst (match_frac s), snd (match_frac s) ++ rest).
Proof.
  intros H. destruct s as [|d [|c s]].
  - cbn [app]. destruct rest as [|d [|c r]]; try reflexivity.
    cbn in H. unfold number_char in H. rewrite !orb_false_iff in H.
    unfold match_frac. destruct H as [[[[[_ H] _] _] _] _]. now rewrite H.
  - cbn [app]. destruct rest as [|c r]; [reflexivity|].
    cbn in H. apply number_char_digit in H. unfold match_frac.
    now rewrite H, andb_false_r.
  - cbn [app]. unfold match_frac.
    destruct (is_char d "." && is_digit c); [|reflexivity].
    cbn [tl]. change (c :: s ++ rest) with ((c :: s) ++ rest).
    now rewrite span_digits_app.
Qed.

Lemma match_exp_app (s rest : pystr) :
  no_number_ahead rest ->
  match_exp (s ++ rest) = (fst (match_exp s), snd (match_exp s) ++ rest).
Proof.
  intros H.
  assert (NC : match rest with
               | c :: _ => is_char c "e" = false /\ is_char c "E" = false
                          /\ is_char c "+" = false /\ is_char c "-" = false
               | [] => True
               end).
  { destruct rest as [|c r]; [exact I|]. cbn in H. unfold number_char in H.
    rewrite !orb_false_iff in H. tauto. }
  destruct s as [|e r].
  - cbn [app]. destruct rest as [|c r]; [reflexivity|].
    unfold match_exp. destruct NC as (-> & -> & _). reflexivity.
  - cbn [app]. unfold match_exp.
    destruct (is_char e "e" || is_char e "E"); [|reflexivity].
    destruct r as [|sg r'].
    + cbn [app span_digits]. 
      assert (E : (let '(neg, r1) :=
                     match rest with
                     | sg :: r' =>
                         if is_char sg "-" then (true, r')
                         else if is_char sg "+" then (false, r')
                         else (false, rest)
                     | [] => (false, rest)
                     end in (neg, r1)) = (false, rest)).
      { destruct rest as [|c r]; [reflexivity|].
        destruct NC as (_ & _ & -> & ->). reflexivity. }
      destruct rest as [|c r]; [reflexivity|].
      destruct NC as (_ & _ & -> & ->).
      now rewrite (span_digits_nil (c :: r) H).
    + cbn [app].
      destruct (is_char sg "-"); [|destruct (is_char sg "+")].
      * rewrite (span_digits_app r' rest H).
        destruct (span_digits r') as [[|x ds] r2]; reflexivity.
      * rewrite (span_digits_app r' rest H).
        destruct (span_digits r') as [[|x ds] r2]; reflexivity.
      * change (sg :: r' ++ rest) with ((sg :: r') ++ rest).
        rewrite (span_digits_app (sg :: r') rest H).
        destruct (span_digits (sg :: r')) as [[|x ds] r2]; reflexivity.
Qed.

Lemma match_number_app (s rest : pystr) (v : pyval) (r : pystr) :
  no_number_ahead rest ->
  match_number s = Some (v, r) ->
  match_number (s ++ rest) = Some (v, r ++ rest).
Proof.
  intros H.
  assert (Body : forall (neg : bool) (s1 : pystr),
    match match_integer s1 with
    | None => None
    | Some (ip, s2) =>
        let '(fp, s3) := match_frac s2 in
        let '(ex, s4) := match_exp s3 in
        match fp, ex with
        | [], None =>
            Some (PInt (if neg then - nat_of_digits ip else nat_of_digits ip), s4)
        | _, _ =>
            let e := match ex with Some x => x | None => 0 end in
            Some (PFloat (float_of_decimal neg (nat_of_digits (ip ++ fp))
                            (e - Z.of_nat (List.length fp))), s4)
        end
    end = Some (v, r) ->
    match match_integer (s1 ++ rest) with
    | None => None
    | Some (ip, s2) =>
        let '(fp, s3) := match_frac s2 in
        let '(ex, s4) := match_exp s3 in
        match fp, ex with
        | [], None =>
            Some (PInt (if neg then - nat_of_digits ip else nat_of_digits ip), s4)
        | _, _ =>
            let e := match ex with Some x => x | None => 0 end in
            Some (PFloat (float_of_decimal neg (nat_of_digits (ip ++ fp))
                            (e - Z.of_nat (List.length fp))), s4)
        end
    end = Some (v, r ++ rest)).
  { intros neg s1. rewrite (match_integer_app s1 rest H).
    destruct (match_integer s1) as [[ip s2]|]; [|discriminate].
    rewrite (match_frac_app s2 rest H).
    destruct (match_frac s2) as [fp s3]. cbn [fst snd].
    rewrite (match_exp_app s3 rest H).
    destruct (match_exp s3) as [ex s4]. cbn [fst snd].
    destruct fp, ex; intros [= <- <-]; reflexivity. }
  destruct s as [|c s'].
  - discriminate.
  - unfold match_number. cbn [app].
    destruct (is_char c "-").
    + apply Body.
    + change (c :: s' ++ rest) with ((c :: s') ++ rest). apply Body.
Qed.

Lemma digits_of_uint_digits (u : Decimal.uint) :
  forallb is_digit (digits_of_uint u) = true.
Proof. induction u; cbn; auto. Qed.

Lemma uint_of_digits_of_uint (u : Decimal.uint) :
  uint_of_digits (digits_of_uint u) = u.
Proof. induction u; cbn; congruence. Qed.

Lemma span_digits_all (ds : pystr) :
  forallb is_digit ds = true -> span_digits ds = (ds, []).
Proof.
  induction ds as [|c ds IH]; [reflexivity|]. cbn [forallb span_digits].
  intros H. apply andb_prop in H as [-> H]. now rewrite (IH H).
Qed.

Lemma to_uint_no_leading_zero (p : positive) (k : Decimal.uint) :
  Pos.to_uint p <> Decimal.D0 k.
Proof.
  intros E.
  assert (U : Decimal.unorm (Pos.to_uint p) = Pos.to_uint p).
  { change (Pos.to_uint p) with (N.to_uint (Npos p)).
    rewrite <- (DecimalN.Unsigned.of_to (Npos p)) at 2.
    now rewrite DecimalN.Unsigned.to_of. }
  rewrite E in U. rewrite DecimalFacts.unorm_D0 in U.
  destruct k as [|k|k|k|k|k|k|k|k|k|k].
  - apply (DecimalPos.Unsigned.to_uint_nonzero p). exact E.
  - pose proof (DecimalFacts.nb_digits_unorm (Decimal.D0 k)) as L.
    rewrite U in L. cbn in L. specialize (L ltac:(discriminate)). lia.
  - pose proof (DecimalFacts.nb_digits_unorm (Decimal.D1 k)) as L.
    rewrite U in L. cbn in L. specialize (L ltac:(discriminate)). lia.
  - pose proof (DecimalFacts.nb_digits_unorm (Decimal.D2 k)) as L.
    rewrite U in L. cbn in L. specialize (L ltac:(discriminate)). lia.
  - pose proof (DecimalFacts.nb_digits_unorm (Decimal.D3 k)) as L.
    rewrite U in L. cbn in L. specialize (L ltac:(discriminate)). lia.
  - pose proof (DecimalFacts.nb_digits_unorm (Decimal.D4 k)) as L.
    rewrite U in L. cbn in L. specialize (L ltac:(discriminate)). lia.
  - pose proof (DecimalFacts.nb_digits_unorm (Decimal.D5 k)) as L.
    rewrite U in L. cbn in L. specialize (L ltac:(discriminate)). lia.
  - pose proof (DecimalFacts.nb_digits_unorm (Decimal.D6 k)) as L.
    rewrite U in L. cbn in L. specialize (L ltac:(discriminate)). lia.
  - pose proof (DecimalFacts.nb_digits_unorm (Decimal.D7 k)) as L.
    rewrite U in L. cbn in L. specialize (L ltac:(discriminate)). lia.
  - pose proof (DecimalFacts.nb_digits_unorm (Decimal.D8 k)) as L.
    rewrite U in L. cbn in L. specialize (L ltac:(discriminate)). lia.
  - pose proof (DecimalFacts.nb_digits_unorm (Decimal.D9 k)) as L.
    rewrite U in L. cbn in L. specialize (L ltac:(discriminate)). lia.
Qed.

Lemma nat_of_digits_of_nat (n : Z) :
  0 <= n -> nat_of_digits (digits_of_nat n) = n.
Proof.
  intros H. unfold nat_of_digits, digits_of_nat.
  rewrite uint_of_digits_of_uint, DecimalN.Unsigned.of_to. lia.
Qed.

(** The digits of a natural number form an integer literal. *)
Lemma match_integer_digits_of_nat (n : Z) :
  match_integer (digits_of_nat n) = Some (digits_of_nat n, []).
Proof.
  unfold digits_of_nat. destruct (Z.to_N n) as [|p]; [reflexivity|].
  cbn [N.to_uint].
  pose proof (to_uint_no_leading_zero p) as NZ.
  pose proof (DecimalPos.Unsigned.to_uint_nonnil p) as NN.
  pose proof (digits_of_uint_digits (Pos.to_uint p)) as D.
  destruct (Pos.to_uint p) as [|k|k|k|k|k|k|k|k|k|k];
    try congruence; try (exfalso; apply (NZ k); reflexivity);
    cbn [digits_of_uint forallb] in D |- *;
    apply andb_prop in D as [_ D];
    cbn [match_integer]; rewrite (span_digits_all _ D); reflexivity.
Qed.

Lemma head_digits_of_nat (n : Z) :
  exists c t, digits_of_nat n = c :: t /\ is_digit c = true.
Proof.
  pose proof (match_integer_digits_of_nat n) as M.
  destruct (digits_of_nat n) as [|c t] eqn:E; [discriminate|].
  exists c, t. split; [reflexivity|].
  pose proof (digits_of_uint_digits (N.to_uint (Z.to_N n))) as D.
  unfold digits_of_nat in E. rewrite E in D. cbn in D.
  now apply andb_prop in D as [D _].
Qed.

Lemma match_number_int_str (z : Z) :
  match_number (int_str z) = Some (PInt z, []).
Proof.
  unfold int_str, match_number. destruct (Z.ltb_spec z 0) as [L|L].
  - change (is_char 45%N "-") with true. cbv iota.
    rewrite match_integer_digits_of_nat. cbn.
    rewrite nat_of_digits_of_nat by lia. now rewrite Z.opp_involutive.
  - destruct (head_digits_of_nat z) as (c & t & E & D).
    rewrite E. unfold is_char.
    destruct (N.eqb_spec c (cp "-")) as [->|_]; [discriminate|].
    rewrite <- E, match_integer_digits_of_nat. cbn.
    now rewrite nat_of_digits_of_nat by lia.
Qed.

(** A number literal is read by [scan_once] as [match_number] reads it. *)
Lemma scan_once_number (fuel : nat) (s : pystr) (r : pyval * pystr) :
  match_number s = Some r -> scan_once (S fuel) s = Ok r.
Proof.
  intros M.
  assert (Hd : exists c t, s = c :: t
                 /\ (is_digit c = true
                     \/ (is_char c "-" = true
                         /\ exists c' t', t = c' :: t' /\ is_digit c' = true))).
  { unfold match_number in M. destruct s as [|c t]; [discriminate|].
    exists c, t. split; [reflexivity|].
    assert (MI : forall x, match_integer x <> None ->
                   exists c' t', x = c' :: t' /\ is_digit c' = true).
    { intros [|c' t'] Hx; [now elim Hx|]. exists c', t'. split; [reflexivity|].
      cbn [match_integer] in Hx. unfold is_char in Hx.
      destruct (N.eqb_spec c' (cp "0")) as [->|_]; [reflexivity|].
      destruct (is_digit c'); [reflexivity|now elim Hx]. }
    destruct (is_char c "-") eqn:Hm.
    - right. split; [reflexivity|]. apply MI.
      destruct (match_integer t); [discriminate|discriminate M].
    - left. destruct (MI (c :: t)) as (c' & t' & [= <- <-] & D); [|exact D].
      destruct (match_integer (c :: t)); [discriminate|discriminate M]. }
  destruct Hd as (c & t & -> & Hc).
  assert (ND : forall x, is_digit x = true ->
                 N.eqb x 34 = false /\ is_char x "{" = false
                 /\ is_char x "[" = false /\ N.eqb 110 x = false
                 /\ N.eqb 116 x = false /\ N.eqb 102 x = false
                 /\ N.eqb 78 x = false /\ N.eqb 73 x = false
                 /\ N.eqb 45 x = false).
  { intros x Hx. unfold is_digit in Hx. apply andb_prop in Hx as [H1 H2].
    apply N.leb_le in H1, H2. unfold is_char.
    repeat split; apply N.eqb_neq; cbn; lia. }
  cbn [scan_once]. destruct Hc as [Hc|(Hc & c' & t' & -> & Hc')].
  - destruct (ND c Hc) as (-> & -> & -> & N1 & N2 & N3 & N4 & N5 & N6).
    cbn [startswith str map list_ascii_of_string].
    change (cp "n") with 110%N. change (cp "t") with 116%N.
    change (cp "f") with 102%N. change (cp "N") with 78%N.
    change (cp "I") with 73%N. change (cp "-") with 45%N.
    rewrite N1, N2, N3, N4, N5, N6. cbn [andb]. now rewrite M.
  - destruct (ND c' Hc') as (_ & _ & _ & _ & _ & _ & _ & N5 & _).
    unfold is_char in Hc. apply N.eqb_eq in Hc.
    assert (F : N.eqb c 34 = false /\ is_char c "{" = false
                /\ is_char c "[" = false /\ N.eqb 110 c = false
                /\ N.eqb 116 c = false /\ N.eqb 102 c = false
                /\ N.eqb 78 c = false /\ N.eqb 73 c = false)
      by (subst c; repeat split).
    destruct F as (-> & -> & -> & F1 & F2 & F3 & F4 & F5).
    cbn [startswith str map list_ascii_of_string].
    change (cp "n") with 110%N. change (cp "t") with 116%N.
    change (cp "f") with 102%N. change (cp "N") with 78%N.
    change (cp "I") with 73%N.
    rewrite F1, F2, F3, F4, F5, N5. cbn [andb].
    rewrite andb_false_r. now rewrite M.
Qed.

(** ** Documents survive [json.dumps] and [json.loads] *)

(** Induction on documents, with the hypothesis for every item of a list
    and every field of an object. *)
Lemma pyval_induction (P : pyval -> Prop) :
  P PNone -> (forall b, P (PBool b)) -> (forall z, P (PInt z)) ->
  (forall f, P (PFloat f)) -> (forall s, P (PStr s)) ->
  (forall l, Forall P l -> P (PList l)) ->
  (forall d, Forall (fun kv => P (snd kv)) d -> P (PDict d)) ->
  forall v, P v.
Proof.
  intros HN HB HI HF HS HL HD.
  fix IH 1. intros [| b | z | f | s | l | d].
  - exact HN.
  - apply HB.
  - apply HI.
  - apply HF.
  - apply HS.
  - apply HL. induction l as [|x l IHl]; constructor; [apply IH | exact IHl].
  - apply HD. induction d as [|[k x] d IHd]; constructor; [apply IH | exact IHd].
Qed.

Lemma skip_ws_start (c : codepoint) (t : pystr) :
  is_ws c = false -> skip_ws (c :: t) = c :: t.
Proof. intros H. cbn [skip_ws]. now rewrite H. Qed.

Lemma digit_value_start (c : codepoint) : is_digit c = true -> value_start c.
Proof.
  unfold is_digit. intros H. apply andb_prop in H as [H1 H2].
  apply N.leb_le in H1, H2. unfold value_start, is_ws, is_char.
  repeat split; repeat (apply orb_false_iff; split); apply N.eqb_neq; cbn; lia.
Qed.

Lemma match_number_start (s : pystr) (r : pyval * pystr) :
  match_number s = Some r -> exists c t, s = c :: t /\ value_start c.
Proof.
  unfold match_number. destruct s as [|c t]; [discriminate|].
  intros M. exists c, t. split; [reflexivity|].
  unfold is_char in M. destruct (N.eqb_spec c (cp "-")) as [->|_].
  - repeat split.
  - apply digit_value_start. cbn [match_integer] in M.
    unfold is_char in M. destruct (N.eqb_spec c (cp "0")) as [->|_]; [reflexivity|].
    destruct (is_digit c); [reflexivity|discriminate].
Qed.

Lemma float_round_trips_number (f : spec_float) :
  float_round_trips f = true ->
  match f with
  | S754_nan | S754_infinity _ => True
  | _ => match_number (float_repr f) = Some (PFloat f, [])
  end.
Proof.
  assert (E : forall g, spec_float_eqb g f = true -> g = f).
  { intros g. destruct g as [s|s| |s m e], f as [s'|s'| |s' m' e']; cbn;
      try discriminate; try reflexivity.
    - intros H. apply eqb_prop in H. congruence.
    - intros H. apply eqb_prop in H. congruence.
    - intros H. apply andb_prop in H as [H H3]. apply andb_prop in H as [H1 H2].
      apply eqb_prop in H1. apply Pos.eqb_eq in H2. apply Z.eqb_eq in H3.
      congruence. }
  unfold float_round_trips. destruct f as [s|s| |s m e]; auto.
  - destruct (match_number _) as [[[| | |g| | |] [|]]|]; try discriminate.
    intros H. now rewrite (E g H).
  - destruct (match_number _) as [[[| | |g| | |] [|]]|]; try discriminate.
    intros H. now rewrite (E g H).
Qed.

Lemma json_dumps_start (v : pyval) :
  floats_ok v = true ->
  exists c t, json_dumps v = c :: t /\ value_start c.
Proof.
  destruct v as [| [|] | z | f | s | l | d]; intros F;
    try (do 2 eexists; split; [reflexivity|repeat split]).
  - destruct (match_number_start _ _ (match_number_int_str z)) as (c & t & E & S).
    cbn [json_dumps]. eauto.
  - cbn [floats_ok] in F. apply float_round_trips_number in F.
    destruct f as [s|[|]| |s m e];
      try (do 2 eexists; split; [reflexivity|repeat split]).
    + destruct (match_number_start _ _ F) as (c & t & E & S).
      cbn [json_dumps]. eauto.
    + destruct (match_number_start _ _ F) as (c & t & E & S).
      cbn [json_dumps]. eauto.
Qed.

Lemma delimited_no_number (rest : pystr) : delimited rest -> no_number_ahead rest.
Proof.
  destruct rest as [|c r]; [exact id|]. cbn. unfold is_char.
  intros [H|[H|H]]; apply N.eqb_eq in H; subst c; reflexivity.
Qed.

Lemma skip_ws_delimited (rest : pystr) : delimited rest -> skip_ws rest = rest.
Proof.
  destruct rest as [|c r]; [reflexivity|]. cbn [delimited]. unfold is_char.
  intros [H|[H|H]]; apply N.eqb_eq in H; subst c; reflexivity.
Qed.

Lemma length_join_comma_cons (x : pystr) (y : pystr) (more : list pystr) :
  List.length (join_comma (x :: y :: more))
  = (List.length x + 2 + List.length (join_comma (y :: more)))%nat.
Proof. cbn [join_comma]. rewrite length_app. cbn [List.length]. lia. Qed.

Lemma join_comma_cons (x y : pystr) (more : list pystr) :
  join_comma (x :: y :: more) = x ++ cp "," :: cp " " :: join_comma (y :: more).
Proof. reflexivity. Qed.

Section Items.
Variable P : pyval -> Prop.
Hypothesis P_reads :
  forall v, P v ->
    forall fuel rest,
      (List.length (json_dumps v) <= fuel)%nat -> delimited rest ->
      scan_once fuel (json_dumps v ++ rest) = Ok (v, rest).

(** The items of a list, read back by [parse_array]. *)
Lemma parse_array_items (items : list pyval) :
  Forall P items -> forallb floats_ok items = true ->
  forall (acc : list pyval) (fuel : nat) (rest : pystr),
    items <> [] ->
    (List.length (join_comma (map json_dumps items)) < fuel)%nat ->
    parse_array fuel acc (join_comma (map json_dumps items) ++ cp "]" :: rest)
    = Ok (PList (List.rev acc ++ items), rest).
Proof.
  induction items as [|x items IH]; intros HP HF acc fuel rest NE HL;
    [now elim NE|].
  inversion HP as [|? ? Px HP']; subst.
  cbn [forallb] in HF. apply andb_prop in HF as [Fx HF'].
  destruct fuel as [|f]; [lia|]. cbn [parse_array].
  destruct items as [|y more].
  - cbn [map join_comma] in *.
    rewrite (P_reads x Px f (cp "]" :: rest)); [| lia | cbn; auto].
    cbn [bind fst snd]. rewrite skip_ws_start by reflexivity.
    change (is_char (cp "]") "]") with true. cbv iota.
    cbn [List.rev]. reflexivity.
  - cbn [map] in HL |- *. rewrite length_join_comma_cons in HL.
    rewrite join_comma_cons, <- app_assoc. cbn [app].
    rewrite (P_reads x Px f); [| lia | cbn; auto].
    cbn [bind fst snd]. rewrite skip_ws_start by reflexivity.
    change (is_char (cp ",") "]") with false.
    change (is_char (cp ",") ",") with true. cbv iota.
    assert (SK : skip_ws (cp " " :: join_comma (json_dumps y :: map json_dumps more)
                            ++ cp "]" :: rest)
                 = join_comma (json_dumps y :: map json_dumps more)
                     ++ cp "]" :: rest).
    { cbn [skip_ws]. change (is_ws (cp " ")) with true. cbv iota.
      cbn [forallb] in HF'. apply andb_prop in HF' as [Fy _].
      destruct (json_dumps_start y Fy) as (c & t & E & S1 & _).
      destruct more; cbn [join_comma map]; rewrite E; cbn [app];
        now apply skip_ws_start. }
    rewrite SK.
    change (json_dumps y :: map json_dumps more) with (map json_dumps (y :: more)).
    rewrite (IH HP' HF' (x :: acc) f rest); [| discriminate | cbn [map]; lia].
    cbn [List.rev]. now rewrite <- app_assoc.
Qed.
End Items.

Lemma dict_set_fresh (acc : pydict) (k : pystr) (x : pyval) (more : pydict) :
  unique_keys (map fst (acc ++ (k, x) :: more)) = true ->
  dict_set acc k x = acc ++ [(k, x)].
Proof.
  induction acc as [|[k0 v0] acc IH]; [reflexivity|].
  cbn [app map fst unique_keys dict_set]. intros H.
  apply andb_prop in H as [H1 H2]. apply negb_true_iff in H1.
  rewrite map_app, existsb_app in H1. apply orb_false_iff in H1 as [_ H1].
  cbn [map fst existsb] in H1. apply orb_false_iff in H1 as [H1 _].
  rewrite H1. now rewrite (IH H2).
Qed.

Section Members.
Variable P : pyval -> Prop.
Hypothesis P_reads :
  forall v, P v ->
    forall fuel rest,
      (List.length (json_dumps v) <= fuel)%nat -> delimited rest ->
      scan_once fuel (json_dumps v ++ rest) = Ok (v, rest).

Lemma member_text (k : pystr) (x : pyval) (tail : pystr) :
  dumps_member (k, x) ++ tail
  = 34%N :: flat_map escape_char k
      ++ 34%N :: cp ":" :: cp " " :: json_dumps x ++ tail.
Proof.
  unfold dumps_member, encode_string. cbn [fst snd app].
  rewrite <- !app_assoc. reflexivity.
Qed.

Lemma length_member (k : pystr) (x : pyval) :
  (List.length (json_dumps x) + 4 <= List.length (dumps_member (k, x)))%nat.
Proof.
  unfold dumps_member, encode_string. cbn [fst snd].
  repeat (rewrite ?length_app; cbn [List.length]). lia.
Qed.

Lemma skip_space_value (x : pyval) (tail : pystr) :
  floats_ok x = true ->
  skip_ws (cp " " :: json_dumps x ++ tail) = json_dumps x ++ tail.
Proof.
  intros F. cbn [skip_ws]. change (is_ws (cp " ")) with true. cbv iota.
  destruct (json_dumps_start x F) as (c & t & E & S1 & _).
  rewrite E. cbn [app]. now apply skip_ws_start.
Qed.

(** The members of an object, read back by [parse_object]. *)
Lemma parse_object_members (members : pydict) :
  Forall (fun kv => P (snd kv)) members ->
  forallb (fun kv => str_ok (fst kv)) members = true ->
  forallb (fun kv => floats_ok (snd kv)) members = true ->
  forall (acc : pydict) (fuel : nat) (rest : pystr),
    members <> [] ->
    unique_keys (map fst (acc ++ members)) = true ->
    (List.length (join_comma (map dumps_member members)) < fuel)%nat ->
    parse_object fuel acc (join_comma (map dumps_member members) ++ cp "}" :: rest)
    = Ok (PDict (acc ++ members), rest).
Proof.
  induction members as [|[k x] members IH];
    intros HP HS HF acc fuel rest NE HU HL; [now elim NE|].
  inversion HP as [|? ? Px HP']; subst. cbn [snd] in Px.
  cbn [forallb fst] in HS. apply andb_prop in HS as [Sk HS'].
  cbn [forallb snd] in HF. apply andb_prop in HF as [Fx HF'].
  destruct fuel as [|f]; [lia|].
  pose proof (dict_set_fresh acc k x members HU) as DS.
  pose proof (length_member k x) as LM.
  destruct members as [|[k' x'] more].
  - cbn [map join_comma] in *. rewrite member_text.
    cbn [parse_object]. change (N.eqb 34 34) with true. cbv iota.
    rewrite scanstring_encoded by exact Sk.
    cbn [bind fst snd List.rev app]. rewrite skip_ws_start by reflexivity.
    change (is_char (cp ":") ":") with true. cbv iota.
    rewrite (skip_space_value x _ Fx).
    rewrite (P_reads x Px f); [| lia | cbn; auto].
    cbn [bind fst snd]. rewrite DS. rewrite skip_ws_start by reflexivity.
    change (is_char (cp "}") "}") with true. cbv iota. reflexivity.
  - cbn [map] in HL |- *. rewrite length_join_comma_cons in HL.
    rewrite join_comma_cons, <- app_assoc. cbn [app]. rewrite member_text.
    cbn [parse_object]. change (N.eqb 34 34) with true. cbv iota.
    rewrite scanstring_encoded by exact Sk.
    cbn [bind fst snd List.rev app]. rewrite skip_ws_start by reflexivity.
    change (is_char (cp ":") ":") with true. cbv iota.
    rewrite (skip_space_value x _ Fx).
    rewrite (P_reads x Px f); [| lia | cbn; auto].
    cbn [bind fst snd]. rewrite DS. rewrite skip_ws_start by reflexivity.
    change (is_char (cp ",") "}") with false.
    change (is_char (cp ",") ",") with true. cbv iota.
    assert (SK : forall tail,
               skip_ws (cp " " :: join_comma (dumps_member (k', x') :: map dumps_member more)
                          ++ tail)
               = join_comma (dumps_member (k', x') :: map dumps_member more) ++ tail).
    { intros tail. cbn [skip_ws]. change (is_ws (cp " ")) with true. cbv iota.
      destruct more; cbn [join_comma map]; unfold dumps_member at 1, encode_string;
        cbn [app]; now apply skip_ws_start. }
    rewrite SK.
    change (dumps_member (k', x') :: map dumps_member more)
      with (map dumps_member ((k', x') :: more)).
    rewrite (IH HP' HS' HF' (acc ++ [(k, x)]) f rest);
      [| discriminate | now rewrite <- app_assoc | cbn [map]; lia].
    now rewrite <- app_assoc.
Qed.
End Members.

Lemma Forall_reads_back (A : Type) (f : A -> pyval) (l : list A) :
  Forall (fun a => shape_ok (f a) = true -> floats_ok (f a) = true ->
                   reads_back (f a)) l ->
  forallb (fun a => shape_ok (f a)) l = true ->
  forallb (fun a => floats_ok (f a)) l = true ->
  Forall (fun a => reads_back (f a)) l.
Proof.
  induction 1 as [|a l Ha _ IH]; cbn [forallb]; intros S F; constructor.
  - apply andb_prop in S as [S _]. apply andb_prop in F as [F _]. auto.
  - apply andb_prop in S as [_ S]. apply andb_prop in F as [_ F]. auto.
Qed.

Lemma scan_once_dumps (v : pyval) :
  shape_ok v = true -> floats_ok v = true -> reads_back v.
Proof.
  induction v as [| b | z | f | s | l IH | d IH] using pyval_induction;
    intros HS HF fuel rest HL HR.
  - destruct fuel as [|fu]; [cbn in HL; lia|]. reflexivity.
  - destruct fuel as [|fu]; [destruct b; cbn in HL; lia|].
    destruct b; reflexivity.
  - pose proof (match_number_int_str z) as M.
    destruct (match_number_start _ _ M) as (c & t & E & _).
    destruct fuel as [|fu]; [cbn [json_dumps] in HL; rewrite E in HL; cbn in HL; lia|].
    apply scan_once_number. cbn [json_dumps].
    apply (match_number_app _ rest _ [] (delimited_no_number _ HR) M).
  - cbn [floats_ok] in HF. apply float_round_trips_number in HF.
    assert (N : forall g, json_dumps (PFloat f) = float_repr g ->
                  match_number (float_repr g) = Some (PFloat g, []) ->
                  scan_once fuel (float_repr g ++ rest) = Ok (PFloat g, rest)).
    { intros g Eg M. destruct (match_number_start _ _ M) as (c & t & E & _).
      destruct fuel as [|fu]; [rewrite Eg, E in HL; cbn in HL; lia|].
      apply scan_once_number.
      apply (match_number_app _ rest _ [] (delimited_no_number _ HR) M). }
    destruct f as [sg|sg| |sg m e]; cbn [json_dumps].
    + apply N; [reflexivity | exact HF].
    + destruct fuel as [|fu]; [destruct sg; cbn in HL; lia|].
      destruct sg; reflexivity.
    + destruct fuel as [|fu]; [cbn in HL; lia|]. reflexivity.
    + apply N; [reflexivity | exact HF].
  - destruct fuel as [|fu]; [cbn in HL; lia|].
    cbn [json_dumps]. unfold encode_string. cbn [app scan_once].
    change (N.eqb 34 34) with true. cbv iota.
    rewrite <- app_assoc. cbn [app].
    rewrite scanstring_encoded by exact HS. reflexivity.
  - cbn [shape_ok] in HS. cbn [floats_ok] in HF.
    pose proof (Forall_reads_back _ (fun x => x) l IH HS HF) as R.
    destruct fuel as [|fu]; [cbn in HL; lia|].
    cbn [json_dumps] in HL |- *. cbn [List.length] in HL.
    rewrite length_app in HL. cbn [List.length] in HL.
    cbn [app scan_once]. change (N.eqb (cp "[") 34) with false.
    change (is_char (cp "[") "{") with false.
    change (is_char (cp "[") "[") with true. cbv iota.
    rewrite <- app_assoc. cbn [app].
    destruct l as [|x l']; [reflexivity|].
    assert (Fx : floats_ok x = true)
      by (cbn [forallb] in HF; now apply andb_prop in HF as [Fx _]).
    pose proof (parse_array_items reads_back (fun v H => H) (x :: l') R HF
                  [] fu rest ltac:(discriminate) ltac:(lia)) as PA.
    destruct (json_dumps_start x Fx) as (c & t & E & S1 & _ & S3 & _).
    assert (J : exists t', join_comma (map json_dumps (x :: l')) = c :: t').
    { cbn [map]. destruct (map json_dumps l'); cbn [join_comma]; rewrite E;
        cbn [app]; eauto. }
    destruct J as (t' & J). rewrite J in PA |- *. cbn [app] in PA |- *.
    rewrite skip_ws_start by exact S1. rewrite S3. exact PA.
  - cbn [shape_ok] in HS. apply andb_prop in HS as [HU HS].
    cbn [floats_ok] in HF.
    assert (HK : forallb (fun kv => str_ok (fst kv)) d = true).
    { clear - HS. induction d as [|kv d IHd]; [reflexivity|].
      cbn [forallb] in HS |- *. apply andb_prop in HS as [H1 H2].
      apply andb_prop in H1 as [H1 _]. rewrite H1. now apply IHd. }
    assert (HV : forallb (fun kv => shape_ok (snd kv)) d = true).
    { clear - HS. induction d as [|kv d IHd]; [reflexivity|].
      cbn [forallb] in HS |- *. apply andb_prop in HS as [H1 H2].
      apply andb_prop in H1 as [_ H1]. rewrite H1. now apply IHd. }
    pose proof (Forall_reads_back _ snd d IH HV HF) as R.
    destruct fuel as [|fu]; [cbn in HL; lia|].
    cbn [json_dumps] in HL |- *. cbn [List.length] in HL.
    rewrite length_app in HL. cbn [List.length] in HL.
    cbn [app scan_once]. change (N.eqb (cp "{") 34) with false.
    change (is_char (cp "{") "{") with true. cbv iota.
    rewrite <- app_assoc. cbn [app].
    destruct d as [|[k x] d']; [reflexivity|].
    pose proof (parse_object_members reads_back (fun v H => H) ((k, x) :: d')
                  R HK HF [] fu rest ltac:(discriminate) HU) as PO.
    cbv zeta in PO. apply le_S_n in HL. rewrite Nat.add_1_r in HL.
    specialize (PO HL).
    match goal with |- context [skip_ws (?J ++ _)] => set (txt := J) end.
    assert (PO' : parse_object fu [] (txt ++ cp "}" :: rest)
                  = Ok (PDict ((k, x) :: d'), rest)) by exact PO.
    assert (J : exists t', txt = 34%N :: t').
    { subst txt. cbn [map]. destruct (map _ d'); cbn [join_comma];
        unfold encode_string; cbn [fst app]; eauto. }
    destruct J as (t' & J). rewrite J in PO' |- *. cbn [app] in PO' |- *.
    rewrite skip_ws_start by reflexivity.
    change (is_char 34%N "}") with false. cbv iota. exact PO'.
Qed.

(** [json.loads(json.dumps(v)) == v] for a well-formed document. *)
Lemma json_loads_dumps (v : pyval) :
  shape_ok v = true -> floats_ok v = true ->
  json_loads (json_dumps v) = Ok v.
Proof.
  intros HS HF. unfold json_loads.
  destruct (json_dumps_start v HF) as (c & t & E & S1 & S2 & _).
  pose proof (scan_once_dumps v HS HF (S (2 * List.length (json_dumps v))) []
                ltac:(lia) I) as R.
  rewrite app_nil_r in R. rewrite E in R |- *.
  cbn [startswith]. rewrite S2. cbn [andb].
  rewrite skip_ws_start by exact S1. rewrite R. reflexivity.
Qed.

(** ** [str.upper] *)

Lemma upper_table_ok : forallb upper_entry_ok upper_table = true.
Proof. vm_compute. reflexivity. Qed.

Lemma upper_cp_cases (c : codepoint) :
  upper_cp c = [c]
  \/ (exists e, In e upper_table /\ fst e = c /\ upper_cp c = snd e).
Proof.
  unfold upper_cp.
  destruct (find (fun e => N.eqb (fst e) c) upper_table) as [e|] eqn:F;
    [right|left; auto].
  apply find_some in F as [I E]. apply N.eqb_eq in E. eauto.
Qed.

Lemma upper_entry (e : codepoint * pystr) :
  In e upper_table -> upper_entry_ok e = true.
Proof.
  intros I. pose proof upper_table_ok as T.
  rewrite forallb_forall in T. now apply T.
Qed.

Lemma upper_cp_idempotent (c : codepoint) :
  flat_map upper_cp (upper_cp c) = upper_cp c.
Proof.
  destruct (upper_cp_cases c) as [E|(e & I & <- & E)].
  - rewrite E. cbn. now rewrite E.
  - rewrite E. pose proof (upper_entry e I) as O. unfold upper_entry_ok in O.
    apply andb_prop in O as [_ O]. now apply str_eqb_eq in O.
Qed.

Lemma str_upper_idempotent (s : pystr) : str_upper (str_upper s) = str_upper s.
Proof.
  unfold str_upper. induction s as [|c s IH]; [reflexivity|].
  cbn [flat_map]. rewrite flat_map_app, IH. now rewrite upper_cp_idempotent.
Qed.

Lemma surrogate_high (c : codepoint) :
  is_surrogate c = false -> is_high_surrogate c = false.
Proof.
  unfold is_surrogate, is_high_surrogate. rewrite !andb_false_iff, !N.leb_gt.
  intros [H|H]; [left|right]; lia.
Qed.

Lemma surrogate_low (c : codepoint) :
  is_surrogate c = false -> is_low_surrogate c = false.
Proof.
  unfold is_surrogate, is_low_surrogate. rewrite !andb_false_iff, !N.leb_gt.
  intros [H|H]; [left|right]; lia.
Qed.

Lemma upper_cp_surrogate (c : codepoint) :
  is_surrogate c = true -> upper_cp c = [c].
Proof.
  intros S. destruct (upper_cp_cases c) as [E|(e & I & <- & E)]; [exact E|].
  pose proof (upper_entry e I) as O. unfold upper_entry_ok in O.
  apply andb_prop in O as [O _]. apply andb_prop in O as [O _].
  apply andb_prop in O as [O _]. now rewrite S in O.
Qed.

Lemma upper_cp_scalar (c : codepoint) :
  is_surrogate c = false ->
  forallb (fun x => negb (is_surrogate x)) (upper_cp c) = true.
Proof.
  intros S. destruct (upper_cp_cases c) as [E|(e & I & <- & E)]; rewrite E.
  - cbn. now rewrite S.
  - pose proof (upper_entry e I) as O. unfold upper_entry_ok in O.
    apply andb_prop in O as [O _]. apply andb_prop in O as [_ O].
    rewrite forallb_forall in O |- *. intros x Hx.
    specialize (O x Hx). now apply andb_prop in O as [_ O].
Qed.

Lemma upper_cp_valid (c : codepoint) :
  valid_cp c = true -> forallb valid_cp (upper_cp c) = true.
Proof.
  intros V. destruct (upper_cp_cases c) as [E|(e & I & <- & E)]; rewrite E.
  - cbn. now rewrite V.
  - pose proof (upper_entry e I) as O. unfold upper_entry_ok in O.
    apply andb_prop in O as [O _]. apply andb_prop in O as [_ O].
    rewrite forallb_forall in O |- *. intros x Hx.
    specialize (O x Hx). now apply andb_prop in O as [O _].
Qed.

Lemma upper_cp_nonempty (c : codepoint) : upper_cp c <> [].
Proof.
  destruct (upper_cp_cases c) as [E|(e & I & <- & E)]; rewrite E; [discriminate|].
  pose proof (upper_entry e I) as O. unfold upper_entry_ok in O.
  apply andb_prop in O as [O _]. apply andb_prop in O as [O _].
  apply andb_prop in O as [_ O]. destruct (snd e); [discriminate|discriminate].
Qed.

Lemma no_pair_scalar_prefix (l t : pystr) :
  forallb (fun x => negb (is_surrogate x)) l = true ->
  no_pair (l ++ t) = no_pair t.
Proof.
  induction l as [|a l IH]; [reflexivity|]. cbn [forallb app].
  intros H. apply andb_prop in H as [Ha Hl]. apply negb_true_iff in Ha.
  rewrite <- (IH Hl). cbn [no_pair].
  destruct (l ++ t) as [|b r] eqn:E; [reflexivity|].
  now rewrite (surrogate_high a Ha).
Qed.

Lemma str_upper_head_low (s : pystr) (b : codepoint) (t : pystr) :
  str_upper s = b :: t -> is_low_surrogate b = true ->
  exists s', s = b :: s'.
Proof.
  destruct s as [|c s']; [discriminate|]. unfold str_upper. cbn [flat_map].
  intros E L. destruct (is_surrogate c) eqn:S.
  - rewrite (upper_cp_surrogate c S) in E. cbn in E. injection E as -> _. eauto.
  - pose proof (upper_cp_scalar c S) as U. pose proof (upper_cp_nonempty c) as NE.
    destruct (upper_cp c) as [|x u]; [now elim NE|].
    cbn in E. injection E as -> _. cbn in U. apply andb_prop in U as [U _].
    apply negb_true_iff in U. now rewrite (surrogate_low b U) in L.
Qed.

Lemma str_upper_ok (s : pystr) : str_ok s = true -> str_ok (str_upper s) = true.
Proof.
  unfold str_ok. intros H. apply andb_prop in H as [V P].
  apply andb_true_intro. split.
  - clear P. unfold str_upper. induction s as [|c s IH]; [reflexivity|].
    cbn [forallb flat_map] in V |- *. apply andb_prop in V as [Vc V].
    rewrite forallb_app, (upper_cp_valid c Vc). now apply IH.
  - clear V. induction s as [|a s IH]; [reflexivity|].
    assert (Ps : no_pair s = true).
    { destruct s; [reflexivity|]. cbn [no_pair] in P.
      now apply andb_prop in P as [_ P]. }
    specialize (IH Ps).
    change (str_upper (a :: s)) with (upper_cp a ++ str_upper s).
    destruct (is_surrogate a) eqn:S.
    + rewrite (upper_cp_surrogate a S). cbn [app no_pair].
      destruct (str_upper s) as [|b t] eqn:E; [reflexivity|].
      rewrite IH, andb_true_r. apply negb_true_iff.
      destruct (is_high_surrogate a) eqn:Hh; [|reflexivity].
      destruct (is_low_surrogate b) eqn:Hl; [|reflexivity].
      destruct (str_upper_head_low s b t E Hl) as (s' & ->).
      cbn [no_pair] in P. now rewrite Hh, Hl in P.
    + rewrite (no_pair_scalar_prefix _ _ (upper_cp_scalar a S)). exact IH.
Qed.

(** ** The uppercase-name transform on a parsed document *)

Lemma uppercase_transform_value_unfold (key value : pystr) :
  transform_uppercase_name.transform_value key value
  = try_except
      (data <- json_loads value ;;
       data <- upper_name data ;;
       Ok (json_dumps data))
      (Ok value).
Proof.
  unfold transform_uppercase_name.transform_value, upper_name.
  destruct (json_loads value) as [v|e]; [|reflexivity]. cbn [bind].
  destruct (py_in (str "name") v) as [b|e]; reflexivity.
Qed.

Lemma dict_set_same (d : pydict) (k : pystr) (v : pyval) :
  dict_lookup d k = Some v -> dict_set d k v = d.
Proof.
  induction d as [|[k' v'] d IH]; cbn [dict_lookup dict_set]; [discriminate|].
  destruct (str_eqb k' k).
  - now intros [= ->].
  - intros H. now rewrite (IH H).
Qed.

Lemma dict_set_entries (Q : pystr * pyval -> bool) (d : pydict) (k : pystr)
    (v x : pyval) :
  dict_lookup d k = Some x ->
  (forall k', Q (k', x) = true -> Q (k', v) = true) ->
  forallb Q d = true -> forallb Q (dict_set d k v) = true.
Proof.
  intros L HQ. induction d as [|[k' v'] d IH]; [discriminate|].
  cbn [dict_lookup dict_set forallb] in L |- *.
  intros H. apply andb_prop in H as [H1 H2].
  destruct (str_eqb k' k).
  - injection L as ->. cbn [forallb]. now rewrite (HQ k' H1), H2.
  - cbn [forallb]. rewrite H1. now apply IH.
Qed.

Lemma dict_lookup_entry (Q : pystr * pyval -> bool) (d : pydict) (k : pystr)
    (x : pyval) :
  dict_lookup d k = Some x -> forallb Q d = true -> exists k', Q (k', x) = true.
Proof.
  induction d as [|[k' v'] d IH]; [discriminate|].
  cbn [dict_lookup forallb]. intros L H. apply andb_prop in H as [H1 H2].
  destruct (str_eqb k' k); [injection L as ->; eauto | now apply IH].
Qed.

Lemma upper_name_fixed (v v' : pyval) :
  upper_name v = Ok v' ->
  shape_ok v = true -> floats_ok v = true ->
  shape_ok v' = true /\ floats_ok v' = true /\ upper_name v' = Ok v'.
Proof.
  unfold upper_name. destruct v as [| b | z | f | s | l | d]; try discriminate.
  - cbn [py_in bind]. destruct (str_contains s (str "name")) eqn:C;
      [discriminate|]. intros [= <-] HS HF. cbn [py_in bind]. now rewrite C.
  - cbn [py_in bind]. destruct (existsb _ l) eqn:C; [discriminate|].
    intros [= <-] HS HF. cbn [py_in bind]. now rewrite C.
  - cbn [py_in bind]. unfold dict_mem.
    destruct (dict_lookup d (str "name")) as [x|] eqn:L.
    + cbn [py_getitem bind]. rewrite L.
      destruct x as [| b | z | f | s | l | d0]; try discriminate.
      cbn [py_upper bind py_setitem]. intros [= <-] HS HF.
      cbn [shape_ok] in HS. apply andb_prop in HS as [HU HE].
      cbn [floats_ok] in HF.
      pose proof (dict_lookup_set_same d (str "name") (PStr (str_upper s))) as L'.
      repeat split.
      * cbn [shape_ok]. apply andb_true_intro. split.
        -- change (map fst (dict_set d (str "name") (PStr (str_upper s))))
             with (dict_keys (dict_set d (str "name") (PStr (str_upper s)))).
           now rewrite (dict_set_keys d _ _ _ L).
        -- apply (dict_set_entries _ d _ _ _ L); [|exact HE].
           intros k' Hk. cbn [fst snd shape_ok] in Hk |- *.
           apply andb_prop in Hk as [-> Hs]. cbn [andb].
           now apply str_upper_ok.
      * cbn [floats_ok]. apply (dict_set_entries _ d _ _ _ L); [|exact HF].
        reflexivity.
      * cbn [py_in bind]. unfold dict_mem. rewrite L'.
        cbn [py_getitem bind]. rewrite L'. cbn [py_upper bind py_setitem].
        rewrite str_upper_idempotent. now rewrite (dict_set_same _ _ _ L').
    + intros [= <-] HS HF. cbn [py_in bind]. unfold dict_mem. now rewrite L.
Qed.

(** Idempotence from the well-formedness of the parsed document. *)
Lemma uppercase_idempotent_parsed (key value : pystr) :
  (forall v, json_loads value = Ok v ->
             shape_ok v = true /\ floats_ok v = true) ->
  idempotent_on key value.
Proof.
  intros W r. rewrite !uppercase_transform_value_unfold.
  destruct (json_loads value) as [v|e] eqn:L.
  - destruct (W v eq_refl) as [HS HF]. cbn [bind].
    destruct (upper_name v) as [v'|e] eqn:U.
    + cbn [bind try_except]. intros [= <-].
      destruct (upper_name_fixed v v' U HS HF) as (HS' & HF' & U').
      rewrite (json_loads_dumps v' HS' HF'). cbn [bind]. rewrite U'. reflexivity.
    + cbn [bind try_except]. intros [= <-]. rewrite L. cbn [bind].
      rewrite U. reflexivity.
  - cbn [bind try_except]. intros [= <-]. rewrite L. reflexivity.
Qed.

(** ** What [json.loads] makes of well-formed text *)

Lemma no_pair_snoc (l : pystr) (x : codepoint) :
  no_pair l = true ->
  (forall l' a, l = l' ++ [a] -> is_high_surrogate a = true ->
                is_low_surrogate x = false) ->
  no_pair (l ++ [x]) = true.
Proof.
  induction l as [|a l IH]; [reflexivity|]. intros P H.
  destruct l as [|b r].
  - cbn. destruct (is_high_surrogate a) eqn:Hh; [|reflexivity].
    now rewrite (H [] a eq_refl Hh).
  - cbn [no_pair] in P. apply andb_prop in P as [P1 P2].
    change ((a :: b :: r) ++ [x]) with (a :: b :: (r ++ [x])).
    cbn [no_pair]. rewrite P1. cbn [andb].
    change (b :: r ++ [x]) with ((b :: r) ++ [x]). apply IH; [exact P2|].
    intros l' a' E. apply (H (a :: l') a'). now rewrite E.
Qed.

Lemma push_ok (acc : pystr) (x : codepoint) :
  str_ok (List.rev acc) = true -> valid_cp x = true ->
  (last_high acc = true -> is_low_surrogate x = false) ->
  str_ok (List.rev (x :: acc)) = true.
Proof.
  unfold str_ok. intros H V L. apply andb_prop in H as [HV HP].
  cbn [List.rev]. apply andb_true_intro. split.
  - rewrite forallb_app, HV. cbn. now rewrite V.
  - apply no_pair_snoc; [exact HP|]. intros l' a E Hh. apply L.
    destruct acc as [|a0 acc']; [now destruct l'|].
    cbn [List.rev] in E. apply app_inj_tail in E as [_ ->]. exact Hh.
Qed.

Lemma scalar_not_low (x : codepoint) :
  is_surrogate x = false ->
  is_low_surrogate x = false /\ is_high_surrogate x = false.
Proof. intros H. split; [now apply surrogate_low | now apply surrogate_high]. Qed.

Lemma backslash_scalar (e x : codepoint) :
  backslash e = Some x -> valid_cp x = true /\ is_surrogate x = false.
Proof.
  unfold backslash.
  repeat (match goal with |- context [if ?b then _ else _] => destruct b end;
          [intros [= <-]; split; reflexivity|]).
  discriminate.
Qed.

Lemma hex_digit_bound (c : codepoint) (n : N) :
  hex_digit c = Some n -> (n < 16)%N.
Proof.
  unfold hex_digit, is_digit.
  destruct (N.leb_spec 48 c), (N.leb_spec c 57); cbn [andb].
  all: try (intros [= <-]; lia).
  all: destruct (N.leb_spec 97 c), (N.leb_spec c 102); cbn [andb].
  all: try (intros [= <-]; lia).
  all: destruct (N.leb_spec 65 c), (N.leb_spec c 70); cbn [andb].
  all: try (intros [= <-]; lia); discriminate.
Qed.

Lemma hex4_bound (a b c d : codepoint) (u : N) :
  hex4 a b c d = Some u -> (u < 65536)%N.
Proof.
  unfold hex4.
  destruct (hex_digit a) as [x|] eqn:A; [|discriminate].
  destruct (hex_digit b) as [y|] eqn:B; [|discriminate].
  destruct (hex_digit c) as [z|] eqn:C; [|discriminate].
  destruct (hex_digit d) as [w|] eqn:D; [|discriminate].
  apply hex_digit_bound in A, B, C, D. intros [= <-]. lia.
Qed.

Lemma scalar_text_tail (c : codepoint) (s : pystr) :
  scalar_text (c :: s) = true ->
  valid_cp c = true /\ is_surrogate c = false /\ scalar_text s = true.
Proof.
  unfold scalar_text. cbn [forallb]. intros H.
  apply andb_prop in H as [H1 H2]. apply andb_prop in H1 as [H1 H3].
  apply negb_true_iff in H3. auto.
Qed.

(** The invariant of [scanstring]: what has been decoded is well formed,
    and a high surrogate decoded last is not followed by the escape of a
    low one. *)
Lemma scanstring_ok (n : nat) :
  forall (s acc k rest : pystr),
    (List.length s <= n)%nat ->
    scalar_text s = true ->
    str_ok (List.rev acc) = true ->
    (last_high acc = true -> low_escape_free s = true) ->
    scanstring s acc = Ok (k, rest) ->
    str_ok k = true /\ scalar_text rest = true.
Proof.
  induction n as [|n IH]; intros s acc k rest Len Sc Ok1 Inv.
  - destruct s; [discriminate|cbn in Len; lia].
  - destruct s as [|c s1]; [discriminate|].
    destruct (scalar_text_tail c s1 Sc) as (Vc & Nc & Sc1).
    cbn [List.length] in Len. cbn [scanstring].
    destruct (N.eqb c 34) eqn:Q.
    { intros [= <- <-]. auto. }
    destruct (is_char c "\") eqn:B.
    2:{ destruct (N.leb c 31); [discriminate|].
        apply (IH s1 (c :: acc)); [lia | exact Sc1 | |].
        - apply push_ok; auto. intros _. now apply surrogate_low.
        - cbn [last_high]. now rewrite (surrogate_high c Nc). }
    destruct s1 as [|e s2]; [discriminate|].
    destruct (scalar_text_tail e s2 Sc1) as (Ve & Ne & Sc2).
    cbn [List.length] in Len.
    destruct (is_char e "u") eqn:U.
    2:{ destruct (backslash e) as [x|] eqn:BS; [|discriminate].
        destruct (backslash_scalar e x BS) as (Vx & Nx).
        apply (IH s2 (x :: acc)); [lia | exact Sc2 | |].
        - apply push_ok; auto. intros _. now apply surrogate_low.
        - cbn [last_high]. now rewrite (surrogate_high x Nx). }
    destruct s2 as [|h1 [|h2 [|h3 [|h4 s3]]]]; try discriminate.
    destruct (hex4 h1 h2 h3 h4) as [u1|] eqn:HX; [|discriminate].
    pose proof (hex4_bound _ _ _ _ _ HX) as Bu1.
    assert (Sc3 : scalar_text s3 = true).
    { unfold scalar_text in Sc2 |- *. cbn [forallb] in Sc2.
      repeat (apply andb_prop in Sc2 as [_ Sc2]). exact Sc2. }
    assert (Vu1 : valid_cp u1 = true) by (unfold valid_cp; apply N.ltb_lt; lia).
    assert (Push1 : str_ok (List.rev (u1 :: acc)) = true).
    { apply push_ok; auto. intros LH. specialize (Inv LH).
      cbn [low_escape_free] in Inv. rewrite B, U, HX in Inv. cbn [andb] in Inv.
      now apply negb_true_iff in Inv. }
    cbn [List.length] in Len.
    assert (Plain : (is_high_surrogate u1 = true -> low_escape_free s3 = true) ->
              scanstring s3 (u1 :: acc) = Ok (k, rest) ->
              str_ok k = true /\ scalar_text rest = true).
    { intros LF. apply (IH s3 (u1 :: acc)); [lia | exact Sc3 | exact Push1 |].
      cbn [last_high]. exact LF. }
    destruct s3 as [|b [|u [|l1 [|l2 [|l3 [|l4 s4]]]]]];
      try (apply Plain; reflexivity).
    destruct (is_high_surrogate u1 && is_char b "\" && is_char u "u") eqn:Cond.
    2:{ apply Plain. intros Hh. cbn [low_escape_free].
        rewrite Hh in Cond. cbn [andb] in Cond. now rewrite Cond. }
    apply andb_prop in Cond as [Cond Cu]. apply andb_prop in Cond as [Hh Cb].
    destruct (hex4 l1 l2 l3 l4) as [u2|] eqn:HY; [|discriminate].
    destruct (is_low_surrogate u2) eqn:Hl.
    2:{ apply Plain. intros _. cbn [low_escape_free].
        now rewrite Cb, Cu, HY, Hl. }
    assert (J : (65536 <= join_surrogates u1 u2 < 1114112)%N).
    { unfold join_surrogates. unfold is_high_surrogate in Hh.
      unfold is_low_surrogate in Hl.
      apply andb_prop in Hh as [A1 A2]. apply andb_prop in Hl as [A3 A4].
      apply N.leb_le in A1, A2, A3, A4. lia. }
    assert (Nj : is_surrogate (join_surrogates u1 u2) = false).
    { unfold is_surrogate. apply andb_false_iff. right. apply N.leb_gt. lia. }
    apply (IH s4 (join_surrogates u1 u2 :: acc)).
    + cbn [List.length] in Len. lia.
    + unfold scalar_text in Sc3 |- *. cbn [forallb] in Sc3.
      repeat (apply andb_prop in Sc3 as [_ Sc3]). exact Sc3.
    + apply push_ok; auto.
      * unfold valid_cp. apply N.ltb_lt. lia.
      * intros _. now apply surrogate_low.
    + cbn [last_high]. now rewrite (surrogate_high _ Nj).
Qed.

Lemma scalar_text_skip_ws (s : pystr) :
  scalar_text s = true -> scalar_text (skip_ws s) = true.
Proof.
  induction s as [|c s IH]; [reflexivity|]. intros H. cbn [skip_ws].
  destruct (is_ws c); [|exact H].
  apply IH. now apply scalar_text_tail in H as (_ & _ & H).
Qed.

Lemma scalar_text_skipn (n : nat) (s : pystr) :
  scalar_text s = true -> scalar_text (skipn n s) = true.
Proof.
  revert s. induction n as [|n IH]; intros s H; [exact H|].
  destruct s as [|c s]; [reflexivity|]. cbn [skipn]. apply IH.
  now apply scalar_text_tail in H as (_ & _ & H).
Qed.

Lemma scalar_text_span_digits (s : pystr) :
  scalar_text s = true -> scalar_text (snd (span_digits s)) = true.
Proof.
  induction s as [|c s IH]; [reflexivity|]. intros H. cbn [span_digits].
  destruct (is_digit c); [|exact H].
  apply scalar_text_tail in H as (_ & _ & H). specialize (IH H).
  now destruct (span_digits s).
Qed.

Lemma match_number_ok (s : pystr) (v : pyval) (rest : pystr) :
  scalar_text s = true -> match_number s = Some (v, rest) ->
  shape_ok v = true /\ scalar_text rest = true.
Proof.
  intros Sc. unfold match_number.
  set (p := match s with
            | c :: r => if is_char c "-" then (true, r) else (false, s)
            | [] => (false, s)
            end).
  assert (S1 : scalar_text (snd p) = true).
  { subst p. destruct s as [|c r]; [exact Sc|].
    destruct (is_char c "-"); [|exact Sc].
    now apply scalar_text_tail in Sc as (_ & _ & Sc). }
  destruct p as [neg s1]. cbn [snd] in S1.
  assert (S2 : forall ip s2, match_integer s1 = Some (ip, s2) ->
                 scalar_text s2 = true).
  { intros ip s2. destruct s1 as [|c r]; [discriminate|]. cbn [match_integer].
    apply scalar_text_tail in S1 as (_ & _ & S1).
    destruct (is_char c "0"); [now intros [= _ <-]|].
    destruct (is_digit c); [|discriminate].
    pose proof (scalar_text_span_digits r S1) as D.
    destruct (span_digits r). now intros [= _ <-]. }
  destruct (match_integer s1) as [[ip s2]|]; [|discriminate].
  specialize (S2 ip s2 eq_refl).
  assert (S3 : scalar_text (snd (match_frac s2)) = true).
  { unfold match_frac. destruct s2 as [|d [|c r]]; try exact S2.
    destruct (is_char d "." && is_digit c); [|exact S2].
    cbn [tl]. apply scalar_text_span_digits.
    now apply scalar_text_tail in S2 as (_ & _ & S2). }
  destruct (match_frac s2) as [fp s3]. cbn [snd] in S3.
  assert (S4 : scalar_text (snd (match_exp s3)) = true).
  { unfold match_exp. destruct s3 as [|e r]; [exact S3|].
    destruct (is_char e "e" || is_char e "E"); [|exact S3].
    assert (Sr : scalar_text r = true)
      by now apply scalar_text_tail in S3 as (_ & _ & S3).
    set (q := match r with
              | sg :: r' =>
                  if is_char sg "-" then (true, r')
                  else if is_char sg "+" then (false, r') else (false, r)
              | [] => (false, r)
              end).
    assert (Sq : scalar_text (snd q) = true).
    { subst q. destruct r as [|sg r']; [exact Sr|].
      assert (Sr' : scalar_text r' = true)
        by now apply scalar_text_tail in Sr as (_ & _ & Sr).
      destruct (is_char sg "-"); [exact Sr'|].
      destruct (is_char sg "+"); [exact Sr'|exact Sr]. }
    destruct q as [ng r1]. cbn [snd] in Sq.
    pose proof (scalar_text_span_digits r1 Sq) as D.
    destruct (span_digits r1) as [[|x ds] r2]; [exact S3|exact D]. }
  destruct (match_exp s3) as [ex s4]. cbn [snd] in S4.
  destruct fp, ex; intros [= <- <-]; auto.
Qed.

Lemma existsb_keys_dict_set (d : pydict) (k k0 : pystr) (v : pyval) :
  str_eqb k0 k = false ->
  existsb (str_eqb k0) (map fst (dict_set d k v))
  = existsb (str_eqb k0) (map fst d).
Proof.
  intros N. induction d as [|[k' v'] d IH]; cbn [dict_set map fst existsb].
  - now rewrite N.
  - destruct (str_eqb k' k); cbn [map fst existsb]; [reflexivity|].
    now rewrite IH.
Qed.

Lemma unique_keys_dict_set (d : pydict) (k : pystr) (v : pyval) :
  unique_keys (map fst d) = true ->
  unique_keys (map fst (dict_set d k v)) = true.
Proof.
  induction d as [|[k' v'] d IH]; [reflexivity|].
  cbn [dict_set map fst unique_keys]. intros H.
  apply andb_prop in H as [H1 H2].
  destruct (str_eqb k' k) eqn:E; cbn [map fst unique_keys].
  - now rewrite H1, H2.
  - rewrite (existsb_keys_dict_set d k k' v E), H1. now apply IH.
Qed.

Lemma shape_entries_dict_set (d : pydict) (k : pystr) (v : pyval) :
  str_ok k = true -> shape_ok v = true ->
  forallb (fun kv => str_ok (fst kv) && shape_ok (snd kv)) d = true ->
  forallb (fun kv => str_ok (fst kv) && shape_ok (snd kv)) (dict_set d k v) = true.
Proof.
  intros Hk Hv. induction d as [|[k' v'] d IH]; cbn [dict_set forallb fst snd].
  - intros _. now rewrite Hk, Hv.
  - intros H. apply andb_prop in H as [H1 H2].
    apply andb_prop in H1 as [H1 H3].
    destruct (str_eqb k' k); cbn [forallb fst snd].
    + now rewrite H1, Hv, H2.
    + rewrite H1, H3. now apply IH.
Qed.

Lemma shape_ok_dict_set (d : pydict) (k : pystr) (v : pyval) :
  shape_ok (PDict d) = true -> str_ok k = true -> shape_ok v = true ->
  shape_ok (PDict (dict_set d k v)) = true.
Proof.
  cbn [shape_ok]. intros H Hk Hv. apply andb_prop in H as [H1 H2].
  apply andb_true_intro. split.
  - now apply unique_keys_dict_set.
  - now apply shape_entries_dict_set.
Qed.

(** Every value [scan_once] returns on well-formed text is well shaped,
    and what is left of the text is well formed. *)
Lemma scan_once_ok (fuel : nat) :
  (forall s v rest,
      scalar_text s = true -> scan_once fuel s = Ok (v, rest) ->
      shape_ok v = true /\ scalar_text rest = true)
  /\ (forall s acc v rest,
        scalar_text s = true -> shape_ok (PDict acc) = true ->
        parse_object fuel acc s = Ok (v, rest) ->
        shape_ok v = true /\ scalar_text rest = true)
  /\ (forall s acc v rest,
        scalar_text s = true -> forallb shape_ok acc = true ->
        parse_array fuel acc s = Ok (v, rest) ->
        shape_ok v = true /\ scalar_text rest = true).
Proof.
  induction fuel as [|f (IHv & IHo & IHa)]; [repeat split; discriminate|].
  split; [|split].
  - intros s v rest Sc. cbn [scan_once].
    destruct s as [|c s']; [discriminate|].
    pose proof (scalar_text_tail c s' Sc) as (_ & _ & Sc').
    pose proof (scalar_text_skip_ws s' Sc') as Sk.
    destruct (N.eqb c 34).
    { destruct (scanstring s' []) as [[k r]|] eqn:SS; cbn [bind fst snd];
        [|discriminate].
      intros [= <- <-].
      apply (scanstring_ok _ s' [] k r (le_n _) Sc' eq_refl); [discriminate|exact SS]. }
    destruct (is_char c "{").
    { destruct (skip_ws s') as [|c1 r1]; [discriminate|].
      destruct (is_char c1 "}").
      - intros [= <- <-]. split; [reflexivity|].
        now apply scalar_text_tail in Sk as (_ & _ & Sk).
      - apply IHo; [exact Sk|reflexivity]. }
    destruct (is_char c "[").
    { destruct (skip_ws s') as [|c1 r1]; [discriminate|].
      destruct (is_char c1 "]").
      - intros [= <- <-]. split; [reflexivity|].
        now apply scalar_text_tail in Sk as (_ & _ & Sk).
      - apply IHa; [exact Sk|reflexivity]. }
    repeat (match goal with
            | |- context [if startswith ?a ?b then _ else _] =>
                destruct (startswith a b);
                [intros [= <- <-]; split;
                 [reflexivity
                 | first [ exact (scalar_text_skipn 3 _ Sc)
                         | exact (scalar_text_skipn 4 _ Sc)
                         | exact (scalar_text_skipn 5 _ Sc)
                         | exact (scalar_text_skipn 8 _ Sc)
                         | exact (scalar_text_skipn 9 _ Sc) ]]|]
            end).
    destruct (match_number (c :: s')) as [[v' r']|] eqn:M; [|discriminate].
    intros [= <- <-]. apply (match_number_ok _ _ _ Sc M).
  - intros s acc v rest Sc Acc. cbn [parse_object].
    destruct s as [|q s1]; [discriminate|].
    pose proof (scalar_text_tail q s1 Sc) as (_ & _ & Sc1).
    destruct (N.eqb q 34); [|discriminate].
    destruct (scanstring s1 []) as [[k r]|] eqn:SS; cbn [bind fst snd];
      [|discriminate].
    destruct (scanstring_ok _ s1 [] k r (le_n _) Sc1 eq_refl
                ltac:(discriminate) SS) as (Kok & Sr).
    cbn [bind fst snd].
    pose proof (scalar_text_skip_ws r Sr) as Sk.
    destruct (skip_ws r) as [|c s2]; [discriminate|].
    destruct (is_char c ":"); [|discriminate].
    apply scalar_text_tail in Sk as (_ & _ & Sk).
    pose proof (scalar_text_skip_ws s2 Sk) as Sk2.
    destruct (scan_once f (skip_ws s2)) as [[x r2]|] eqn:SV; cbn [bind fst snd];
      [|discriminate].
    destruct (IHv _ _ _ Sk2 SV) as (Xok & Sr2).
    cbn [bind fst snd].
    pose proof (scalar_text_skip_ws r2 Sr2) as Sk3.
    destruct (skip_ws r2) as [|c' s3]; [discriminate|].
    apply scalar_text_tail in Sk3 as (_ & _ & Sk3).
    pose proof (shape_ok_dict_set acc k x Acc Kok Xok) as Acc'.
    destruct (is_char c' "}"); [intros [= <- <-]; auto|].
    destruct (is_char c' ","); [|discriminate].
    apply IHo; [now apply scalar_text_skip_ws | exact Acc'].
  - intros s acc v rest Sc Acc. cbn [parse_array].
    destruct (scan_once f s) as [[x r]|] eqn:SV; cbn [bind fst snd];
      [|discriminate].
    destruct (IHv _ _ _ Sc SV) as (Xok & Sr).
    cbn [bind fst snd].
    pose proof (scalar_text_skip_ws r Sr) as Sk.
    destruct (skip_ws r) as [|c s1]; [discriminate|].
    apply scalar_text_tail in Sk as (_ & _ & Sk).
    assert (Acc' : forallb shape_ok (x :: acc) = true)
      by (cbn [forallb]; now rewrite Xok, Acc).
    destruct (is_char c "]").
    + intros [= <- <-]. split; [|exact Sk]. cbn [shape_ok].
      rewrite forallb_forall in Acc' |- *. intros y Hy. apply Acc'.
      now apply in_rev.
    + destruct (is_char c ","); [|discriminate].
      apply IHa; [now apply scalar_text_skip_ws | exact Acc'].
Qed.

Lemma json_loads_shape_ok (value : pystr) (v : pyval) :
  scalar_text value = true -> json_loads value = Ok v -> shape_ok v = true.
Proof.
  intros Sc. unfold json_loads.
  destruct (startswith value [65279%N]); [discriminate|].
  destruct (scan_once _ _) as [[x r]|] eqn:SV; cbn [bind fst snd];
    [|discriminate].
  destruct (skip_ws r); [|discriminate].
  intros [= <-].
  now apply (proj1 (scan_once_ok _) _ _ _ (scalar_text_skip_ws _ Sc) SV).
Qed.

(** On well-formed text whose ['name'] holds a string, the result of the
    uppercase-name transform parses back as the object with ['name']
    upper-cased. *)
Lemma uppercase_name_result_parses (key value : pystr) (d : pydict) (s : pystr) :
  scalar_text value = true ->
  json_loads value = Ok (PDict d) ->
  floats_ok (PDict d) = true ->
  dict_lookup d (str "name") = Some (PStr s) ->
  exists r,
    transform_uppercase_name.transform_value key value = Ok r
    /\ json_loads r = Ok (PDict (dict_set d (str "name") (PStr (str_upper s)))).
Proof.
  intros Sc L F N.
  pose proof (json_loads_shape_ok value _ Sc L) as Sh.
  assert (U : upper_name (PDict d)
              = Ok (PDict (dict_set d (str "name") (PStr (str_upper s))))).
  { unfold upper_name. cbn [py_in bind]. unfold dict_mem. rewrite N.
    cbn [py_getitem bind]. now rewrite N. }
  destruct (upper_name_fixed _ _ U Sh F) as (Sh' & F' & _).
  exists (json_dumps (PDict (dict_set d (str "name") (PStr (str_upper s))))).
  split.
  - rewrite uppercase_transform_value_unfold, L. cbn [bind]. now rewrite U.
  - now apply json_loads_dumps.
Qed.

(** ** Idempotence of the uppercase-name transform *)

(** C4, as stated, fails: a high surrogate next to an escaped low one is
    left alone by [upper] the first time, written by [json.dumps] as two
    escapes, read back as the single letter U+104D8 and upper-cased to
    U+104B0 the second time. *)
Lemma uppercase_not_idempotent_on_split_pair :
  transform_uppercase_name.transform_value (str "u1") split_pair_value
  = Ok (js "{'name': '\ud801\udcd8'}")
  /\ transform_uppercase_name.transform_value (str "u1")
       (js "{'name': '\ud801\udcd8'}")
     = Ok (js "{'name': '\ud801\udcb0'}")
  /\ ~ idempotent_on (str "u1") split_pair_value.
Proof.
  assert (A : transform_uppercase_name.transform_value (str "u1") split_pair_value
              = Ok (js "{'name': '\ud801\udcd8'}")) by (vm_compute; reflexivity).
  assert (B : transform_uppercase_name.transform_value (str "u1")
                (js "{'name': '\ud801\udcd8'}")
              = Ok (js "{'name': '\ud801\udcb0'}")) by (vm_compute; reflexivity).
  split; [exact A|]. split; [exact B|].
  intros H. specialize (H _ A). rewrite B in H. vm_compute in H. discriminate H.
Qed.

(** C4 (amended): on every value that is well-formed Unicode text (code
    points in range, no surrogate) and whose floats are reproduced by
    [repr], applying [transform_value] of transform_uppercase_name.py to
    its own result returns that result. *)
Theorem uppercase_name_idempotent :
  forall key value : pystr,
    scalar_text value = true ->
    (forall v, json_loads value = Ok v -> floats_ok v = true) ->
    idempotent_on key value.
Proof.
  intros key value Sc Fl. apply uppercase_idempotent_parsed.
  intros v L. split; [exact (json_loads_shape_ok value v Sc L) | exact (Fl v L)].
Qed.

Lemma uppercase_name_idempotent_witness :
  let value := js "{'name': 'ann', 'score': 1.5}" in
  scalar_text value = true
  /\ (forall v, json_loads value = Ok v -> floats_ok v = true)
  /\ transform_uppercase_name.transform_value (str "u1") value
     = Ok (js "{'name': 'ANN', 'score': 1.5}")
  /\ transform_uppercase_name.transform_value (str "u1")
       (js "{'name': 'ANN', 'score': 1.5}")
     = Ok (js "{'name': 'ANN', 'score': 1.5}").
Proof.
  intros value.
  assert (Sc : scalar_text value = true) by reflexivity.
  assert (Fl : forall v, json_loads value = Ok v -> floats_ok v = true).
  { intros v L. vm_compute in L. injection L as <-. vm_compute. reflexivity. }
  assert (T : transform_uppercase_name.transform_value (str "u1") value
              = Ok (js "{'name': 'ANN', 'score': 1.5}")) by (vm_compute; reflexivity).
  split; [exact Sc|]. split; [exact Fl|]. split; [exact T|].
  exact (uppercase_name_idempotent (str "u1") value Sc Fl _ T).
Defined.

(** * Further properties of the scripts *)

(** ** The kind of value each parser returns *)

Lemma parse_object_dict (fuel : nat) :
  forall (s : pystr) (acc : pydict) (v : pyval) (rest : pystr),
    parse_object fuel acc s = Ok (v, rest) ->
    unique_keys (map fst acc) = true ->
    exists d, v = PDict d /\ unique_keys (map fst d) = true.
Proof.
  induction fuel as [|f IH]; intros s acc v rest; [discriminate|].
  cbn [parse_object]. destruct s as [|q s1]; [discriminate|].
  destruct (N.eqb q 34); [|discriminate].
  destruct (scanstring s1 []) as [[k r]|]; cbn [bind fst snd]; [|discriminate].
  destruct (skip_ws r) as [|c s2]; [discriminate|].
  destruct (is_char c ":"); [|discriminate].
  destruct (scan_once f (skip_ws s2)) as [[x r2]|]; cbn [bind fst snd];
    [|discriminate].
  destruct (skip_ws r2) as [|c' s3]; [discriminate|].
  intros H U. pose proof (unique_keys_dict_set acc k x U) as U'.
  destruct (is_char c' "}"); [injection H as <- _; eauto|].
  destruct (is_char c' ","); [|discriminate].
  apply (IH _ _ _ _ H U').
Qed.

Lemma parse_array_list (fuel : nat) :
  forall (s : pystr) (acc : list pyval) (v : pyval) (rest : pystr),
    parse_array fuel acc s = Ok (v, rest) -> exists l, v = PList l.
Proof.
  induction fuel as [|f IH]; intros s acc v rest; [discriminate|].
  cbn [parse_array].
  destruct (scan_once f s) as [[x r]|]; cbn [bind fst snd]; [|discriminate].
  destruct (skip_ws r) as [|c s1]; [discriminate|].
  destruct (is_char c "]"); [intros [= <- _]; eauto|].
  destruct (is_char c ","); [|discriminate].
  apply IH.
Qed.

Lemma match_number_kind (s : pystr) (v : pyval) (rest : pystr) :
  match_number s = Some (v, rest) ->
  (exists z, v = PInt z) \/ (exists f, v = PFloat f).
Proof.
  unfold match_number.
  destruct (match s with
            | c :: r => if is_char c "-" then (true, r) else (false, s)
            | [] => (false, s)
            end) as [neg s1].
  destruct (match_integer s1) as [[ip s2]|]; [|discriminate].
  destruct (match_frac s2) as [fp s3]. destruct (match_exp s3) as [ex s4].
  destruct fp, ex; intros [= <- _]; eauto.
Qed.

(** An object returned by [scan_once] has no repeated key. *)
Lemma scan_once_dict_unique (fuel : nat) (s : pystr) (d : pydict) (rest : pystr) :
  scan_once fuel s = Ok (PDict d, rest) -> unique_keys (map fst d) = true.
Proof.
  destruct fuel as [|f]; [discriminate|]. cbn [scan_once].
  destruct s as [|c s']; [discriminate|].
  destruct (N.eqb c 34).
  { destruct (scanstring s' []) as [[k r]|]; cbn [bind fst snd]; discriminate. }
  destruct (is_char c "{").
  { destruct (skip_ws s') as [|c1 r1]; [discriminate|].
    destruct (is_char c1 "}"); [now intros [= <- _]|].
    intros H. destruct (parse_object_dict _ _ _ _ _ H eq_refl) as (d' & E & U).
    now injection E as ->. }
  destruct (is_char c "[").
  { destruct (skip_ws s') as [|c1 r1]; [discriminate|].
    destruct (is_char c1 "]"); [discriminate|].
    intros H. destruct (parse_array_list _ _ _ _ _ H) as (l & E). discriminate. }
  repeat (match goal with
          | |- context [if startswith ?a ?b then _ else _] =>
              destruct (startswith a b); [discriminate|]
          end).
  destruct (match_number (c :: s')) as [[v' r']|] eqn:M; [|discriminate].
  intros [= -> _]. destruct (match_number_kind _ _ _ M) as [[z E]|[f0 E]];
    discriminate.
Qed.

Lemma json_loads_dict_unique (value : pystr) (d : pydict) :
  json_loads value = Ok (PDict d) -> unique_keys (map fst d) = true.
Proof.
  unfold json_loads. destruct (startswith value [65279%N]); [discriminate|].
  destruct (scan_once _ _) as [[v r]|] eqn:SV; cbn [bind fst snd];
    [|discriminate].
  destruct (skip_ws r); [|discriminate]. intros [= ->].
  apply (scan_once_dict_unique _ _ _ _ SV).
Qed.

(** ** flatten_nested_json.py *)

Lemma unique_keys_prefix_fresh (l1 l2 : pydict) (k : pystr) (v : pyval) :
  unique_keys (map fst (l1 ++ (k, v) :: l2)) = true ->
  forallb (fun kv => negb (str_eqb (fst kv) k)) l1 = true.
Proof.
  induction l1 as [|[k0 v0] l1 IH]; [reflexivity|].
  cbn [app map fst unique_keys forallb]. intros H.
  apply andb_prop in H as [H1 H2]. apply negb_true_iff in H1.
  rewrite map_app, existsb_app in H1. apply orb_false_iff in H1 as [_ H1].
  cbn [map fst existsb] in H1. apply orb_false_iff in H1 as [H1 _].
  rewrite H1. cbn [negb andb]. now apply IH.
Qed.

Lemma dict_set_middle (l1 l2 : pydict) (k : pystr) (v p : pyval) :
  forallb (fun kv => negb (str_eqb (fst kv) k)) l1 = true ->
  dict_set (l1 ++ (k, v) :: l2) k p = l1 ++ (k, p) :: l2.
Proof.
  induction l1 as [|[k0 v0] l1 IH]; cbn [app dict_set forallb fst].
  - intros _. now rewrite str_eqb_refl.
  - intros H. apply andb_prop in H as [H1 H2]. apply negb_true_iff in H1.
    rewrite H1. now rewrite (IH H2).
Qed.

Lemma flatten_entries_fresh (l1 : pydict) (k : pystr) :
  forallb (fun kv => negb (str_eqb (fst kv) k)) l1 = true ->
  forallb (fun kv => negb (str_eqb (fst kv) k)) (map flatten_entry l1) = true.
Proof.
  induction l1 as [|kv l1 IH]; [reflexivity|]. cbn [map forallb].
  intros H. apply andb_prop in H as [H1 H2].
  unfold flatten_entry at 1. cbn [fst]. rewrite H1. now apply IH.
Qed.

(** The loop over the snapshot of the fields flattens every field in
    place. *)
Lemma flatten_fields_entries (items : pydict) :
  forall pre : pydict,
    unique_keys (map fst (pre ++ items)) = true ->
    flatten_nested_json.flatten_fields items (PDict (map flatten_entry pre ++ items))
    = Ok (PDict (map flatten_entry (pre ++ items))).
Proof.
  induction items as [|[k v] items IH]; intros pre U.
  - now rewrite !app_nil_r.
  - cbn [flatten_nested_json.flatten_fields].
    pose proof (flatten_entries_fresh pre k (unique_keys_prefix_fresh _ _ _ _ U))
      as Fr.
    assert (Step :
      match v with
      | PStr s =>
          if flatten_nested_json.looks_like_json s then
            try_except
              (parsed <- json_loads s ;;
               py_setitem (PDict (map flatten_entry pre ++ (k, v) :: items)) k parsed)
              (Ok (PDict (map flatten_entry pre ++ (k, v) :: items)))
          else Ok (PDict (map flatten_entry pre ++ (k, v) :: items))
      | _ => Ok (PDict (map flatten_entry pre ++ (k, v) :: items))
      end
      = Ok (PDict (map flatten_entry (pre ++ [(k, v)]) ++ items))).
    { rewrite map_app, <- app_assoc. cbn [map app].
      change (flatten_entry (k, v)) with (k, flatten_field v).
      destruct v as [| b | z | f | s | l | d]; try reflexivity.
      cbn [flatten_field]. destruct (flatten_nested_json.looks_like_json s);
        [|reflexivity].
      destruct (json_loads s) as [p|e]; [|reflexivity].
      cbn [bind py_setitem try_except]. now rewrite (dict_set_middle _ _ _ _ _ Fr). }
    rewrite Step. cbn [bind].
    rewrite (IH (pre ++ [(k, v)])); rewrite <- app_assoc; [reflexivity|exact U].
Qed.

Lemma dict_lookup_flatten (d : pydict) (k : pystr) :
  dict_lookup (map flatten_entry d) k = option_map flatten_field (dict_lookup d k).
Proof.
  induction d as [|[k0 v0] d IH]; [reflexivity|].
  cbn [map dict_lookup]. unfold flatten_entry at 1. cbn [fst snd].
  destruct (str_eqb k0 k); [reflexivity|exact IH].
Qed.

Lemma flatten_transform_value_parsed (key value : pystr) (d : pydict) :
  json_loads value = Ok (PDict d) ->
  flatten_nested_json.transform_value key value
  = Ok (json_dumps (PDict (map flatten_entry d))).
Proof.
  intros L. unfold flatten_nested_json.transform_value. rewrite L.
  cbn [bind py_items].
  pose proof (flatten_fields_entries d [] (json_loads_dict_unique _ _ L)) as F.
  cbn [map app] in F. rewrite F. reflexivity.
Qed.

(** X1: on a value that parses as an object, [transform_value] of
    flatten_nested_json.py returns the object with the same keys in the
    same order, in which every string field that looks like JSON (braces
    or brackets at both ends) and parses is replaced by what it parses to,
    and every other field is unchanged. *)
Theorem flatten_transform_value_object :
  forall (key value : pystr) (d : pydict),
    json_loads value = Ok (PDict d) ->
    let d' := map flatten_entry d in
    flatten_nested_json.transform_value key value = Ok (json_dumps (PDict d'))
    /\ dict_keys d' = dict_keys d
    /\ (forall k, dict_lookup d' k = option_map flatten_field (dict_lookup d k)).
Proof.
  intros key value d L d'. split; [|split].
  - now apply flatten_transform_value_parsed.
  - unfold d', dict_keys. rewrite map_map. reflexivity.
  - intros k. apply dict_lookup_flatten.
Qed.

Lemma any_nested_spec (vals : list pyval) :
  flatten_nested_json.any_nested vals = true
  <-> exists s, In (PStr s) vals
                /\ (startswith s (str "{") = true \/ startswith s (str "[") = true).
Proof.
  induction vals as [|v vals IH]; cbn [flatten_nested_json.any_nested].
  - split; [discriminate|]. intros (s & [] & _).
  - assert (Skip : flatten_nested_json.any_nested vals = true ->
                   exists s, In (PStr s) (v :: vals)
                     /\ (startswith s (str "{") = true
                         \/ startswith s (str "[") = true)).
    { intros H. apply IH in H as (s & I & S). exists s. split; [now right|exact S]. }
    destruct v as [| b | z | f | s | l | d].
    1-4, 6-7: (split; [exact Skip|]; intros (s' & [E|I] & S);
               [discriminate | apply IH; eauto]).
    destruct (startswith s (str "{") || startswith s (str "[")) eqn:T.
    + split; [|reflexivity]. intros _. exists s. split; [now left|].
      now apply orb_prop in T.
    + split; [exact Skip|]. intros (s' & [E|I] & S).
      * injection E as <-. apply orb_false_iff in T as [T1 T2].
        destruct S; congruence.
      * apply IH; eauto.
Qed.

(** X2: [should_process] of flatten_nested_json.py never raises; it
    returns [True] exactly when [value] parses as an object one of whose
    fields is a string that starts with a brace or a bracket. *)
Theorem flatten_should_process_exact :
  forall key value : pystr,
    (exists b, flatten_nested_json.should_process key value = Ok (PBool b))
    /\ (flatten_nested_json.should_process key value = Ok (PBool true)
        <-> exists d k s,
              json_loads value = Ok (PDict d) /\ In (k, PStr s) d
              /\ (startswith s (str "{") = true \/ startswith s (str "[") = true)).
Proof.
  intros key value. unfold flatten_nested_json.should_process.
  destruct (json_loads value) as [v|e]; cbn [bind try_except].
  2:{ split; [eauto|]. split; [discriminate|]. intros (d & k & s & L & _).
      discriminate. }
  destruct v as [| b | z | f | s | l | d]; cbn [py_values bind try_except].
  1-6: (split; [eauto|]; split; [discriminate|];
        intros (d' & k & s' & L & _); discriminate).
  split; [eauto|]. split.
  - intros [= H]. apply any_nested_spec in H as (s & I & S).
    apply in_map_iff in I as ([k v] & E & I). cbn [snd] in E. subst v.
    exists d, k, s. auto.
  - intros (d' & k & s & [= <-] & I & S). do 2 f_equal.
    apply any_nested_spec. exists s. split; [|exact S].
    apply in_map_iff. exists (k, PStr s). auto.
Qed.

Lemma looks_like_json_starts (s : pystr) :
  flatten_nested_json.looks_like_json s = true ->
  startswith s (str "{") = true \/ startswith s (str "[") = true.
Proof.
  unfold flatten_nested_json.looks_like_json. intros H.
  apply orb_prop in H as [H|H]; apply andb_prop in H as [H _]; auto.
Qed.

(** X3: when [should_process] of flatten_nested_json.py rejects a value that
    parses as an object, [transform_value] changes no field of it: it
    returns the object as [json.dumps] writes it. *)
Theorem flatten_rejected_object_unchanged :
  forall (key value : pystr) (d : pydict),
    json_loads value = Ok (PDict d) ->
    flatten_nested_json.should_process key value = Ok (PBool false) ->
    flatten_nested_json.transform_value key value = Ok (json_dumps (PDict d)).
Proof.
  intros key value d L R.
  rewrite (flatten_transform_value_parsed key value d L).
  do 3 f_equal.
  assert (N : forall k s, In (k, PStr s) d ->
                flatten_nested_json.looks_like_json s = false).
  { intros k s I. destruct (flatten_nested_json.looks_like_json s) eqn:E;
      [|reflexivity].
    assert (A : flatten_nested_json.should_process key value = Ok (PBool true)).
    { unfold flatten_nested_json.should_process. rewrite L.
      cbn [bind py_values try_except]. do 2 f_equal.
      apply any_nested_spec. exists s. split; [|now apply looks_like_json_starts].
      apply in_map_iff. exists (k, PStr s). auto. }
    rewrite A in R. discriminate. }
  clear - N. induction d as [|[k v] d IH]; [reflexivity|]. cbn [map].
  rewrite IH by (intros k' s I; apply (N k' s); now right).
  f_equal. unfold flatten_entry. cbn [fst snd]. f_equal.
  destruct v as [| b | z | f | s | l | d0]; try reflexivity.
  cbn [flatten_field]. now rewrite (N k s (or_introl eq_refl)).
Qed.

(** A text that starts with a brace or a bracket parses, if at all, as an
    object or a list. *)
Lemma json_loads_container (s : pystr) (p : pyval) :
  startswith s (str "{") = true \/ startswith s (str "[") = true ->
  json_loads s = Ok p ->
  (exists d, p = PDict d) \/ (exists l, p = PList l).
Proof.
  intros St. destruct s as [|c s']; [destruct St; discriminate|].
  assert (C : c = cp "{" \/ c = cp "[").
  { destruct St as [H|H]; cbn [startswith str map list_ascii_of_string] in H;
      apply andb_prop in H as [H _]; apply N.eqb_eq in H; auto. }
  unfold json_loads.
  assert (B : startswith (c :: s') [65279%N] = false)
    by (destruct C; subst c; reflexivity).
  rewrite B.
  assert (W : skip_ws (c :: s') = c :: s') by (destruct C; subst c; reflexivity).
  rewrite W. cbn [scan_once].
  destruct C; subst c.
  - change (N.eqb (cp "{") 34) with false. change (is_char (cp "{") "{") with true.
    cbv iota. destruct (skip_ws s') as [|c1 r1]; [discriminate|].
    destruct (is_char c1 "}").
    + cbn [bind fst snd]. destruct (skip_ws r1); [|discriminate].
      intros [= <-]. eauto.
    + destruct (parse_object _ _ _) as [[v r]|] eqn:PO; cbn [bind fst snd];
        [|discriminate].
      destruct (skip_ws r); [|discriminate]. intros [= <-].
      destruct (parse_object_dict _ _ _ _ _ PO eq_refl) as (d & E & _). eauto.
  - change (N.eqb (cp "[") 34) with false. change (is_char (cp "[") "{") with false.
    change (is_char (cp "[") "[") with true.
    cbv iota. destruct (skip_ws s') as [|c1 r1]; [discriminate|].
    destruct (is_char c1 "]").
    + cbn [bind fst snd]. destruct (skip_ws r1); [|discriminate].
      intros [= <-]. eauto.
    + destruct (parse_array _ _ _) as [[v r]|] eqn:PA; cbn [bind fst snd];
        [|discriminate].
      destruct (skip_ws r); [|discriminate]. intros [= <-].
      destruct (parse_array_list _ _ _ _ _ PA) as (l & E). eauto.
Qed.

(** A flattened field is never flattened again. *)
Lemma flatten_field_idempotent (v : pyval) :
  flatten_field (flatten_field v) = flatten_field v.
Proof.
  destruct v as [| b | z | f | s | l | d]; try reflexivity.
  cbn [flatten_field].
  destruct (flatten_nested_json.looks_like_json s) eqn:E.
  - destruct (json_loads s) as [p|e] eqn:L.
    + destruct (json_loads_container s p (looks_like_json_starts s E) L)
        as [(d & ->)|(l & ->)]; reflexivity.
    + cbn [flatten_field]. now rewrite E, L.
  - cbn [flatten_field]. now rewrite E.
Qed.

Lemma flatten_entries_idempotent (d : pydict) :
  map flatten_entry (map flatten_entry d) = map flatten_entry d.
Proof.
  rewrite map_map. apply map_ext. intros [k v]. unfold flatten_entry.
  cbn [fst snd]. now rewrite flatten_field_idempotent.
Qed.

Lemma flatten_transform_value_object_witness :
  flatten_nested_json.transform_value (str "u1")
    (js "{'id': 7, 'tags': '[1, 2]', 'note': '{oops}'}")
  = Ok (js "{'id': 7, 'tags': [1, 2], 'note': '{oops}'}").
Proof.
  exact (proj1 (flatten_transform_value_object (str "u1")
                  (js "{'id': 7, 'tags': '[1, 2]', 'note': '{oops}'}")
                  [(str "id", PInt 7); (str "tags", PStr (str "[1, 2]"));
                   (str "note", PStr (str "{oops}"))]
                  eq_refl)).
Defined.

Lemma flatten_rejected_object_unchanged_witness :
  flatten_nested_json.transform_value (str "u1") (js "{'id':7,'tags':'a[1]'}")
  = Ok (js "{'id': 7, 'tags': 'a[1]'}").
Proof.
  apply (flatten_rejected_object_unchanged (str "u1") (js "{'id':7,'tags':'a[1]'}")
           [(str "id", PInt 7); (str "tags", PStr (str "a[1]"))]);
    reflexivity.
Defined.

(** ** Searching in strings *)

Lemma startswith_prefix (s p : pystr) :
  startswith s p = true <-> exists t, s = p ++ t.
Proof.
  revert s. induction p as [|x p IH]; intros s; cbn [startswith].
  - split; [intros _; now exists s | reflexivity].
  - destruct s as [|y s].
    + split; [discriminate|]. intros (t & E). discriminate.
    + split.
      * intros H. apply andb_prop in H as [H1 H2]. apply N.eqb_eq in H1.
        apply IH in H2 as (t & ->). exists t. now subst y.
      * intros (t & E). injection E as -> ->. rewrite N.eqb_refl.
        apply IH. eauto.
Qed.

Lemma str_contains_substring (s p : pystr) :
  str_contains s p = true <-> exists a b, s = a ++ p ++ b.
Proof.
  induction s as [|c s IH]; cbn [str_contains].
  - rewrite orb_false_r. rewrite startswith_prefix. split.
    + intros (t & E). exists [], t. exact E.
    + intros (a & b & E). destruct a; [eauto|discriminate].
  - split.
    + intros H. apply orb_prop in H as [H|H].
      * apply startswith_prefix in H as (t & E). exists [], t. exact E.
      * apply IH in H as (a & b & ->). exists (c :: a), b. reflexivity.
    + intros (a & b & E). apply orb_true_intro. destruct a as [|x a].
      * left. apply startswith_prefix. eauto.
      * right. injection E as _ E. apply IH. eauto.
Qed.

Lemma existsb_name_item (l : list pyval) (k : pystr) :
  existsb (fun x => match x with PStr s => str_eqb s k | _ => false end) l = true
  <-> In (PStr k) l.
Proof.
  rewrite existsb_exists. split.
  - intros (x & I & E). destruct x; try discriminate.
    apply str_eqb_eq in E. now subst.
  - intros I. exists (PStr k). split; [exact I|apply str_eqb_refl].
Qed.

(** ** transform_uppercase_name.py, beyond objects *)

(** X4: [should_process] of transform_uppercase_name.py never raises; it
    returns [True] exactly when the parsed value mentions ['name'] as the
    [in] operator finds it: a key of an object, an item of a list, or a
    part of a string. *)
Theorem uppercase_should_process_exact :
  forall key value : pystr,
    (exists b, transform_uppercase_name.should_process key value = Ok (PBool b))
    /\ (transform_uppercase_name.should_process key value = Ok (PBool true)
        <-> exists v, json_loads value = Ok v /\ mentions_name v).
Proof.
  intros key value. destruct (json_loads value) as [v|e] eqn:L.
  - rewrite (uppercase_should_process_parsed key value v L).
    split; [eauto|]. split.
    + intros [= H]. exists v. split; [reflexivity|].
      destruct v as [| b | z | f | s | l | d]; try discriminate; cbn [mentions_name].
      * now apply str_contains_substring.
      * now apply existsb_name_item.
      * now apply dict_mem_lookup.
    + intros (v' & [= <-] & M). do 2 f_equal.
      destruct v as [| b | z | f | s | l | d]; try contradiction;
        cbn [mentions_name] in M.
      * now apply str_contains_substring.
      * now apply existsb_name_item.
      * now apply dict_mem_lookup.
  - unfold transform_uppercase_name.should_process. rewrite L.
    cbn [bind try_except]. split; [eauto|]. split; [discriminate|].
    intros (v & E & _). discriminate.
Qed.

(** X5: on a value that parses as something other than an object,
    [transform_value] of transform_uppercase_name.py returns the value
    unchanged when it is a number, a boolean or null, or a string or list
    that mentions ['name'] (indexing it by ['name'] raises); a string or
    list that does not mention ['name'] comes back as [json.dumps] writes
    it, which need not be the text that was given. *)
Theorem uppercase_transform_value_non_object :
  forall (key value : pystr) (v : pyval),
    json_loads value = Ok v ->
    (forall d, v <> PDict d) ->
    (mentions_name v ->
     transform_uppercase_name.transform_value key value = Ok value)
    /\ (~ mentions_name v ->
        transform_uppercase_name.transform_value key value
        = Ok (match v with
              | PStr _ | PList _ => json_dumps v
              | _ => value
              end)).
Proof.
  intros key value v L ND. unfold transform_uppercase_name.transform_value.
  rewrite L. cbn [bind].
  destruct v as [| b | z | f | s | l | d]; cbn [py_in bind try_except mentions_name];
    try (split; [contradiction|reflexivity]).
  - destruct (str_contains s (str "name")) eqn:C.
    + split; [reflexivity|]. intros N. exfalso. apply N.
      now apply str_contains_substring.
    + split; [|reflexivity]. intros M. apply str_contains_substring in M.
      congruence.
  - destruct (existsb _ l) eqn:C.
    + split; [reflexivity|]. intros N. exfalso. apply N.
      now apply existsb_name_item.
    + split; [|reflexivity]. intros M. apply existsb_name_item in M. congruence.
  - now elim (ND d).
Qed.

Lemma upper_table_fixed :
  forallb (fun e => forallb (fun c => str_eqb (upper_cp c) [c]) (snd e))
    upper_table = true.
Proof. vm_compute. reflexivity. Qed.

Lemma ascii_lower_not_fixed :
  forallb (fun n => negb (str_eqb (upper_cp n) [n]))
    (map N.of_nat (seq 97 26)) = true.
Proof. vm_compute. reflexivity. Qed.

(** Every character of an upper-cased string is its own upper case. *)
Lemma str_upper_fixed (s : pystr) :
  Forall (fun c => upper_cp c = [c]) (str_upper s).
Proof.
  unfold str_upper. induction s as [|c s IH]; [constructor|].
  cbn [flat_map]. apply Forall_app. split; [|exact IH].
  destruct (upper_cp_cases c) as [E|(e & I & _ & E)]; rewrite E.
  - constructor; [exact E|constructor].
  - pose proof upper_table_fixed as T. rewrite forallb_forall in T.
    specialize (T e I). rewrite forallb_forall in T.
    apply Forall_forall. intros x Hx. now apply str_eqb_eq, T.
Qed.

Lemma fixed_not_ascii_lower (c : codepoint) :
  upper_cp c = [c] -> ~ (97 <= c <= 122)%N.
Proof.
  intros E R. pose proof ascii_lower_not_fixed as T.
  rewrite forallb_forall in T.
  assert (I : In c (map N.of_nat (seq 97 26))).
  { apply in_map_iff. exists (N.to_nat c). split; [lia|].
    apply in_seq. lia. }
  specialize (T c I). rewrite E, str_eqb_refl in T. discriminate.
Qed.

(** X6: when ['name'] holds a string, what [transform_value] of
    transform_uppercase_name.py stores in its place is entirely upper
    case: each of its characters is its own upper case, and none is an
    ASCII lower-case letter. *)
Theorem uppercase_name_leaves_no_lower_case :
  forall (key value : pystr) (d : pydict) (s : pystr),
    json_loads value = Ok (PDict d) ->
    dict_lookup d (str "name") = Some (PStr s) ->
    exists s',
      transform_uppercase_name.transform_value key value
      = Ok (json_dumps (PDict (dict_set d (str "name") (PStr s'))))
      /\ Forall (fun c => upper_cp c = [c] /\ ~ (97 <= c <= 122)%N) s'.
Proof.
  intros key value d s L N. exists (str_upper s). split.
  - unfold transform_uppercase_name.transform_value. rewrite L.
    cbn [bind py_in]. unfold dict_mem. rewrite N. cbn [bind py_getitem].
    now rewrite N.
  - eapply Forall_impl; [|apply str_upper_fixed].
    intros c E. split; [exact E|now apply fixed_not_ascii_lower].
Qed.

Lemma uppercase_name_leaves_no_lower_case_witness :
  json_loads (js "{'name': 'ann-marie', 'id': 7}")
  = Ok (PDict [(str "name", PStr (str "ann-marie")); (str "id", PInt 7)])
  /\ exists s',
       transform_uppercase_name.transform_value (str "u1")
         (js "{'name': 'ann-marie', 'id': 7}")
       = Ok (json_dumps (PDict (dict_set
                                  [(str "name", PStr (str "ann-marie"));
                                   (str "id", PInt 7)]
                                  (str "name") (PStr s'))))
       /\ Forall (fun c => upper_cp c = [c] /\ ~ (97 <= c <= 122)%N) s'.
Proof.
  split; [reflexivity|].
  apply (uppercase_name_leaves_no_lower_case (str "u1")
           (js "{'name': 'ann-marie', 'id': 7}")
           [(str "name", PStr (str "ann-marie")); (str "id", PInt 7)]
           (str "ann-marie")); reflexivity.
Defined.

Lemma uppercase_transform_value_non_object_witness :
  json_loads (js " [1,2] ") = Ok (PList [PInt 1; PInt 2])
  /\ transform_uppercase_name.transform_value (str "u1") (js " [1,2] ")
     = Ok (js "[1, 2]")
  /\ transform_uppercase_name.transform_value (str "u1") (js "['name']")
     = Ok (js "['name']").
Proof.
  split; [reflexivity|]. split.
  - apply (proj2 (uppercase_transform_value_non_object (str "u1") (js " [1,2] ")
                    (PList [PInt 1; PInt 2]) eq_refl
                    ltac:(intros d; discriminate))).
    cbn. intros [E|[E|[]]]; discriminate.
  - reflexivity.
Defined.

(** ** Age groups of filter_by_age.py *)

Lemma filter_by_age_transform_parsed (key value : pystr) (d : pydict) :
  json_loads value = Ok (PDict d) ->
  filter_by_age.transform_value key value =
    let age := match dict_lookup d (str "age") with
               | Some a => a
               | None => PInt 0
               end in
    let put g := Ok (json_dumps (PDict (dict_set d (str "age_group") (PStr g)))) in
    match py_lt_int age 25 with
    | Ok true => put (str "young")
    | Ok false =>
        match py_lt_int age 35 with
        | Ok true => put (str "middle")
        | Ok false => put (str "senior")
        | Raise _ => Ok value
        end
    | Raise _ => Ok value
    end.
Proof.
  intros L. unfold filter_by_age.transform_value. rewrite L.
  cbn [bind py_get].
  destruct (dict_lookup d (str "age")) as [a|]; cbn [bind].
  - destruct (py_lt_int a 25) as [[]|]; cbn [bind py_setitem try_except];
      try reflexivity.
    destruct (py_lt_int a 35) as [[]|]; reflexivity.
  - reflexivity.
Qed.

Lemma float_compare_Z_lt_mono (f : spec_float) (a b : Z) :
  a <= b -> float_compare_Z f a = Some Lt -> float_compare_Z f b = Some Lt.
Proof.
  intros Hab. destruct f as [s | s | | s m e]; cbn [float_compare_Z];
    try discriminate.
  - destruct a; try discriminate. destruct b; try lia. reflexivity.
  - destruct s; [reflexivity | discriminate].
  - destruct (0 <=? e) eqn:He; intros H; injection H as H; f_equal;
      rewrite Z.compare_lt_iff in *.
    + lia.
    + assert (0 < 2 ^ (- e)) by (apply Z.pow_pos_nonneg; lia).
      eapply Z.lt_le_trans; [exact H|].
      apply Z.mul_le_mono_nonneg_r; lia.
Qed.

(** X7: on an object whose ['age'] is an integer or a float,
    [transform_value] of filter_by_age.py sets ['age_group'] to ['young']
    below 25, to ['middle'] from 25 up to but not including 35, and to
    ['senior'] otherwise, which includes NaN, for which both comparisons
    are false. *)
Theorem filter_by_age_groups_by_threshold :
  forall (key value : pystr) (d : pydict) (age : pyval),
    json_loads value = Ok (PDict d) ->
    dict_lookup d (str "age") = Some age ->
    (exists z, age = PInt z) \/ (exists f, age = PFloat f) ->
    exists g,
      filter_by_age.transform_value key value
      = Ok (json_dumps (PDict (dict_set d (str "age_group") (PStr g))))
      /\ (number_lt age 25 -> g = str "young")
      /\ (~ number_lt age 25 -> number_lt age 35 -> g = str "middle")
      /\ (~ number_lt age 35 -> g = str "senior").
Proof.
  intros key value d age L A N.
  rewrite (filter_by_age_transform_parsed key value d L), A. cbv zeta.
  destruct N as [[z ->]|[f ->]]; cbn [py_lt_int number_lt].
  - destruct (z <? 25) eqn:E1.
    + apply Z.ltb_lt in E1. eexists. split; [reflexivity|].
      repeat split; intros; try reflexivity; lia.
    + apply Z.ltb_ge in E1. destruct (z <? 35) eqn:E2.
      * apply Z.ltb_lt in E2. eexists. split; [reflexivity|].
        repeat split; intros; try reflexivity; lia.
      * apply Z.ltb_ge in E2. eexists. split; [reflexivity|].
        repeat split; intros; try reflexivity; lia.
  - destruct (float_compare_Z f 25) as [[]|] eqn:E1;
      destruct (float_compare_Z f 35) as [[]|] eqn:E2;
      (eexists; split; [reflexivity|]);
      repeat split; intros; try reflexivity; try congruence;
      try (exfalso; auto; fail);
      try (rewrite (float_compare_Z_lt_mono f 25 35) in E2 by (lia || exact E1);
           discriminate).
Qed.

Lemma filter_by_age_groups_by_threshold_witness :
  exists g,
    filter_by_age.transform_value (str "u1") (js "{'age': NaN}")
    = Ok (json_dumps (PDict (dict_set [(str "age", PFloat S754_nan)]
                               (str "age_group") (PStr g))))
    /\ (number_lt (PFloat S754_nan) 25 -> g = str "young")
    /\ (~ number_lt (PFloat S754_nan) 25 -> number_lt (PFloat S754_nan) 35 ->
        g = str "middle")
    /\ (~ number_lt (PFloat S754_nan) 35 -> g = str "senior").
Proof.
  apply (filter_by_age_groups_by_threshold (str "u1") (js "{'age': NaN}")
           [(str "age", PFloat S754_nan)] (PFloat S754_nan)).
  - reflexivity.
  - reflexivity.
  - right. eexists. reflexivity.
Defined.

(** X8: with no ['age'] in the object the default 0 is classified, and a
    boolean ['age'] is compared as 0 or 1: in both cases
    [transform_value] of filter_by_age.py sets ['age_group'] to
    ['young']. *)
Theorem filter_by_age_missing_or_boolean_age_is_young :
  forall (key value : pystr) (d : pydict),
    json_loads value = Ok (PDict d) ->
    dict_lookup d (str "age") = None
    \/ (exists b, dict_lookup d (str "age") = Some (PBool b)) ->
    filter_by_age.transform_value key value
    = Ok (json_dumps (PDict (dict_set d (str "age_group") (PStr (str "young"))))).
Proof.
  intros key value d L H.
  rewrite (filter_by_age_transform_parsed key value d L).
  destruct H as [->|[b ->]]; [reflexivity|]. destruct b; reflexivity.
Qed.

Lemma filter_by_age_missing_or_boolean_age_is_young_witness :
  filter_by_age.transform_value (str "u1") (js "{'id': 7}")
  = Ok (js "{'id': 7, 'age_group': 'young'}").
Proof.
  apply (filter_by_age_missing_or_boolean_age_is_young (str "u1")
           (js "{'id': 7}") [(str "id", PInt 7)]).
  - reflexivity.
  - left. reflexivity.
Defined.

(** X9: an ['age'] that is null, a string, a list or an object cannot be
    compared with 25; [transform_value] of filter_by_age.py swallows the
    [TypeError] and returns [value] itself, not a re-serialised copy and
    with no ['age_group'] added. *)
Theorem filter_by_age_uncomparable_age_unchanged :
  forall (key value : pystr) (d : pydict) (age : pyval),
    json_loads value = Ok (PDict d) ->
    dict_lookup d (str "age") = Some age ->
    (forall b, age <> PBool b) ->
    (forall z, age <> PInt z) ->
    (forall f, age <> PFloat f) ->
    filter_by_age.transform_value key value = Ok value.
Proof.
  intros key value d age L A Nb Nz Nf.
  rewrite (filter_by_age_transform_parsed key value d L), A.
  destruct age as [| b | z | f | s | l | d0]; try reflexivity.
  - now destruct (Nb b).
  - now destruct (Nz z).
  - now destruct (Nf f).
Qed.

Lemma filter_by_age_uncomparable_age_unchanged_witness :
  filter_by_age.transform_value (str "u1") (js "{'age':  '41'}")
  = Ok (js "{'age':  '41'}").
Proof.
  apply (filter_by_age_uncomparable_age_unchanged (str "u1")
           (js "{'age':  '41'}") [(str "age", PStr (str "41"))]
           (PStr (str "41"))); try reflexivity; intros; discriminate.
Defined.

(** X10: a value that parses as JSON but not as an object (a number, a
    string, a list, [true], [null]) is returned as it is by
    [transform_value] of add_timestamp.py, filter_by_age.py and
    flatten_nested_json.py: the failing item assignment or the missing
    method raises, and the handler returns [value]. *)
Theorem transforms_identity_on_non_object :
  forall (now : datetime) (key value : pystr) (v : pyval),
    json_loads value = Ok v ->
    (forall d, v <> PDict d) ->
    add_timestamp.transform_value now key value = Ok value
    /\ filter_by_age.transform_value key value = Ok value
    /\ flatten_nested_json.transform_value key value = Ok value.
Proof.
  intros now key value v L N.
  unfold add_timestamp.transform_value, filter_by_age.transform_value,
    flatten_nested_json.transform_value.
  rewrite L.
  destruct v as [| b | z | f | s | l | d]; try (repeat split; reflexivity).
  now destruct (N d).
Qed.

Lemma transforms_identity_on_non_object_witness :
  let now := {| year := 2024; month := 1; day := 2; hour := 3; minute := 4;
                second := 5; microsecond := 0 |} in
  let value := js " [ {'age': 40} ]" in
  add_timestamp.transform_value now (str "u1") value = Ok value
  /\ filter_by_age.transform_value (str "u1") value = Ok value
  /\ flatten_nested_json.transform_value (str "u1") value = Ok value.
Proof.
  intros now value.
  apply (transforms_identity_on_non_object now (str "u1") value
           (PList [PDict [(str "age", PInt 40)]])).
  - reflexivity.
  - intros d. discriminate.
Defined.

(** ** Item assignment on a [dict] *)

Lemma dict_keys_dict_set (d : pydict) (k : pystr) (v : pyval) :
  dict_keys (dict_set d k v)
  = if dict_mem d k then dict_keys d else dict_keys d ++ [k].
Proof.
  unfold dict_mem, dict_keys.
  induction d as [|[k' v'] d IH]; cbn [dict_set dict_lookup map fst app];
    [reflexivity|].
  destruct (str_eqb k' k) eqn:E; [reflexivity|].
  cbn [map fst]. rewrite IH. now destruct (dict_lookup d k).
Qed.

Lemma dict_set_set_same (d : pydict) (k : pystr) (x y : pyval) :
  dict_set (dict_set d k x) k y = dict_set d k y.
Proof.
  induction d as [|[k' v'] d IH]; cbn [dict_set].
  - now rewrite str_eqb_refl.
  - destruct (str_eqb k' k) eqn:E; cbn [dict_set]; rewrite E; congruence.
Qed.

Lemma dict_set_again (d : pydict) (a b : pystr) (x x' y : pyval) :
  a <> b ->
  dict_set (dict_set (dict_set d a x) b y) a x' = dict_set (dict_set d a x') b y.
Proof.
  intros N.
  assert (Nab : str_eqb a b = false) by now apply str_eqb_neq.
  induction d as [|[k v] d IH]; cbn [dict_set].
  - rewrite Nab. cbn [dict_set]. now rewrite str_eqb_refl.
  - destruct (str_eqb k a) eqn:Ea; cbn [dict_set].
    + apply str_eqb_eq in Ea. subst k. rewrite Nab. cbn [dict_set].
      now rewrite str_eqb_refl.
    + destruct (str_eqb k b) eqn:Eb; cbn [dict_set]; rewrite ?Ea, ?Eb;
        cbn [dict_set]; rewrite ?Ea, ?Eb.
      * now rewrite dict_set_set_same.
      * now rewrite IH.
Qed.

Lemma floats_ok_dict_set (d : pydict) (k : pystr) (v : pyval) :
  floats_ok (PDict d) = true -> floats_ok v = true ->
  floats_ok (PDict (dict_set d k v)) = true.
Proof.
  cbn [floats_ok]. intros H Hv.
  induction d as [|[k' v'] d IH]; cbn [dict_set forallb snd].
  - now rewrite Hv.
  - cbn [forallb snd] in H. apply andb_prop in H as [H1 H2].
    destruct (str_eqb k' k); cbn [forallb snd].
    + now rewrite Hv, H2.
    + now rewrite H1, IH.
Qed.

(** ** ASCII text *)

Lemma no_pair_ascii (s : pystr) :
  forallb (fun c => (c <? 128)%N) s = true -> no_pair s = true.
Proof.
  induction s as [|a [|b s] IH]; try reflexivity.
  intros H. cbn [forallb] in H. apply andb_prop in H as [Ha H].
  change (no_pair (a :: b :: s))
    with (negb (is_high_surrogate a && is_low_surrogate b) && no_pair (b :: s)).
  rewrite (IH H), andb_true_r. unfold is_high_surrogate.
  apply N.ltb_lt in Ha.
  assert (N.leb 55296 a = false) as -> by (apply N.leb_gt; lia). reflexivity.
Qed.

Lemma str_ok_ascii (s : pystr) :
  forallb (fun c => (c <? 128)%N) s = true -> str_ok s = true.
Proof.
  intros H. unfold str_ok. rewrite (no_pair_ascii s H), andb_true_r.
  rewrite forallb_forall in *. intros c I. specialize (H c I).
  unfold valid_cp. apply N.ltb_lt in H. apply N.ltb_lt. lia.
Qed.

Lemma pad_ascii (w : nat) (n : Z) :
  forallb (fun c => (c <? 128)%N) (pad w n) = true.
Proof.
  unfold pad. cbv zeta. rewrite forallb_app. apply andb_true_intro. split.
  - apply forallb_forall. intros c I. apply repeat_spec in I. now subst c.
  - unfold digits_of_nat. pose proof (digits_of_uint_digits (N.to_uint (Z.to_N n))) as D.
    rewrite forallb_forall in *. intros c I. specialize (D c I).
    unfold is_digit in D. apply andb_prop in D as [_ D].
    apply N.leb_le in D. apply N.ltb_lt. lia.
Qed.

Lemma isoformat_ascii (now : datetime) :
  forallb (fun c => (c <? 128)%N) (isoformat now ++ str "Z") = true.
Proof.
  unfold isoformat.
  repeat (rewrite ?forallb_app; cbn [forallb];
          rewrite ?pad_ascii; cbn [andb]).
  destruct (microsecond now =? 0); cbn [forallb]; rewrite ?pad_ascii; reflexivity.
Qed.

(** ** Reading back what add_timestamp.py writes *)

Lemma add_timestamp_transform_parsed (now : datetime) (key value : pystr)
    (d : pydict) :
  json_loads value = Ok (PDict d) ->
  add_timestamp.transform_value now key value
  = Ok (json_dumps
          (PDict (dict_set
                    (dict_set d (str "processed_at")
                       (PStr (isoformat now ++ str "Z")))
                    (str "transform_version") (PStr (str "1.0"))))).
Proof.
  intros L. unfold add_timestamp.transform_value. now rewrite L.
Qed.

Lemma add_timestamp_stamped_ok (now : datetime) (d : pydict) :
  shape_ok (PDict d) = true -> floats_ok (PDict d) = true ->
  let d' := dict_set
              (dict_set d (str "processed_at") (PStr (isoformat now ++ str "Z")))
              (str "transform_version") (PStr (str "1.0")) in
  shape_ok (PDict d') = true /\ floats_ok (PDict d') = true.
Proof.
  intros Sh F d'. split.
  - apply shape_ok_dict_set; [|reflexivity|reflexivity].
    apply shape_ok_dict_set; [exact Sh|reflexivity|].
    cbn [shape_ok]. apply str_ok_ascii, isoformat_ascii.
  - apply floats_ok_dict_set; [|reflexivity].
    apply floats_ok_dict_set; [exact F|reflexivity].
Qed.

(** X11: on well-formed text holding an object, what [transform_value] of
    add_timestamp.py returns parses back as an object in which
    ['processed_at'] is the clock reading in ISO format followed by [Z],
    ['transform_version'] is ['1.0'], every other field is as it was, and
    the keys keep their order, the two stamps being appended when they were
    not there. *)
Theorem add_timestamp_result_reads_back :
  forall (now : datetime) (key value : pystr) (d : pydict),
    scalar_text value = true ->
    json_loads value = Ok (PDict d) ->
    floats_ok (PDict d) = true ->
    exists out d',
      add_timestamp.transform_value now key value = Ok out
      /\ json_loads out = Ok (PDict d')
      /\ dict_lookup d' (str "processed_at")
         = Some (PStr (isoformat now ++ str "Z"))
      /\ dict_lookup d' (str "transform_version") = Some (PStr (str "1.0"))
      /\ (forall k, k <> str "processed_at" -> k <> str "transform_version" ->
                    dict_lookup d' k = dict_lookup d k)
      /\ dict_keys d'
         = dict_keys d
           ++ (if dict_mem d (str "processed_at") then []
               else [str "processed_at"])
           ++ (if dict_mem d (str "transform_version") then []
               else [str "transform_version"]).
Proof.
  intros now key value d Sc L F.
  pose proof (json_loads_shape_ok value _ Sc L) as Sh.
  destruct (add_timestamp_stamped_ok now d Sh F) as [Sh' F'].
  eexists. eexists.
  split; [exact (add_timestamp_transform_parsed now key value d L)|].
  split; [exact (json_loads_dumps _ Sh' F')|].
  split; [|split; [|split]].
  - rewrite dict_lookup_set_other by discriminate. apply dict_lookup_set_same.
  - apply dict_lookup_set_same.
  - intros k N1 N2. rewrite dict_lookup_set_other by exact N2.
    now apply dict_lookup_set_other.
  - rewrite !dict_keys_dict_set. unfold dict_mem at 1.
    rewrite dict_lookup_set_other by discriminate.
    fold (dict_mem d (str "transform_version")).
    destruct (dict_mem d (str "processed_at")),
      (dict_mem d (str "transform_version"));
      rewrite ?app_nil_r, <- ?app_assoc; reflexivity.
Qed.

Lemma add_timestamp_result_reads_back_witness :
  exists out d',
    add_timestamp.transform_value noon (str "u1")
      (js "{'transform_version': '0.9', 'id': 7}") = Ok out
    /\ json_loads out = Ok (PDict d')
    /\ dict_lookup d' (str "processed_at")
       = Some (PStr (isoformat noon ++ str "Z"))
    /\ dict_lookup d' (str "transform_version") = Some (PStr (str "1.0"))
    /\ (forall k, k <> str "processed_at" -> k <> str "transform_version" ->
                  dict_lookup d' k
                  = dict_lookup [(str "transform_version", PStr (str "0.9"));
                                 (str "id", PInt 7)] k)
    /\ dict_keys d'
       = [str "transform_version"; str "id"; str "processed_at"].
Proof.
  exact (add_timestamp_result_reads_back noon (str "u1")
           (js "{'transform_version': '0.9', 'id': 7}")
           [(str "transform_version", PStr (str "0.9")); (str "id", PInt 7)]
           eq_refl eq_refl eq_refl).
Defined.

(** X12: stamping twice is stamping once at the later time: on well-formed
    text, running [transform_value] of add_timestamp.py on its own output
    gives what one run at the second clock reading gives on the original;
    the first stamp is overwritten in place and no field is duplicated. *)
Theorem add_timestamp_restamp :
  forall (now1 now2 : datetime) (key value : pystr),
    scalar_text value = true ->
    (forall v, json_loads value = Ok v -> floats_ok v = true) ->
    (out <- add_timestamp.transform_value now1 key value ;;
     add_timestamp.transform_value now2 key out)
    = add_timestamp.transform_value now2 key value.
Proof.
  intros now1 now2 key value Sc F.
  destruct (json_loads value) as [v|e] eqn:L.
  2:{ assert (E : add_timestamp.transform_value now1 key value = Ok value)
        by (unfold add_timestamp.transform_value; now rewrite L).
      now rewrite E. }
  destruct v as [| b | z | f | s | l | d].
  1-6: (assert (E : add_timestamp.transform_value now1 key value = Ok value)
          by (unfold add_timestamp.transform_value; now rewrite L);
        now rewrite E).
  pose proof (json_loads_shape_ok value _ Sc L) as Sh.
  destruct (add_timestamp_stamped_ok now1 d Sh (F _ eq_refl)) as [Sh' F'].
  rewrite (add_timestamp_transform_parsed now1 key value d L). cbn [bind].
  rewrite (add_timestamp_transform_parsed now2 key _ _
             (json_loads_dumps _ Sh' F')).
  rewrite (add_timestamp_transform_parsed now2 key value d L).
  apply (f_equal (fun x => Ok (json_dumps (PDict x)))).
  rewrite (dict_set_again d (str "processed_at") (str "transform_version"))
    by discriminate.
  apply dict_set_set_same.
Qed.

Lemma add_timestamp_restamp_witness :
  (out <- add_timestamp.transform_value noon (str "u1") (js "{'id': 7}") ;;
   add_timestamp.transform_value noon_and_a_second (str "u1") out)
  = add_timestamp.transform_value noon_and_a_second (str "u1") (js "{'id': 7}").
Proof.
  apply (add_timestamp_restamp noon noon_and_a_second (str "u1")
           (js "{'id': 7}")).
  - reflexivity.
  - intros v E. vm_compute in E. injection E as <-. reflexivity.
Defined.

(** ** Reading back what filter_by_age.py writes *)

Lemma filter_by_age_grouped_ok (d : pydict) (g : pystr) :
  shape_ok (PDict d) = true -> floats_ok (PDict d) = true ->
  str_ok g = true ->
  json_loads (json_dumps (PDict (dict_set d (str "age_group") (PStr g))))
  = Ok (PDict (dict_set d (str "age_group") (PStr g))).
Proof.
  intros Sh F G. apply json_loads_dumps.
  - now apply shape_ok_dict_set.
  - now apply floats_ok_dict_set.
Qed.

Lemma filter_by_age_lookup_age (d : pydict) (g : pyval) :
  dict_lookup (dict_set d (str "age_group") g) (str "age")
  = dict_lookup d (str "age").
Proof. apply dict_lookup_set_other. discriminate. Qed.

(** X13: on well-formed text holding an object, [transform_value] of
    filter_by_age.py either returns [value] itself or returns a text that
    parses back as the object with ['age_group'] set to one of ['young'],
    ['middle'], ['senior'], every other field as it was, and the keys in
    their order, ['age_group'] being appended when it was not there. *)
Theorem filter_by_age_result_reads_back :
  forall (key value : pystr) (d : pydict),
    scalar_text value = true ->
    json_loads value = Ok (PDict d) ->
    floats_ok (PDict d) = true ->
    exists out,
      filter_by_age.transform_value key value = Ok out
      /\ (out = value
          \/ exists d' g,
               json_loads out = Ok (PDict d')
               /\ In g [str "young"; str "middle"; str "senior"]
               /\ dict_lookup d' (str "age_group") = Some (PStr g)
               /\ (forall k, k <> str "age_group" ->
                             dict_lookup d' k = dict_lookup d k)
               /\ dict_keys d'
                  = dict_keys d
                    ++ (if dict_mem d (str "age_group") then []
                        else [str "age_group"])).
Proof.
  intros key value d Sc L F.
  pose proof (json_loads_shape_ok value _ Sc L) as Sh.
  assert (G : forall g, In g [str "young"; str "middle"; str "senior"] ->
    exists d' g',
      json_loads (json_dumps (PDict (dict_set d (str "age_group") (PStr g))))
      = Ok (PDict d')
      /\ In g' [str "young"; str "middle"; str "senior"]
      /\ dict_lookup d' (str "age_group") = Some (PStr g')
      /\ (forall k, k <> str "age_group" -> dict_lookup d' k = dict_lookup d k)
      /\ dict_keys d'
         = dict_keys d
           ++ (if dict_mem d (str "age_group") then [] else [str "age_group"])).
  { intros g I. exists (dict_set d (str "age_group") (PStr g)), g.
    split; [|split; [exact I|split; [|split]]].
    - apply filter_by_age_grouped_ok; auto.
      destruct I as [<-|[<-|[<-|[]]]]; reflexivity.
    - apply dict_lookup_set_same.
    - intros k N. now apply dict_lookup_set_other.
    - rewrite dict_keys_dict_set.
      destruct (dict_mem d (str "age_group")); [now rewrite app_nil_r|reflexivity]. }
  rewrite (filter_by_age_transform_parsed key value d L). cbv zeta.
  destruct (py_lt_int _ 25) as [[]|];
    [| destruct (py_lt_int _ 35) as [[]|] |];
    eexists; (split; [reflexivity|]); try (left; reflexivity);
    right; apply G; cbn [In]; auto.
Qed.

Lemma filter_by_age_result_reads_back_witness :
  exists out,
    filter_by_age.transform_value (str "u1") (js "{'age': 28, 'id': 7}") = Ok out
    /\ (out = js "{'age': 28, 'id': 7}"
        \/ exists d' g,
             json_loads out = Ok (PDict d')
             /\ In g [str "young"; str "middle"; str "senior"]
             /\ dict_lookup d' (str "age_group") = Some (PStr g)
             /\ (forall k, k <> str "age_group" ->
                           dict_lookup d' k
                           = dict_lookup [(str "age", PInt 28); (str "id", PInt 7)] k)
             /\ dict_keys d' = [str "age"; str "id"; str "age_group"]).
Proof.
  exact (filter_by_age_result_reads_back (str "u1") (js "{'age': 28, 'id': 7}")
           [(str "age", PInt 28); (str "id", PInt 7)] eq_refl eq_refl eq_refl).
Defined.

Lemma filter_by_age_second_pass (key : pystr) (d : pydict) (g : pystr) :
  shape_ok (PDict d) = true -> floats_ok (PDict d) = true ->
  str_ok g = true ->
  let out := json_dumps (PDict (dict_set d (str "age_group") (PStr g))) in
  let age := match dict_lookup d (str "age") with
             | Some a => a
             | None => PInt 0
             end in
  let put g' := Ok (json_dumps (PDict (dict_set d (str "age_group") (PStr g')))) in
  filter_by_age.transform_value key out =
    match py_lt_int age 25 with
    | Ok true => put (str "young")
    | Ok false =>
        match py_lt_int age 35 with
        | Ok true => put (str "middle")
        | Ok false => put (str "senior")
        | Raise _ => Ok out
        end
    | Raise _ => Ok out
    end.
Proof.
  intros Sh F G out age put.
  rewrite (filter_by_age_transform_parsed key out _
             (filter_by_age_grouped_ok d g Sh F G)).
  cbv zeta. rewrite filter_by_age_lookup_age. fold age.
  rewrite !dict_set_set_same. reflexivity.
Qed.

(** X14: on well-formed text, running [transform_value] of filter_by_age.py
    on its own output gives that output again: the age is read from the
    same field, the same group is chosen, and ['age_group'] is overwritten
    in place. *)
Theorem filter_by_age_transform_idempotent :
  forall key value : pystr,
    scalar_text value = true ->
    (forall v, json_loads value = Ok v -> floats_ok v = true) ->
    (out <- filter_by_age.transform_value key value ;;
     filter_by_age.transform_value key out)
    = filter_by_age.transform_value key value.
Proof.
  intros key value Sc F.
  assert (Same : filter_by_age.transform_value key value = Ok value ->
                 (out <- filter_by_age.transform_value key value ;;
                  filter_by_age.transform_value key out)
                 = filter_by_age.transform_value key value).
  { intros E. rewrite E. cbn [bind]. exact E. }
  destruct (json_loads value) as [v|e] eqn:L.
  2:{ apply Same. unfold filter_by_age.transform_value. now rewrite L. }
  destruct v as [| b | z | f | s | l | d].
  1-6: (apply Same; unfold filter_by_age.transform_value; now rewrite L).
  pose proof (json_loads_shape_ok value _ Sc L) as Sh.
  pose proof (F _ eq_refl) as Fd.
  pose proof (filter_by_age_transform_parsed key value d L) as T.
  cbv zeta in T.
  pose proof (fun g => filter_by_age_second_pass key d g Sh Fd) as P.
  cbv zeta in P.
  destruct (py_lt_int _ 25) as [[]|];
    [| destruct (py_lt_int _ 35) as [[]|] |];
    try (apply Same; exact T);
    rewrite T; cbn [bind]; apply P; reflexivity.
Qed.

Lemma filter_by_age_transform_idempotent_witness :
  (out <- filter_by_age.transform_value (str "u1")
            (js "{'age': 41, 'age_group': 'young'}") ;;
   filter_by_age.transform_value (str "u1") out)
  = filter_by_age.transform_value (str "u1")
      (js "{'age': 41, 'age_group': 'young'}").
Proof.
  apply (filter_by_age_transform_idempotent (str "u1")
           (js "{'age': 41, 'age_group': 'young'}")).
  - reflexivity.
  - intros v E. vm_compute in E. injection E as <-. reflexivity.
Defined.

(** X15: the transform of filter_by_age.py does not change the verdict of
    its filter: on well-formed text, [should_process] answers on the
    output of [transform_value] what it answers on [value]. *)
Theorem filter_by_age_transform_keeps_verdict :
  forall (key value out : pystr),
    scalar_text value = true ->
    (forall v, json_loads value = Ok v -> floats_ok v = true) ->
    filter_by_age.transform_value key value = Ok out ->
    filter_by_age.should_process key out
    = filter_by_age.should_process key value.
Proof.
  intros key value out Sc F T.
  destruct (json_loads value) as [v|e] eqn:L.
  2:{ unfold filter_by_age.transform_value in T. rewrite L in T.
      cbn in T. now injection T as <-. }
  destruct v as [| b | z | f | s | l | d].
  1-6: (unfold filter_by_age.transform_value in T; rewrite L in T;
        cbn in T; now injection T as <-).
  pose proof (json_loads_shape_ok value _ Sc L) as Sh.
  pose proof (F _ eq_refl) as Fd.
  rewrite (filter_by_age_transform_parsed key value d L) in T. cbv zeta in T.
  assert (G : forall g, str_ok g = true ->
    filter_by_age.should_process key
      (json_dumps (PDict (dict_set d (str "age_group") (PStr g))))
    = filter_by_age.should_process key value).
  { intros g Hg.
    rewrite (filter_by_age_should_process_parsed key _ _
               (filter_by_age_grouped_ok d g Sh Fd Hg)).
    rewrite (filter_by_age_should_process_parsed key value _ L).
    now rewrite filter_by_age_lookup_age. }
  destruct (py_lt_int _ 25) as [[]|];
    [| destruct (py_lt_int _ 35) as [[]|] |];
    injection T as <-; try reflexivity; now apply G.
Qed.

Lemma filter_by_age_transform_keeps_verdict_witness :
  filter_by_age.should_process (str "u1") (js "{'age': 41, 'age_group': 'senior'}")
  = filter_by_age.should_process (str "u1") (js "{'age':41}").
Proof.
  apply (filter_by_age_transform_keeps_verdict (str "u1") (js "{'age':41}")
           (js "{'age': 41, 'age_group': 'senior'}") eq_refl).
  - intros v E. vm_compute in E. injection E as <-. reflexivity.
  - reflexivity.
Defined.

(** ** Flattening twice *)

Lemma shape_ok_flatten_field (v : pyval) :
  shape_ok v = true ->
  match v with PStr s => scalar_text s = true | _ => True end ->
  shape_ok (flatten_field v) = true.
Proof.
  intros Sh Sc. destruct v as [| b | z | f | s | l | d]; try exact Sh.
  cbn [flatten_field].
  destruct (flatten_nested_json.looks_like_json s); [|exact Sh].
  destruct (json_loads s) as [p|e] eqn:L; [|exact Sh].
  now apply (json_loads_shape_ok s p Sc).
Qed.

Lemma shape_ok_flatten (d : pydict) :
  shape_ok (PDict d) = true -> fields_scalar d = true ->
  shape_ok (PDict (map flatten_entry d)) = true.
Proof.
  cbn [shape_ok]. intros H Sc. apply andb_prop in H as [U E].
  apply andb_true_intro. split.
  - rewrite map_map. cbn [flatten_entry fst]. exact U.
  - clear U. unfold fields_scalar in Sc.
    induction d as [|[k v] d IH]; [reflexivity|].
    cbn [map forallb fst snd flatten_entry] in *.
    apply andb_prop in E as [E1 E2]. apply andb_prop in E1 as [Ek Ev].
    apply andb_prop in Sc as [S1 S2].
    rewrite Ek, (IH E2 S2), andb_true_r. cbn [andb].
    apply shape_ok_flatten_field; [exact Ev|].
    destruct v; auto.
Qed.

(** X16: what [transform_value] of flatten_nested_json.py returns is a
    fixed point of it: on well-formed text holding an object whose string
    fields carry no surrogate, a second run returns the first run's
    output.  Flattening goes one level deep and a flattened field is no
    longer a string. *)
Theorem flatten_transform_idempotent :
  forall (key value : pystr) (d : pydict),
    scalar_text value = true ->
    json_loads value = Ok (PDict d) ->
    fields_scalar d = true ->
    floats_ok (PDict (map flatten_entry d)) = true ->
    exists out,
      flatten_nested_json.transform_value key value = Ok out
      /\ flatten_nested_json.transform_value key out = Ok out.
Proof.
  intros key value d Sc L Fs F.
  pose proof (json_loads_shape_ok value _ Sc L) as Sh.
  exists (json_dumps (PDict (map flatten_entry d))). split.
  - now apply flatten_transform_value_parsed.
  - rewrite (flatten_transform_value_parsed key _ (map flatten_entry d)).
    + now rewrite flatten_entries_idempotent.
    + apply json_loads_dumps; [now apply shape_ok_flatten|exact F].
Qed.

Lemma flatten_transform_idempotent_witness :
  exists out,
    flatten_nested_json.transform_value (str "u1")
      (js "{'id': 7, 'tags': '[1, {\'a\': \'[2]\'}]', 'note': '{oops}'}") = Ok out
    /\ flatten_nested_json.transform_value (str "u1") out = Ok out.
Proof.
  apply (flatten_transform_idempotent (str "u1")
           (js "{'id': 7, 'tags': '[1, {\'a\': \'[2]\'}]', 'note': '{oops}'}")
           [(str "id", PInt 7);
            (str "tags", PStr (js "[1, {'a': '[2]'}]"));
            (str "note", PStr (str "{oops}"))]);
    reflexivity.
Defined.

(** ** What a call can depend on *)

(** An expression with no [datetime.utcnow()] in it has the same value
    whatever the clock reads. *)
Lemma eval_clock_free (now1 now2 : datetime) (st : store) (e : expr) :
  expr_reads_clock e = false -> eval now1 st e = eval now2 st e.
Proof.
  induction e; cbn [expr_reads_clock eval]; intros H;
    try discriminate; try reflexivity;
    try (rewrite (IHe H); reflexivity).
  - apply orb_false_iff in H as [H1 H2]. rewrite (IHe1 H1).
    destruct (eval now2 st e1) as [v|er]; [|reflexivity]. cbn [and_then].
    destruct v; try reflexivity. now rewrite (IHe2 H2).
  - apply orb_false_iff in H as [H1 H2]. rewrite (IHe1 H1).
    destruct (eval now2 st e1) as [v|er]; [|reflexivity]. cbn [and_then].
    now rewrite (IHe2 H2).
  - apply orb_false_iff in H as [H1 H2]. rewrite (IHe1 H1).
    destruct (eval now2 st e1) as [v|er]; [|reflexivity]. cbn [and_then].
    now rewrite (IHe2 H2).
Qed.

(** The same for statements: a function body with no [datetime.utcnow()]
    in it runs the same way whatever the clock reads. *)
Lemma exec_clock_free (now1 now2 : datetime) (s : stmt) :
  reads_clock s = false -> forall st, exec now1 s st = exec now2 s st.
Proof.
  induction s; cbn [reads_clock exec]; intros H st.
  - reflexivity.
  - now rewrite (eval_clock_free now1 now2 st e H).
  - apply orb_false_iff in H as [H1 H2].
    rewrite (eval_clock_free now1 now2 st e H2).
    now rewrite (eval_clock_free now1 now2 st k H1).
  - apply orb_false_iff in H as [H1 H2]. rewrite (IHs1 H1 st).
    destruct (exec now2 s1 st); auto.
  - apply orb_false_iff in H as [H1 H3]. apply orb_false_iff in H1 as [H1 H2].
    rewrite (eval_clock_free now1 now2 st c H1).
    destruct (eval now2 st c) as [v|er]; [|reflexivity].
    destruct (py_truthy v); auto.
  - apply orb_false_iff in H as [H1 H2].
    rewrite (eval_clock_free now1 now2 st e H1).
    destruct (eval now2 st e) as [v|er]; [|reflexivity].
    destruct (py_items v) as [items|ex]; [|reflexivity].
    revert st. induction items as [|kv items IH]; intros st; [reflexivity|].
    cbn [for_each]. rewrite (IHs H2). destruct (exec now2 s _); auto.
  - apply orb_false_iff in H as [H1 H2]. rewrite (IHs1 H1 st).
    destruct (exec now2 s1 st); auto.
  - now rewrite (eval_clock_free now1 now2 st e H).
Qed.

Lemma call_clock_free (now1 now2 : datetime) (body : stmt) (key value : pystr) :
  reads_clock body = false ->
  call now1 body key value = call now2 body key value.
Proof. intros H. unfold call. now rewrite (exec_clock_free now1 now2 body H). Qed.

(** ** The texts compute the embedded functions *)

Ltac run_text :=
  cbn [exec eval and_then lift store_get store_set String.eqb Ascii.eqb
       Bool.eqb bind try_except returns py_setitem py_items].

Lemma add_timestamp_text (now : datetime) (key value : pystr) :
  call now text.add_timestamp key value
  = returns (add_timestamp.transform_value now key value).
Proof.
  unfold call, text.add_timestamp, add_timestamp.transform_value. run_text.
  destruct (json_loads value) as [v|e]; run_text; [|reflexivity].
  destruct v; run_text; reflexivity.
Qed.

Lemma filter_by_age_text (now : datetime) (key value : pystr) :
  call now text.filter_by_age key value
  = returns (filter_by_age.transform_value key value).
Proof.
  unfold call, text.filter_by_age, filter_by_age.transform_value. run_text.
  destruct (json_loads value) as [v|e]; run_text; [|reflexivity].
  destruct v; cbn [py_get bind try_except returns]; run_text; try reflexivity.
  destruct (dict_lookup d (str "age")) as [a|]; run_text.
  - destruct (py_lt_int a 25) as [[]|]; run_text; try reflexivity.
    destruct (py_lt_int a 35) as [[]|]; run_text; reflexivity.
  - reflexivity.
Qed.

Lemma transform_uppercase_name_text (now : datetime) (key value : pystr) :
  call now text.transform_uppercase_name key value
  = returns (transform_uppercase_name.transform_value key value).
Proof.
  unfold call, text.transform_uppercase_name,
    transform_uppercase_name.transform_value. run_text.
  destruct (json_loads value) as [v|e]; run_text; [|reflexivity].
  destruct (py_in (str "name") v) as [[]|ex] eqn:I; run_text; try reflexivity.
  destruct (py_getitem v (str "name")) as [x|ex]; run_text; [|reflexivity].
  destruct (py_upper x) as [u|ex]; run_text; [|reflexivity].
  destruct v; run_text; reflexivity.
Qed.

(** One iteration of the loop of flatten_nested_json.py. *)
Lemma flatten_one_field_text (now : datetime) (st : store) (d : pydict)
    (k : pystr) (x : pyval) :
  store_get st "data" = Some (PDict d) ->
  exists st' d',
    exec now text.flatten_one_field
      (store_set (store_set st "field" (PStr k)) "field_value" x)
    = Next st'
    /\ flatten_nested_json.flatten_fields [(k, x)] (PDict d) = Ok (PDict d')
    /\ store_get st' "data" = Some (PDict d')
    /\ store_get st' "value" = store_get st "value".
Proof.
  intros D. unfold text.flatten_one_field.
  cbn [flatten_nested_json.flatten_fields].
  assert (Skip : forall st0,
            store_get st0 "data" = Some (PDict d) ->
            store_get st0 "value" = store_get st "value" ->
            exists st' d',
              Next st0 = Next st'
              /\ (data <- Ok (PDict d) ;; Ok data) = Ok (PDict d')
              /\ store_get st' "data" = Some (PDict d')
              /\ store_get st' "value" = store_get st "value").
  { intros st0 D0 V0. exists st0, d. auto. }
  destruct x as [| b | z | f | s | l | d0];
    try (apply Skip; [exact D|reflexivity]).
  cbn [exec eval and_then store_get store_set String.eqb Ascii.eqb Bool.eqb
       py_truthy].
  unfold flatten_nested_json.looks_like_json.
  destruct (startswith s (str "{")), (endswith s (str "}")),
    (startswith s (str "[")), (endswith s (str "]"));
    cbn [py_truthy andb orb eval and_then store_get store_set String.eqb
         Ascii.eqb Bool.eqb exec];
    try (apply Skip; [exact D|reflexivity]).
  all: destruct (json_loads s) as [parsed|e];
    cbn [lift exec eval and_then store_get store_set String.eqb Ascii.eqb
         Bool.eqb bind try_except py_setitem]; rewrite ?D;
    cbn [py_setitem bind try_except].
  all: try (apply Skip; [exact D|reflexivity]).
  all: eexists; eexists; split; [reflexivity|]; split; [reflexivity|];
    split; reflexivity.
Qed.

(** The loop of flatten_nested_json.py. *)
Lemma flatten_loop_text (now : datetime) (items : pydict) :
  forall (st : store) (d : pydict),
    store_get st "data" = Some (PDict d) ->
    exists st' d',
      for_each
        (fun kv st0 =>
           exec now text.flatten_one_field
             (store_set (store_set st0 "field" (PStr (fst kv)))
                "field_value" (snd kv)))
        items st
      = Next st'
      /\ flatten_nested_json.flatten_fields items (PDict d) = Ok (PDict d')
      /\ store_get st' "data" = Some (PDict d')
      /\ store_get st' "value" = store_get st "value".
Proof.
  induction items as [|[k x] items IH]; intros st d D.
  - exists st, d. auto.
  - cbn [for_each fst snd].
    destruct (flatten_one_field_text now st d k x D) as (st1 & d1 & E & F & D1 & V1).
    rewrite E.
    destruct (IH st1 d1 D1) as (st2 & d2 & E2 & F2 & D2 & V2).
    exists st2, d2. split; [exact E2|]. split; [|split; [exact D2|congruence]].
    cbn [flatten_nested_json.flatten_fields] in F |- *.
    destruct (match x with PStr _ => _ | _ => _ end) as [y|e];
      cbn [bind] in F |- *; [|discriminate].
    injection F as ->. exact F2.
Qed.

Lemma flatten_nested_json_text (now : datetime) (key value : pystr) :
  call now text.flatten_nested_json key value
  = returns (flatten_nested_json.transform_value key value).
Proof.
  unfold call, text.flatten_nested_json, flatten_nested_json.transform_value.
  run_text.
  destruct (json_loads value) as [v|e]; run_text; [|reflexivity].
  destruct v as [| b | z | f | s | l | d]; run_text; try reflexivity.
  destruct (flatten_loop_text now d
              (store_set [("key"%string, PStr key); ("value"%string, PStr value)]
                 "data" (PDict d)) d eq_refl)
    as (st' & d' & E & F & D' & V').
  rewrite E, F. run_text. now rewrite D'.
Qed.

(** ** The stamp can be read off the text add_timestamp.py writes *)

Lemma escape_char_plain (c : codepoint) :
  plain_char c = true -> escape_char c = [c].
Proof.
  unfold plain_char. intros H.
  apply andb_prop in H as [H H4]. apply andb_prop in H as [H H3].
  apply andb_prop in H as [H1 H2].
  apply negb_true_iff in H3, H4. apply N.leb_le in H1. 
  unfold escape_char, is_char.
  rewrite H3. change (cp "\") with 92%N. rewrite H4.
  assert (N.eqb c 10 = false) as -> by (apply N.eqb_neq; lia).
  assert (N.eqb c 13 = false) as -> by (apply N.eqb_neq; lia).
  assert (N.eqb c 9 = false) as -> by (apply N.eqb_neq; lia).
  assert (N.eqb c 8 = false) as -> by (apply N.eqb_neq; lia).
  assert (N.eqb c 12 = false) as -> by (apply N.eqb_neq; lia).
  apply N.leb_le in H1. now rewrite H1, H2.
Qed.

Lemma encode_string_plain (s : pystr) :
  forallb plain_char s = true -> encode_string s = 34%N :: s ++ [34%N].
Proof.
  intros H. unfold encode_string. do 2 f_equal.
  induction s as [|c s IH]; [reflexivity|].
  cbn [forallb] in H. apply andb_prop in H as [Hc Hs].
  cbn [flat_map]. now rewrite (escape_char_plain c Hc), (IH Hs).
Qed.

Lemma pad_plain (w : nat) (n : Z) : forallb plain_char (pad w n) = true.
Proof.
  unfold pad. cbv zeta. rewrite forallb_app. apply andb_true_intro. split.
  - apply forallb_forall. intros c I. apply repeat_spec in I. now subst c.
  - unfold digits_of_nat.
    pose proof (digits_of_uint_digits (N.to_uint (Z.to_N n))) as D.
    rewrite forallb_forall in *. intros c I. specialize (D c I).
    unfold is_digit in D. apply andb_prop in D as [D1 D2].
    apply N.leb_le in D1, D2. unfold plain_char.
    assert (N.leb 32 c = true) as -> by (apply N.leb_le; lia).
    assert (N.leb c 126 = true) as -> by (apply N.leb_le; lia).
    assert (N.eqb c 34 = false) as -> by (apply N.eqb_neq; lia).
    assert (N.eqb c 92 = false) as -> by (apply N.eqb_neq; lia).
    reflexivity.
Qed.

Lemma isoformat_plain (now : datetime) :
  forallb plain_char (isoformat now ++ str "Z") = true.
Proof.
  unfold isoformat.
  repeat (rewrite ?forallb_app; cbn [forallb];
          rewrite ?pad_plain; cbn [andb]).
  destruct (microsecond now =? 0); cbn [forallb]; rewrite ?pad_plain; reflexivity.
Qed.

(** Where an assigned key lands in a [dict] does not depend on the value
    assigned. *)
Lemma dict_set_position (d : pydict) (a : pystr) :
  exists pre post, forall v, dict_set d a v = pre ++ (a, v) :: post.
Proof.
  induction d as [|[k w] d (pre & post & IH)].
  - exists [], []. reflexivity.
  - cbn [dict_set]. destruct (str_eqb k a) eqn:E.
    + apply str_eqb_eq in E. subst k. exists [], d. reflexivity.
    + exists ((k, w) :: pre), post. intros v. now rewrite IH.
Qed.

Lemma dict_set_twice_position (d : pydict) (a b : pystr) (x : pyval) :
  a <> b ->
  exists pre post,
    forall v, dict_set (dict_set d a v) b x = pre ++ (a, v) :: post.
Proof.
  intros N. assert (Nab : str_eqb a b = false) by now apply str_eqb_neq.
  induction d as [|[k w] d (pre & post & IH)].
  - exists [], [(b, x)]. intros v. cbn [dict_set]. now rewrite Nab.
  - cbn [dict_set]. destruct (str_eqb k a) eqn:Ea.
    + apply str_eqb_eq in Ea. subst k. exists [], (dict_set d b x).
      intros v. cbn [dict_set]. now rewrite Nab.
    + destruct (str_eqb k b) eqn:Eb.
      * destruct (dict_set_position d a) as (pre' & post' & P).
        exists ((k, x) :: pre'), post'. intros v. cbn [dict_set].
        now rewrite Eb, P.
      * exists ((k, w) :: pre), post. intros v. cbn [dict_set].
        now rewrite Eb, IH.
Qed.

Lemma join_comma_middle (xs : list pystr) (y : pystr) (ys : list pystr) :
  exists before after,
    (forall z, join_comma (xs ++ z :: ys) = before ++ z ++ after).
Proof.
  induction xs as [|x xs (before & after & IH)].
  - destruct ys as [|y' ys].
    + exists [], []. intros z. cbn. now rewrite app_nil_r.
    + exists [], (cp "," :: cp " " :: join_comma (y' :: ys)). reflexivity.
  - exists (x ++ cp "," :: cp " " :: before), after. intros z.
    specialize (IH z). destruct (xs ++ z :: ys) as [|h t] eqn:E.
    + destruct xs; discriminate.
    + cbn [app]. rewrite E, join_comma_cons, IH, <- app_assoc. reflexivity.
Qed.

(** The text written for an object is the same around a member's string
    value, whatever that string is. *)
Lemma json_dumps_around_member (pre post : pydict) (a : pystr) :
  exists before after,
    forall s, forallb plain_char s = true ->
      json_dumps (PDict (pre ++ (a, PStr s) :: post)) = before ++ s ++ 34%N :: after.
Proof.
  destruct (join_comma_middle (map dumps_member pre) []
              (map dumps_member post)) as (before & after & J).
  exists (cp "{" :: before ++ encode_string a ++ [cp ":"; cp " "; 34%N]),
    (after ++ [cp "}"]).
  intros s Hs. cbn [json_dumps].
  change (map _ (pre ++ (a, PStr s) :: post))
    with (map dumps_member (pre ++ (a, PStr s) :: post)).
  rewrite map_app. cbn [map]. rewrite J.
  unfold dumps_member at 1. cbn [fst snd json_dumps].
  rewrite (encode_string_plain s Hs).
  cbn [app]. f_equal. repeat (rewrite <- app_assoc; cbn [app]). reflexivity.
Qed.

Lemma plain_prefix_unique (s1 s2 r1 r2 : pystr) :
  forallb plain_char s1 = true -> forallb plain_char s2 = true ->
  s1 ++ 34%N :: r1 = s2 ++ 34%N :: r2 -> s1 = s2.
Proof.
  revert s2. induction s1 as [|c s1 IH]; intros [|c2 s2] H1 H2 E;
    cbn [app forallb] in *.
  - reflexivity.
  - injection E as <- _. apply andb_prop in H2 as [H2 _]. discriminate.
  - injection E as -> _. apply andb_prop in H1 as [H1 _]. discriminate.
  - injection E as <- E. apply andb_prop in H1 as [_ H1].
    apply andb_prop in H2 as [_ H2]. f_equal. eauto.
Qed.

(** On an object, the result of the add_timestamp transform determines the
    ISO text of the clock reading. *)
Lemma add_timestamp_result_tells_clock (now1 now2 : datetime)
    (key value : pystr) (d : pydict) :
  json_loads value = Ok (PDict d) ->
  add_timestamp.transform_value now1 key value
  = add_timestamp.transform_value now2 key value ->
  isoformat now1 = isoformat now2.
Proof.
  intros L E.
  rewrite !(add_timestamp_transform_parsed _ key value d L) in E.
  assert (Inj : forall a b : pystr, Ok a = Ok b -> a = b)
    by (intros a b [=]; assumption).
  apply Inj in E. clear Inj.
  destruct (dict_set_twice_position d (str "processed_at")
              (str "transform_version") (PStr (str "1.0")))
    as (pre & post & P); [discriminate|].
  rewrite !P in E.
  destruct (json_dumps_around_member pre post (str "processed_at"))
    as (before & after & J).
  rewrite !J in E by apply isoformat_plain.
  apply app_inv_head in E.
  apply plain_prefix_unique in E; try apply isoformat_plain.
  now apply app_inv_tail in E.
Qed.

(** ** Determinism of the transforms, up to the clock *)


